(** * Inventory import / export routes: a shallow embedding

    The two route modules [app/routes/app.import-product-data.jsx] and
    [app/routes/app.export-product-data.jsx] are embedded as Rocq functions.
    JavaScript values that the routes inspect dynamically are a small tagged
    type; [Map] and [Set] objects are stdpp finite maps and sets; remote calls
    are a writer/error monad over scripted replies that logs each call. *)

From Stdlib Require Import ZArith List String Ascii Bool Lia.
From stdpp Require Import base option list gmap strings pretty.

Local Open Scope string_scope.
Local Open Scope Z_scope.
Local Open Scope list_scope.

(** ** JavaScript values and the string primitives used by the routes *)
Module JS.

(** The cell values a spreadsheet row carries once it went through
    [JSON.stringify] / [JSON.parse].  Numbers are the integral ones: [JNum n]
    is the number [n], and every integer up to 2^53 in magnitude is one.  A
    fractional cell reaches [parseInt] and [String] as its decimal text,
    which is a [JStr] here. *)
Inductive jsval : Type :=
| JUndefined
| JNull
| JBool (b : bool)
| JNum (n : Z)
| JStr (s : string).

#[global] Instance jsval_eq_dec : EqDecision jsval.
Proof. solve_decision. Defined.

(** The double quote character, for messages that embed it. *)
Definition dq : string := String (ascii_of_nat 34) EmptyString.

(** [!!v] *)
Definition truthy (v : jsval) : bool :=
  match v with
  | JUndefined | JNull => false
  | JBool b => b
  | JNum n => negb (n =? 0)
  | JStr s => negb (String.eqb s EmptyString)
  end.

(** The digits of a numeral without its trailing zeros. *)
Fixpoint strip_zeros (s : string) : string :=
  match s with
  | EmptyString => EmptyString
  | String c r =>
      let r' := strip_zeros r in
      if Ascii.eqb c "0" && String.eqb r' EmptyString then EmptyString
      else String c r'
  end.

(** The exponent form of [Number::toString]: the first digit, a point and
    the further digits when there are any, then [e+] and the exponent. *)
Definition exponent_form (n : Z) : string :=
  let digits := pretty (Z.abs n) in
  let exponent := Z.of_nat (String.length digits) - 1 in
  (if n <? 0 then "-" else EmptyString)
  +:+ match strip_zeros digits with
      | EmptyString => "0"
      | String d EmptyString => String d EmptyString
      | String d more => String d ("." +:+ more)
      end
  +:+ "e+" +:+ pretty exponent.

(** [Number::toString] of an integral number: its decimal numeral below
    10^21 in magnitude, the exponent form from there on ([String(1e21)] is
    ["1e+21"]).  This is exact for every integer up to 2^53 in magnitude.
    Beyond that JavaScript holds only some of the integers and prints the
    shortest digits that identify the number, which are the digits of [n]
    when [n] has at most 15 significant digits; what is stated below about
    the text of a number is limited to magnitudes up to 2^53. *)
Definition number_text (n : Z) : string :=
  if Z.abs n <? 1000000000000000000000 then pretty n else exponent_form n.

(** [String(v)] and template interpolation of [v] *)
Definition ToString (v : jsval) : string :=
  match v with
  | JUndefined => "undefined"
  | JNull => "null"
  | JBool true => "true"
  | JBool false => "false"
  | JNum n => number_text n
  | JStr s => s
  end.

(** [v === w] *)
Definition strict_eq (v w : jsval) : bool := bool_decide (v = w).

(** White space removed by [trim] and skipped by [parseInt]: TAB, LF, VT, FF,
    CR and SPACE (the ASCII part of the ECMAScript set). *)
Definition is_space (c : ascii) : bool :=
  let n := nat_of_ascii c in
  ((9 <=? n)%nat && (n <=? 13)%nat) || (n =? 32)%nat.

Fixpoint trimStart (s : string) : string :=
  match s with
  | EmptyString => EmptyString
  | String c r => if is_space c then trimStart r else s
  end.

Fixpoint trimEnd (s : string) : string :=
  match s with
  | EmptyString => EmptyString
  | String c r =>
      let r' := trimEnd r in
      if is_space c && String.eqb r' EmptyString then EmptyString
      else String c r'
  end.

(** [s.trim()] *)
Definition trim (s : string) : string := trimEnd (trimStart s).

Definition lower (c : ascii) : ascii :=
  let n := nat_of_ascii c in
  if ((65 <=? n)%nat && (n <=? 90)%nat) then ascii_of_nat (n + 32) else c.

(** [s.toLowerCase()] on ASCII text *)
Fixpoint toLowerCase (s : string) : string :=
  match s with
  | EmptyString => EmptyString
  | String c r => String (lower c) (toLowerCase r)
  end.

(** [s.includes(t)] *)
Fixpoint includes (s t : string) : bool :=
  String.prefix t s ||
  match s with
  | EmptyString => false
  | String _ r => includes r t
  end.

(** Value of a digit in radix [R] (10 or 16), if it is one. *)
Definition digit_val (R : Z) (c : ascii) : option Z :=
  let n := Z.of_nat (nat_of_ascii c) in
  let d :=
    if (48 <=? n) && (n <=? 57) then Some (n - 48)
    else if (97 <=? n) && (n <=? 102) then Some (n - 87)
    else if (65 <=? n) && (n <=? 70) then Some (n - 55)
    else None in
  match d with
  | Some v => if v <? R then Some v else None
  | None => None
  end.

(** The longest prefix of radix-[R] digits, read as a number; [acc] is the
    value read so far ([None] while no digit was seen). *)
Fixpoint read_digits (R : Z) (s : string) (acc : option Z) : option Z :=
  match s with
  | EmptyString => acc
  | String c r =>
      match digit_val R c with
      | Some d => read_digits R r (Some (R * default 0 acc + d))
      | None => acc
      end
  end.

(** [parseInt(s)] without a radix argument: leading white space, an optional
    sign, an optional [0x]/[0X] prefix selecting radix 16, then the longest
    digit prefix. [None] is [NaN]. *)
Definition parseInt_string (s : string) : option Z :=
  let s1 := trimStart s in
  let '(sign, s2) :=
    match s1 with
    | String c r =>
        if Ascii.eqb c "-" then (-1, r)
        else if Ascii.eqb c "+" then (1, r)
        else (1, s1)
    | EmptyString => (1, s1)
    end in
  let '(R, s3) :=
    match s2 with
    | String c0 (String c1 r) =>
        if Ascii.eqb c0 "0" && (Ascii.eqb c1 "x" || Ascii.eqb c1 "X")
        then (16, r) else (10, s2)
    | _ => (10, s2)
    end in
  match read_digits R s3 None with
  | Some v => Some (sign * v)
  | None => None
  end.

(** [parseInt(v)]: the argument first goes through [ToString]. *)
Definition parseInt (v : jsval) : option Z := parseInt_string (ToString v).

(** [a || b] on optional strings (absent and empty are falsy). *)
Definition or_else (a b : option string) : option string :=
  match a with
  | Some s => if String.eqb s EmptyString then b else a
  | None => b
  end.

(** Interpolation of a possibly [undefined] string. *)
Definition show (a : option string) : string :=
  match a with Some s => s | None => "undefined" end.

End JS.

(** ** Remote calls: a writer / error monad over scripted replies *)
Module Remote.

(** One element of [bulkUpdates], the [quantities] entry of a mutation
    input: [{ inventoryItemId, locationId, quantity }]. *)
Record diff : Type :=
  { d_inventoryItemId : string; d_locationId : string; d_quantity : Z }.

#[global] Instance diff_eq_dec : EqDecision diff.
Proof. solve_decision. Defined.

(** Every request the routes send to the outside world. *)
Inductive call : Type :=
| QLocations                               (* query getLocations *)
| QLocation (id : string)                  (* query getLocation($id) *)
| QPage (after : option string)            (* query getInventoryData($after) *)
| MStagedUploadsCreate                     (* mutation stagedUploadsCreate *)
| HUpload (url : string) (parameters : list (string * string))
          (jsonlLines : list (list diff))  (* fetch(target.url, POST form) *)
| MBulkRunMutation (stagedUploadPath : option string)
                                           (* mutation bulkOperationRunMutation *)
| QCurrentOp                               (* query currentBulkOperation *)
| MCancel (id : string)                    (* mutation bulkOperationCancel *)
| MRunQuery                                (* mutation bulkOperationRunQuery *)
| QNode (id : string)                      (* query node(id) on BulkOperation *)
| HFetch (url : string).                   (* fetch(bulkOperation.url) *)

#[global] Instance call_eq_dec : EqDecision call.
Proof. solve_decision. Defined.

(** How an evaluation or an awaited promise ends: with a value, or with an
    exception that unwinds to the nearest [catch]. *)
Inductive completion (A : Type) : Type :=
| Normal (a : A)
| Throw (e : string).
Arguments Normal {A} a.
Arguments Throw {A} e.

(** A computation: the calls performed so far, and how it ended.  [None] is
    not JavaScript: the script of replies ended while the code was still
    asking for the next page. *)
Definition M (A : Type) : Type := (list call * option (completion A))%type.

Definition ret {A} (a : A) : M A := ([], Some (Normal a)).

Definition bind {A B} (m : M A) (f : A -> M B) : M B :=
  match m with
  | (l, Some (Normal a)) => let '(l', r) := f a in (l ++ l', r)
  | (l, Some (Throw e)) => (l, Some (Throw e))
  | (l, None) => (l, None)
  end.

(** [await] of request [c] whose scripted reply is [reply]. *)
Definition request {A} (c : call) (reply : completion A) : M A :=
  ([c], Some reply).

(** A step that performs no call: it yields a value or throws. *)
Definition lift {A} (r : completion A) : M A := ([], Some r).

Definition out_of_script {A} : M A := ([], None).

(** [try { m } catch (e) { handler }] with a handler that performs no call. *)
Definition try_catch {A} (m : M A) (handler : A) : M A :=
  match m with
  | (l, Some (Throw _)) => (l, Some (Normal handler))
  | _ => m
  end.

Definition trace {A} (m : M A) : list call := fst m.
Definition outcome_of {A} (m : M A) : option (completion A) := snd m.

(** The calls that change the remote store or start doing so. *)
Definition is_mutation (c : call) : bool :=
  match c with
  | MStagedUploadsCreate | HUpload _ _ _ | MBulkRunMutation _ => true
  | _ => false
  end.

End Remote.

Notation "'let*' x := m 'in' k" := (Remote.bind m (fun x => k))
  (at level 10, x pattern, m at level 100, k at level 200).

(** ** app/routes/app.import-product-data.jsx *)
Module ImportRoute.
Import JS Remote.

(** A parsed spreadsheet row: a JavaScript object keyed by column header. *)
Abbreviation row := (gmap string jsval).

(** [row[k]] *)
Definition get (r : row) (k : string) : jsval := default JUndefined (r !! k).

Record location : Type := { loc_id : string; loc_name : string }.

(** One [skuMap] value: [{ inventoryItemId, levels: Map<LocationId, Qty> }]. *)
Record indexEntry : Type :=
  { inventoryItemId : string; levels : gmap string Z }.

(** The [results] object of [action]. *)
Record results : Type :=
  { total : nat;
    updated : Z;
    errors : list string;
    failedRows : list row;
    skippedRows : list row;
    bulkOperationId : option string }.

(** What the row loop reads but never writes. *)
Record venv : Type :=
  { locationId : string;
    allLocations : list location;
    selectedLocationName : option string;
    skuMap : gmap string indexEntry }.

Definition isAllLocationsMode (e : venv) : bool :=
  String.eqb (locationId e) "ALL_LOCATIONS".

(** The way one iteration of [for (const row of rows)] ends.
    - [Ignored]: the first [continue], nothing is pushed;
    - [Rejected err reason]: [errors.push(err)] and
      [failedRows.push({...row, "Error Reason": reason})];
    - [Skipped reason]: [skippedRows.push({...row, "Reason": reason})];
    - [Accepted d]: [bulkUpdates.push(d)]. *)
Inductive outcome : Type :=
| Ignored
| Rejected (err reason : string)
| Skipped (reason : string)
| Accepted (d : diff).

#[global] Instance outcome_eq_dec : EqDecision outcome.
Proof. solve_decision. Defined.

(** [error.message] of the [TypeError] raised by
    [selectedLocationName.toLowerCase()] on [undefined]. *)
Definition TypeError_toLowerCase : string :=
  "Cannot read properties of undefined (reading 'toLowerCase')".

(** [allLocations.find(loc => loc.name.toLowerCase() === sheetLocation.toLowerCase())] *)
Definition findLocation (locs : list location) (sheetLocation : string)
  : option location :=
  List.find (fun loc => String.eqb (toLowerCase (loc_name loc))
                                   (toLowerCase sheetLocation)) locs.

(** Lines 224-250: the target location of a row, or the rejection that ends
    the iteration.  The result is [(targetLocationId, targetLocationName)]. *)
Definition resolveLocation (e : venv) (r : row) (sku : string)
  : outcome + (string * option string) :=
  let sheetLocationRaw := get r "Inventory Location" in
  let sheetLocation :=
    if truthy sheetLocationRaw then trim (ToString sheetLocationRaw)
    else EmptyString in
  if isAllLocationsMode e then
    if String.eqb sheetLocation EmptyString then
      inl (Rejected
             ("Skipped SKU " +:+ sku +:+ ": Inventory Location is required when "
                +:+ dq +:+ "All Locations" +:+ dq +:+ " is selected")
             "Inventory Location is required for All Locations mode")
    else
      match findLocation (allLocations e) sheetLocation with
      | None =>
          inl (Rejected
                 ("Skipped SKU " +:+ sku +:+ ": Location '" +:+ sheetLocation
                    +:+ "' not found in store")
                 ("Location '" +:+ sheetLocation +:+ "' not found in store"))
      | Some foundLocation =>
          inr (loc_id foundLocation, Some (loc_name foundLocation))
      end
  else
    if String.eqb sheetLocation EmptyString then
      inr (locationId e, selectedLocationName e)
    else
      match selectedLocationName e with
      | None =>
          (* the TypeError lands in the [catch] of lines 291-294 *)
          inl (Rejected
                 ("Error processing SKU " +:+ ToString (get r "SKU") +:+ ": "
                    +:+ TypeError_toLowerCase)
                 TypeError_toLowerCase)
      | Some name =>
          if negb (String.eqb (toLowerCase sheetLocation) (toLowerCase name))
          then
            inl (Rejected
                   ("Skipped SKU " +:+ sku +:+ ": Location in sheet '"
                      +:+ sheetLocation +:+ "' does not match selected location '"
                      +:+ name +:+ "'")
                   ("Location mismatch: '" +:+ sheetLocation +:+ "' ≠ '"
                      +:+ name +:+ "'"))
          else inr (locationId e, selectedLocationName e)
      end.

(** [`${skuKey}|${targetLocationName}`] *)
Definition combinationKey (skuKey : string) (targetLocationName : option string)
  : string :=
  skuKey +:+ "|" +:+ show targetLocationName.

(** Lines 260-289: index lookup, no-op check, diff. *)
Definition lookupAndDiff (e : venv) (sku skuKey : string) (quantity : Z)
    (targetLocationId : string) : outcome :=
  match skuMap e !! skuKey with
  | None =>
      Rejected ("Variant not found for SKU: " +:+ sku) "Variant not found"
  | Some variantData =>
      match levels variantData !! targetLocationId with
      | None =>
          Rejected ("Skipped SKU " +:+ sku
                      +:+ ": SKU don't have this location (or not stocked)")
                   "SKU don't have this location"
      | Some currentQty =>
          if currentQty =? quantity then Skipped "Quantity already matches"
          else Accepted {| d_inventoryItemId := inventoryItemId variantData;
                           d_locationId := targetLocationId;
                           d_quantity := quantity |}
      end
  end.

(** The body of the row loop (lines 210-294) against the set
    [processedCombinations]: how the iteration ends, and the set after it. *)
Definition classify (e : venv) (processedCombinations : gset string) (r : row)
  : outcome * gset string :=
  if negb (truthy (get r "SKU")) || strict_eq (get r "SKU") (JStr "SKU")
  then (Ignored, processedCombinations)
  else
    let sku := trim (ToString (get r "SKU")) in
    let skuKey := toLowerCase sku in
    match parseInt (get r "Quantity Available") with
    | None =>
        (Rejected ("Skipped SKU " +:+ sku +:+ ": Invalid or missing quantity value")
                  "Invalid or missing quantity value",
         processedCombinations)
    | Some quantity =>
        match resolveLocation e r sku with
        | inl rejected => (rejected, processedCombinations)
        | inr (targetLocationId, targetLocationName) =>
            let key := combinationKey skuKey targetLocationName in
            if bool_decide (key ∈ processedCombinations) then
              (Rejected
                 ("Skipped SKU " +:+ sku
                    +:+ ": You have identical row having same SKU and location")
                 "You have identical row having same SKU and location",
               processedCombinations)
            else
              (lookupAndDiff e sku skuKey quantity targetLocationId,
               {[ key ]} ∪ processedCombinations)
        end
    end.

(** The mutable state of the row loop. *)
Record vstate : Type :=
  { st_results : results;
    st_processed : gset string;
    st_bulkUpdates : list diff }.

(** The pushes that go with each way of ending an iteration. *)
Definition record (r : row) (o : outcome) (res : results) (ups : list diff)
  : results * list diff :=
  match o with
  | Ignored => (res, ups)
  | Rejected err reason =>
      ({| total := total res; updated := updated res;
          errors := errors res ++ [err];
          failedRows := failedRows res ++ [<["Error Reason" := JStr reason]> r];
          skippedRows := skippedRows res;
          bulkOperationId := bulkOperationId res |}, ups)
  | Skipped reason =>
      ({| total := total res; updated := updated res;
          errors := errors res;
          failedRows := failedRows res;
          skippedRows := skippedRows res ++ [<["Reason" := JStr reason]> r];
          bulkOperationId := bulkOperationId res |}, ups)
  | Accepted d => (res, ups ++ [d])
  end.

Definition process_row (e : venv) (st : vstate) (r : row) : vstate :=
  let '(o, seen) := classify e (st_processed st) r in
  let '(res, ups) := record r o (st_results st) (st_bulkUpdates st) in
  {| st_results := res; st_processed := seen; st_bulkUpdates := ups |}.

(** Lines 106-113. *)
Definition initial_results (rows : list row) : results :=
  {| total := length rows; updated := 0; errors := []; failedRows := [];
     skippedRows := []; bulkOperationId := None |}.

Definition initial_state (rows : list row) : vstate :=
  {| st_results := initial_results rows; st_processed := ∅;
     st_bulkUpdates := [] |}.

(** Lines 205-295: the whole loop. *)
Definition validate (e : venv) (rows : list row) : vstate :=
  fold_left (process_row e) rows (initial_state rows).

(** The per-row outcomes of a run of the loop from the set [seen]. *)
Fixpoint outcomes (e : venv) (seen : gset string) (rows : list row)
  : list outcome :=
  match rows with
  | [] => []
  | r :: rest =>
      let '(o, seen') := classify e seen r in
      o :: outcomes e seen' rest
  end.


(** *** Remote Index: the prefetch loop (lines 151-203) *)

Record quantityNode : Type := { q_name : string; q_quantity : Z }.
Record levelNode : Type :=
  { ln_location_id : string; ln_quantities : list quantityNode }.
Record inventoryItemNode : Type :=
  { ii_id : string; ii_inventoryLevels : list levelNode }.
Record variantNode : Type :=
  { vn_sku : option string; vn_inventoryItem : option inventoryItemNode }.
Record productVariants : Type :=
  { pv_edges : list variantNode;
    pv_hasNextPage : bool;
    pv_endCursor : option string }.

(** The JSON body of one page reply: GraphQL [errors], which the route never
    reads, and [data.productVariants], which may be missing. *)
Record pageReply : Type :=
  { pr_errors : list string; pr_data : option productVariants }.

(** [error.message] of reading [id] of a null [inventoryItem]. *)
Definition TypeError_id : string :=
  "Cannot read properties of null (reading 'id')".

(** Lines 187-191: the [levels] map of one variant. *)
Definition index_levels (lvls : list levelNode) : gmap string Z :=
  fold_left
    (fun (levels : gmap string Z) lvl =>
       match List.find (fun q => String.eqb (q_name q) "available")
                       (ln_quantities lvl) with
       | Some qtyNode => <[ln_location_id lvl := q_quantity qtyNode]> levels
       | None => levels
       end)
    lvls ∅.

(** Lines 184-198 for one edge. *)
Definition index_edge (m : gmap string indexEntry) (node : variantNode)
  : completion (gmap string indexEntry) :=
  match vn_sku node with
  | None => Normal m
  | Some sku =>
      if String.eqb sku EmptyString then Normal m
      else
        match vn_inventoryItem node with
        | None => Throw TypeError_id
        | Some item =>
            Normal (<[toLowerCase sku :=
                         {| inventoryItemId := ii_id item;
                            levels := index_levels (ii_inventoryLevels item) |}]> m)
        end
  end.

Fixpoint index_edges (m : gmap string indexEntry) (edges : list variantNode)
  : completion (gmap string indexEntry) :=
  match edges with
  | [] => Normal m
  | node :: rest =>
      match index_edge m node with
      | Normal m' => index_edges m' rest
      | other => other
      end
  end.

(** [while (hasNextPage)]: one iteration per scripted reply. *)
Fixpoint prefetch (pages : list (completion pageReply)) (endCursor : option string)
    (m : gmap string indexEntry) : M (gmap string indexEntry) :=
  match pages with
  | [] => out_of_script
  | reply :: rest =>
      let* data := request (QPage endCursor) reply in
      match pr_data data with
      | None => ret m      (* every [?.] chain is undefined: the loop ends *)
      | Some pv =>
          let* m' := lift (index_edges m (pv_edges pv)) in
          if pv_hasNextPage pv then prefetch rest (pv_endCursor pv) m'
          else ret m'
      end
  end.

(** *** Batch planning and the staged upload (lines 299-408) *)

Definition BATCH_SIZE : nat := 1.

Fixpoint plan_loop (updates currentBatch : list diff)
    (jsonlLines : list (list diff)) : list diff * list (list diff) :=
  match updates with
  | [] => (currentBatch, jsonlLines)
  | update :: rest =>
      let batch := currentBatch ++ [update] in
      if (BATCH_SIZE <=? length batch)%nat
      then plan_loop rest [] (jsonlLines ++ [batch])
      else plan_loop rest batch jsonlLines
  end.

(** Lines 306-333: one JSONL line per batch. *)
Definition plan (bulkUpdates : list diff) : list (list diff) :=
  let '(currentBatch, jsonlLines) := plan_loop bulkUpdates [] [] in
  match currentBatch with
  | [] => jsonlLines
  | _ => jsonlLines ++ [currentBatch]
  end.

Record stagedTarget : Type :=
  { tg_url : string; tg_parameters : list (string * string) }.
Record stagedUploadsCreate : Type :=
  { sc_stagedTargets : list stagedTarget; sc_userErrors : list string }.

(** [r.data] of the target request: the [stagedUploadsCreate] payload and the
    top-level [userErrors] the route destructures next to it. *)
Record stagedData : Type :=
  { sd_stagedUploadsCreate : option stagedUploadsCreate;
    sd_userErrors : list string }.

Record uploadResponse : Type := { ok : bool; statusText : string }.

Record bulkOperationRunMutation : Type :=
  { bm_userErrors : list string; bm_bulkOperation_id : option string }.

(** The scripted replies of one run of [action]. *)
Record remote : Type :=
  { r_locations : completion (option (list location));
    r_location : completion (option string);
    r_pages : list (completion pageReply);
    r_staged : completion (option stagedData);
    r_upload : completion uploadResponse;
    r_bulk : completion (option bulkOperationRunMutation) }.

Definition push_error (res : results) (msg : string) : results :=
  {| total := total res; updated := updated res;
     errors := errors res ++ [msg];
     failedRows := failedRows res; skippedRows := skippedRows res;
     bulkOperationId := bulkOperationId res |}.

Definition set_bulkOperationId (res : results) (opId : string) : results :=
  {| total := total res; updated := updated res; errors := errors res;
     failedRows := failedRows res; skippedRows := skippedRows res;
     bulkOperationId := Some opId |}.

(** [stageErrors], [stagedUploadsCreate?.userErrors] and
    [stagedUploadsCreate?.stagedTargets] of the target request's [data]
    (absent arrays count as empty). *)
Definition stageErrors_of (data : option stagedData) : list string :=
  from_option sd_userErrors [] data.
Definition createErrors_of (data : option stagedData) : list string :=
  from_option sc_userErrors [] (data ≫= sd_stagedUploadsCreate).
Definition targets_of (data : option stagedData) : list stagedTarget :=
  from_option sc_stagedTargets [] (data ≫= sd_stagedUploadsCreate).

(** Lines 301-408. *)
Definition execute (w : remote) (res : results) (bulkUpdates : list diff)
  : M results :=
  match bulkUpdates with
  | [] => ret res
  | _ =>
      let jsonlLines := plan bulkUpdates in
      let* data := request MStagedUploadsCreate (r_staged w) in
      if negb (length (stageErrors_of data) =? 0)%nat
         || negb (length (createErrors_of data) =? 0)%nat
      then
        let msg := or_else (head (stageErrors_of data))
                           (head (createErrors_of data)) in
        ret (push_error res ("Failed to create upload target: " +:+ show msg))
      else
        match targets_of data with
        | target :: _ =>
            let uploadPath :=
              snd <$> List.find (fun p => String.eqb (fst p) "key")
                                (tg_parameters target) in
            let* uploadRes :=
              request (HUpload (tg_url target) (tg_parameters target) jsonlLines)
                      (r_upload w) in
            if negb (ok uploadRes) then
              ret (push_error res ("Upload failed: " +:+ statusText uploadRes))
            else
              let* bulkData :=
                request (MBulkRunMutation uploadPath) (r_bulk w) in
              match from_option bm_userErrors [] bulkData with
              | message :: _ =>
                  ret (push_error res ("Bulk Mutation Error: " +:+ message))
              | [] =>
                  match or_else (bulkData ≫= bm_bulkOperation_id) None with
                  | Some opId => ret (set_bulkOperationId res opId)
                  | None =>
                      ret (push_error res
                        "Failed to trigger backend bulk operation (No ID returned)")
                  end
              end
        | [] => ret (push_error res "Failed to get upload target URL")
        end
  end.

(** Lines 115-203: the two location queries and the prefetch, giving what
    the row loop reads. *)
Definition prepare (w : remote) (locationId : string) : M venv :=
  let isAll := String.eqb locationId "ALL_LOCATIONS" in
  let* allLocations :=
    (if isAll
     then let* found := request QLocations (r_locations w) in
          ret (default [] found)
     else ret []) in
  let* selectedLocationName :=
    (if negb isAll then request (QLocation locationId) (r_location w)
     else ret None) in
  let* skuMap := prefetch (r_pages w) None ∅ in
  ret {| locationId := locationId; allLocations := allLocations;
         selectedLocationName := selectedLocationName;
         skuMap := skuMap |}.

(** [action] (lines 99-409); the returned object is [{ success: true, results }]. *)
Definition action (w : remote) (locationId : string) (rows : list row)
  : M results :=
  let* e := prepare w locationId in
  let st := validate e rows in
  execute w (st_results st) (st_bulkUpdates st).

(** *** Polling the write job: [loader] (lines 14-71) *)

Record bulkOperation : Type :=
  { bo_status : string; bo_objectCount : jsval; bo_url : option string }.

(** [bulkResults]: [{ updated: successCount, errors: bulkErrors }]. *)
Record bulkResults : Type := { br_updated : Z; br_errors : list string }.

(** A line of the result file after [split] and [filter], given by what
    [JSON.parse(line)] makes of it: [None] when it throws, otherwise the
    messages of [result.inventorySetQuantities?.userErrors || []]. *)
Abbreviation resultLine := (option (list string)).

(** Lines 48-56 inside the [try] of line 44.  The [try] encloses the whole
    [forEach], so the first line that throws ends the scan; what was counted
    before stays in [bulkErrors] and [successCount]. *)
Fixpoint scan (lines : list resultLine) (bulkErrors : list string)
    (successCount : Z) : list string * Z :=
  match lines with
  | [] => (bulkErrors, successCount)
  | None :: _ => (bulkErrors, successCount)
  | Some userErrors :: rest =>
      match userErrors with
      | message :: _ => scan rest (bulkErrors ++ [message]) successCount
      | [] => scan rest bulkErrors (successCount + 1)
      end
  end.

Inductive pollData : Type :=
| PollNone                              (* success: false, status: "NONE" *)
| PollCompleted (res : bulkResults)     (* success: true, status: "COMPLETED" *)
| PollRunning (progress : jsval)        (* success: true, status: "RUNNING" *)
| PollOther (status : string).          (* success: false, status *)

Record pollRemote : Type :=
  { p_node : completion (option bulkOperation);
    p_file : completion (list resultLine) }.

Definition loader (w : pollRemote) (operationId : string) : M pollData :=
  let* node := request (QNode operationId) (p_node w) in
  match node with
  | None => ret PollNone
  | Some op =>
      if String.eqb (bo_status op) "COMPLETED" then
        match or_else (bo_url op) None with
        | Some url =>
            let* counted :=
              try_catch
                (let* lines := request (HFetch url) (p_file w) in
                 ret (scan lines [] 0))
                ([], 0) in
            ret (PollCompleted {| br_updated := snd counted;
                                  br_errors := fst counted |})
        | None =>
            ret (PollCompleted
                   {| br_updated := default 0 (parseInt (bo_objectCount op));
                      br_errors := [] |})
        end
      else if String.eqb (bo_status op) "RUNNING"
              || String.eqb (bo_status op) "CREATED"
      then ret (PollRunning (bo_objectCount op))
      else ret (PollOther (bo_status op))
  end.

(** *** Merging, in the component [ImportProductData] (lines 532-544) *)

Definition merge (validatedResults : results) (polled : option bulkResults)
  : results :=
  let bulkRes := default {| br_updated := 0; br_errors := [] |} polled in
  {| total := total validatedResults;
     updated := updated validatedResults + br_updated bulkRes;
     errors := errors validatedResults ++ br_errors bulkRes;
     failedRows := failedRows validatedResults;
     skippedRows := skippedRows validatedResults;
     bulkOperationId := bulkOperationId validatedResults |}.

End ImportRoute.

(** ** app/routes/app.export-product-data.jsx *)
Module ExportRoute.
Import JS Remote.

(** *** Submitting the read job: [action] (lines 211-331) *)

Record currentBulkOperation : Type := { co_id : string; co_status : string }.

(** [result.data?.bulkOperationRunQuery] *)
Record bulkOperationRunQuery : Type :=
  { rq_userErrors : list string; rq_bulkOperation_id : option string }.

Record remote : Type :=
  { x_current : completion (option currentBulkOperation);
    x_cancel : completion unit;
    x_run : completion (option bulkOperationRunQuery);
    x_retry_current : completion (option string);
    x_retry_cancel : completion unit;
    x_retry_run : completion (option bulkOperationRunQuery) }.

Inductive submitted : Type :=
| SubmitFailed (error : string)                    (* success: false, error *)
| SubmitCreated (locationId operationId : string). (* success: true, "CREATED" *)

(** [error.message] of reading through a missing reply at line 330. *)
Definition TypeError_result : string :=
  "Cannot read properties of undefined (reading 'bulkOperationRunQuery')".

(** Lines 217-233: the request and the settle delay sit in a [try] whose
    [catch] only logs. *)
Definition cancelOperation (id : string) (reply : completion unit) : M unit :=
  try_catch (request (MCancel id) reply) tt.

Definition userErrors_of (r : option bulkOperationRunQuery) : list string :=
  from_option rq_userErrors [] r.

Definition action (w : remote) (locationId : string) : M submitted :=
  let* currentOp := request QCurrentOp (x_current w) in
  let* _ :=
    (match currentOp with
     | Some op =>
         if negb (String.eqb (co_status op) "COMPLETED")
         then cancelOperation (co_id op) (x_cancel w)
         else ret tt
     | None => ret tt
     end) in
  let* first := request MRunQuery (x_run w) in
  let* result :=
    (if existsb (fun message => includes message "in progress")
                (userErrors_of first)
     then
       let* retryOp := request QCurrentOp (x_retry_current w) in
       let* _ :=
         (match or_else retryOp None with
          | Some id => cancelOperation id (x_retry_cancel w)
          | None => ret tt
          end) in
       request MRunQuery (x_retry_run w)
     else ret first) in
  match userErrors_of result with
  | message :: _ => ret (SubmitFailed message)
  | [] =>
      match result with
      | Some rq =>
          match rq_bulkOperation_id rq with
          | Some id => ret (SubmitCreated locationId id)
          | None => lift (Throw TypeError_result)
          end
      | None => lift (Throw TypeError_result)
      end
  end.

(** *** Rebuilding the tree and projecting rows: [loader] (lines 45-178) *)

Record locationObj : Type := { lo_id : option string; lo_name : option string }.

(** One parsed line of the read job's result file: the fields the loader
    looks at.  [j_inventoryItem] is [obj.inventoryItem.id]. *)
Record jline : Type :=
  { j_id : option string;
    j_sku : option string;
    j_parentId : option string;
    j_title : option string;
    j_selectedOptions : list string;
    j_inventoryItem : option string;
    j_location : option locationObj;
    j_quantities : option (list (option Z)) }.

(** A stored object and the two arrays the loader attaches to it:
    [obj.variants] and [obj.inventoryItem.inventoryLevels].  Products and
    variants are shared between the maps and the arrays, so they live in a
    heap and are named by their index. *)
Record hobj : Type :=
  { h_line : jline; h_variants : list nat; h_levels : list jline }.

Record bstate : Type :=
  { heap : list hobj;
    productsMap : gmap string nat;
    variantsMap : gmap string nat;
    inventoryItemsMap : gmap string nat;
    products : list nat }.

Definition empty_state : bstate :=
  {| heap := []; productsMap := ∅; variantsMap := ∅; inventoryItemsMap := ∅;
     products := [] |}.

Definition nonempty (a : option string) : bool :=
  match a with Some s => negb (String.eqb s EmptyString) | None => false end.

(** [obj.id && obj.id.includes(tag)] *)
Definition id_includes (obj : jline) (tag : string) : bool :=
  match j_id obj with
  | Some id => negb (String.eqb id EmptyString) && includes id tag
  | None => false
  end.

(** [parentId && map.has(parentId)], with the reference found. *)
Definition lookup_parent (m : gmap string nat) (obj : jline) : option nat :=
  if nonempty (j_parentId obj) then j_parentId obj ≫= (m !!.) else None.

Definition push_variant (r : nat) (h : hobj) : hobj :=
  {| h_line := h_line h; h_variants := h_variants h ++ [r];
     h_levels := h_levels h |}.

Definition push_level (obj : jline) (h : hobj) : hobj :=
  {| h_line := h_line h; h_variants := h_variants h;
     h_levels := h_levels h ++ [obj] |}.

(** Lines 64-100: the body of the per-line [try] for a line that parsed. *)
Definition add_line (st : bstate) (obj : jline) : bstate :=
  let r := length (heap st) in
  let fresh := {| h_line := obj; h_variants := []; h_levels := [] |} in
  if id_includes obj "Product" && negb (nonempty (j_sku obj)) then
    {| heap := heap st ++ [fresh];
       productsMap := from_option (fun id => <[id := r]> (productsMap st))
                                  (productsMap st) (j_id obj);
       variantsMap := variantsMap st;
       inventoryItemsMap := inventoryItemsMap st;
       products := products st ++ [r] |}
  else if id_includes obj "ProductVariant" then
    let heap1 :=
      match lookup_parent (productsMap st) obj with
      | Some p => alter (push_variant r) p (heap st)
      | None => heap st
      end in
    {| heap := heap1 ++ [fresh];
       productsMap := productsMap st;
       variantsMap := from_option (fun id => <[id := r]> (variantsMap st))
                                  (variantsMap st) (j_id obj);
       inventoryItemsMap :=
         from_option (fun item => <[item := r]> (inventoryItemsMap st))
                     (inventoryItemsMap st) (j_inventoryItem obj);
       products := products st |}
  else if id_includes obj "InventoryLevel"
          || (bool_decide (is_Some (j_location obj))
              && bool_decide (is_Some (j_quantities obj))) then
    let owner :=
      match lookup_parent (inventoryItemsMap st) obj with
      | Some v => Some v
      | None =>
          match lookup_parent (variantsMap st) obj with
          | Some v =>
              match heap st !! v ≫= (fun h => j_inventoryItem (h_line h)) with
              | Some _ => Some v
              | None => None
              end
          | None => None
          end
      end in
    match owner with
    | Some v =>
        {| heap := alter (push_level obj) v (heap st);
           productsMap := productsMap st; variantsMap := variantsMap st;
           inventoryItemsMap := inventoryItemsMap st;
           products := products st |}
    | None => st
    end
  else st.

(** A line of the result file after [split] and [filter], given by what
    [JSON.parse(line)] makes of it; [None] when the body of the [try] of
    line 61 throws. *)
Abbreviation line := (option jline).

(** One iteration of [lines.forEach] (lines 60-104): the [try] is inside the
    callback, so a line that throws leaves the state as it was. *)
Definition step (st : bstate) (l : line) : bstate :=
  match l with
  | Some obj => add_line st obj
  | None => st
  end.

Definition build (lines : list line) : bstate :=
  fold_left step lines empty_state.

(** One row of the exported sheet. *)
Record exportRow : Type :=
  { Product_Title : option string;
    SKU : string;
    Option1_Value : string;
    Option2_Value : string;
    Option3_Value : string;
    Inventory_Location : string;
    Quantity_Available : jsval }.

(** [error.message] of reading a field of a missing [location] or
    [quantities]. *)
Definition TypeError_level : string :=
  "Cannot read properties of undefined".

(** [locationId && locationId !== "ALL_LOCATIONS"] *)
Definition filter_active (locationId : option string) : bool :=
  nonempty locationId && negb (bool_decide (locationId = Some "ALL_LOCATIONS")).

(** [inventoryLevels.filter(level => level.location.id === locationId)] *)
Fixpoint filter_levels (locationId : option string) (levels : list jline)
  : completion (list jline) :=
  match levels with
  | [] => Normal []
  | level :: rest =>
      match j_location level with
      | None => Throw TypeError_level
      | Some loc =>
          match filter_levels locationId rest with
          | Normal kept =>
              Normal (if bool_decide (lo_id loc = locationId)
                       then level :: kept else kept)
          | other => other
          end
      end
  end.

Definition base_row (product variant : jline) (loc : string) (qty : jsval)
  : exportRow :=
  {| Product_Title := j_title product;
     SKU := default EmptyString (or_else (j_sku variant) None);
     Option1_Value := nth 0 (j_selectedOptions variant) EmptyString;
     Option2_Value := nth 1 (j_selectedOptions variant) EmptyString;
     Option3_Value := nth 2 (j_selectedOptions variant) EmptyString;
     Inventory_Location := loc;
     Quantity_Available := qty |}.

(** Lines 147-155: the row of one level. *)
Definition level_row (product variant level : jline) : completion exportRow :=
  match j_quantities level with
  | None => Throw TypeError_level
  | Some quantities =>
      Normal (base_row product variant
                 (default "Unknown" (or_else (j_location level ≫= lo_name) None))
                 (JNum (default 0 (head quantities ≫= id))))
  end.

Fixpoint level_rows (product variant : jline) (levels : list jline)
  : completion (list exportRow) :=
  match levels with
  | [] => Normal []
  | level :: rest =>
      match level_row product variant level with
      | Normal r =>
          match level_rows product variant rest with
          | Normal rs => Normal (r :: rs)
          | other => other
          end
      | Throw e => Throw e
      end
  end.

(** [inventoryItem?.inventoryLevels || []] *)
Definition inventoryLevels (v : hobj) : list jline :=
  match j_inventoryItem (h_line v) with
  | Some _ => h_levels v
  | None => []
  end.

(** Lines 112-158: the rows one variant contributes. *)
Definition variant_rows (locationId : option string) (product : jline)
    (v : hobj) : completion (list exportRow) :=
  let filtered :=
    if filter_active locationId
    then filter_levels locationId (inventoryLevels v)
    else Normal (inventoryLevels v) in
  match filtered with
  | Normal [] =>
      if negb (filter_active locationId)
      then Normal [base_row product (h_line v) "N/A" (JNum 0)]
      else Normal []
  | Normal filteredInventory =>
      level_rows product (h_line v) filteredInventory
  | Throw e => Throw e
  end.

(** [rows] after running [f] over [xs] in order, stopping at a throw. *)
Fixpoint collect {A} (f : A -> completion (list exportRow)) (xs : list A)
  : completion (list exportRow) :=
  match xs with
  | [] => Normal []
  | x :: rest =>
      match f x with
      | Normal rs =>
          match collect f rest with
          | Normal rs' => Normal (rs ++ rs')
          | other => other
          end
      | other => other
      end
  end.

(** The variant objects a product's [variants] array points at. *)
Definition variants_of (st : bstate) (p : hobj) : list hobj :=
  omap (fun r => heap st !! r) (h_variants p).

(** Lines 106-159. *)
Definition project (locationId : option string) (st : bstate)
  : completion (list exportRow) :=
  collect
    (fun p => collect (variant_rows locationId (h_line p)) (variants_of st p))
    (omap (fun r => heap st !! r) (products st)).

Definition no_data : exportRow :=
  {| Product_Title := Some "No data found"; SKU := EmptyString;
     Option1_Value := EmptyString; Option2_Value := EmptyString;
     Option3_Value := EmptyString; Inventory_Location := EmptyString;
     Quantity_Available := JStr EmptyString |}.

Inductive exported : Type :=
| ExportCompleted (rows : list exportRow)
| ExportFailed (error : string).

(** Lines 52-178 once the file was fetched: build, project, and the
    [No data found] row when nothing was projected.  The outer [catch]
    turns a throw of the projection into a failure. *)
Definition rows_of_file (locationId : option string) (lines : list line)
  : exported :=
  match project locationId (build lines) with
  | Normal [] => ExportCompleted [no_data]
  | Normal rows => ExportCompleted rows
  | _ => ExportFailed "Failed to parse bulk data"
  end.

End ExportRoute.

(** ** Vocabulary for the statements about the row validator *)
Module ValidatorViews.
Import JS Remote ImportRoute.

(** The rows the loop passes over without an outcome (line 211). *)
Definition ignored (r : row) : bool :=
  negb (truthy (get r "SKU")) || strict_eq (get r "SKU") (JStr "SKU").

Definition sku_of (r : row) : string := trim (ToString (get r "SKU")).
Definition skuKey_of (r : row) : string := toLowerCase (sku_of r).

Definition duplicate_row (sku : string) : outcome :=
  Rejected
    ("Skipped SKU " +:+ sku
       +:+ ": You have identical row having same SKU and location")
    "You have identical row having same SKU and location".

Definition invalid_quantity (sku : string) : outcome :=
  Rejected ("Skipped SKU " +:+ sku +:+ ": Invalid or missing quantity value")
           "Invalid or missing quantity value".

(** How many outcomes the loop has stored so far. *)
Definition stored (st : vstate) : nat :=
  (length (st_bulkUpdates st) + length (skippedRows (st_results st))
   + length (failedRows (st_results st)))%nat.

(** What an outcome adds to [bulkUpdates], [errors], [failedRows] and
    [skippedRows]. *)
Definition accepted_of (o : outcome) : option diff :=
  match o with Accepted d => Some d | _ => None end.

Definition error_of (o : outcome) : option string :=
  match o with Rejected err _ => Some err | _ => None end.

Definition failed_of (ro : row * outcome) : option row :=
  match ro.2 with
  | Rejected _ reason => Some (<["Error Reason" := JStr reason]> ro.1)
  | _ => None
  end.

Definition skipped_of (ro : row * outcome) : option row :=
  match ro.2 with
  | Skipped reason => Some (<["Reason" := JStr reason]> ro.1)
  | _ => None
  end.

(** A row that gets as far as the duplicate check: its case-folded SKU and
    its resolved location (id and name). *)
Definition resolved (e : venv) (r : row)
  : option (string * (string * option string)) :=
  if ignored r then None
  else match parseInt (get r "Quantity Available") with
       | None => None
       | Some _ =>
           match resolveLocation e r (sku_of r) with
           | inl _ => None
           | inr target => Some (skuKey_of r, target)
           end
       end.

Definition key_of (p : string * (string * option string)) : string :=
  combinationKey p.1 p.2.2.

(** [processedCombinations] after the loop ran over [rows] from [seen]. *)
Definition seen_after (e : venv) (seen : gset string) (rows : list row)
  : gset string :=
  fold_left (fun s r => snd (classify e s r)) rows seen.

(** A decimal digit, and a text made of decimal digits only. *)
Definition is_decimal_digit (c : ascii) : bool :=
  bool_decide (is_Some (digit_val 10 c)).

Fixpoint all_digits (s : string) : bool :=
  match s with
  | EmptyString => true
  | String c r => is_decimal_digit c && all_digits r
  end.



(** The text starts with [0x] or [0X]. *)
Definition hex_prefix (s : string) : bool :=
  match s with
  | String c0 (String c1 _) =>
      Ascii.eqb c0 "0" && (Ascii.eqb c1 "x" || Ascii.eqb c1 "X")
  | _ => false
  end.

End ValidatorViews.

(** ** Vocabulary for the statements about the import run *)
Module ImportViews.
Import JS Remote ImportRoute.

(** The report a run returned, if it returned one. *)
Definition report_of (m : M results) : option results :=
  match snd m with
  | Some (Normal res) => Some res
  | _ => None
  end.

Definition is_normal {A} (c : completion A) : bool :=
  match c with Normal _ => true | Throw _ => false end.

(** The location query the mode asks for resolved. *)
Definition initial_queries_resolve (w : remote) (locationId : string) : bool :=
  if String.eqb locationId "ALL_LOCATIONS" then is_normal (r_locations w)
  else is_normal (r_location w).

(** An edge the prefetch indexes without throwing. *)
Definition edge_ok (node : variantNode) : bool :=
  match vn_sku node, vn_inventoryItem node with
  | Some sku, None => String.eqb sku EmptyString
  | _, _ => true
  end.

(** A page reply after which the prefetch asks for one more page. *)
Definition page_continues (reply : completion pageReply) : bool :=
  match reply with
  | Normal page =>
      match pr_data page with
      | Some pv => pv_hasNextPage pv && forallb edge_ok (pv_edges pv)
      | None => false
      end
  | Throw _ => false
  end.


End ImportViews.

(** ** Concrete stores, sheets and replies used in examples *)
Module Samples.
Import JS Remote ImportRoute.

(** The index [{ a1: { I1, { L1: 5 } } }]. *)
Definition index_a1 : gmap string indexEntry :=
  {[ "a1" := {| inventoryItemId := "I1"; levels := {[ "L1" := 5 ]} |} ]}.

(** Single-location mode on location [L1], named [Main]. *)
Definition env_single : venv :=
  {| locationId := "L1"; allLocations := [];
     selectedLocationName := Some "Main"; skuMap := index_a1 |}.

Definition sheet_row (sku quantity location : jsval) : row :=
  <["SKU" := sku]>
    (<["Quantity Available" := quantity]>
       (<["Inventory Location" := location]> ∅)).

(** All-locations mode on a store with the locations [c] and [b|c], and an
    index that lists the SKUs [a|b] and [a], each stocked at both. *)
Definition env_bar_names : venv :=
  {| locationId := "ALL_LOCATIONS";
     allLocations := [ {| loc_id := "L1"; loc_name := "c" |};
                       {| loc_id := "L2"; loc_name := "b|c" |} ];
     selectedLocationName := None;
     skuMap :=
       {[ "a|b" := {| inventoryItemId := "I1";
                      levels := {[ "L1" := 5; "L2" := 5 ]} |};
          "a" := {| inventoryItemId := "I2";
                    levels := {[ "L1" := 5; "L2" := 5 ]} |} ]} |}.

(** SKU [a|b] at location [c], then SKU [a] at location [b|c]. *)
Definition rows_bar_names : list row :=
  [ sheet_row (JStr "a|b") (JNum 7) (JStr "c");
    sheet_row (JStr "a") (JNum 8) (JStr "b|c") ].

(** A repeated header line, as a sheet with two header rows produces it. *)
Definition header_row : row :=
  sheet_row (JStr "SKU") (JStr "Quantity Available") (JStr "Inventory Location").

Definition variant_edge (sku item loc : string) (qty : Z) : variantNode :=
  {| vn_sku := Some sku;
     vn_inventoryItem :=
       Some {| ii_id := item;
               ii_inventoryLevels :=
                 [ {| ln_location_id := loc;
                      ln_quantities :=
                        [ {| q_name := "available"; q_quantity := qty |} ] |} ] |} |}.

(** A first page that announces a second one. *)
Definition page_a1_more : pageReply :=
  {| pr_errors := [];
     pr_data := Some {| pv_edges := [variant_edge "A1" "I1" "L1" 5];
                        pv_hasNextPage := true;
                        pv_endCursor := Some "c1" |} |}.

(** The only page of a one-page listing. *)
Definition page_a1_last : pageReply :=
  {| pr_errors := [];
     pr_data := Some {| pv_edges := [variant_edge "A1" "I1" "L1" 5];
                        pv_hasNextPage := false;
                        pv_endCursor := None |} |}.

(** A reply that carries GraphQL errors and no data. *)
Definition page_failed : pageReply :=
  {| pr_errors := ["Throttled"]; pr_data := None |}.

Definition staged_ok : option stagedData :=
  Some {| sd_stagedUploadsCreate :=
            Some {| sc_stagedTargets :=
                      [ {| tg_url := "https://upload";
                           tg_parameters := [("key", "tmp/updates.jsonl")] |} ];
                    sc_userErrors := [] |};
          sd_userErrors := [] |}.

Definition upload_ok : uploadResponse := {| ok := true; statusText := "OK" |}.

Definition bulk_ok : option bulkOperationRunMutation :=
  Some {| bm_userErrors := []; bm_bulkOperation_id := Some "op1" |}.

(** Replies of a run whose second page fetch answers without data. *)
Definition remote_partial : remote :=
  {| r_locations := Normal None;
     r_location := Normal (Some "Main");
     r_pages := [Normal page_a1_more; Normal page_failed];
     r_staged := Normal staged_ok;
     r_upload := Normal upload_ok;
     r_bulk := Normal bulk_ok |}.

(** Replies of a run whose second page fetch rejects. *)
Definition remote_page_throws : remote :=
  {| r_locations := Normal None;
     r_location := Normal (Some "Main");
     r_pages := [Normal page_a1_more; Throw "fetch failed"];
     r_staged := Normal staged_ok;
     r_upload := Normal upload_ok;
     r_bulk := Normal bulk_ok |}.

(** Replies of a run whose upload rejects (a network error). *)
Definition remote_upload_throws : remote :=
  {| r_locations := Normal None;
     r_location := Normal (Some "Main");
     r_pages := [Normal page_a1_last];
     r_staged := Normal staged_ok;
     r_upload := Throw "fetch failed";
     r_bulk := Normal bulk_ok |}.

(** Replies of a run whose upload is answered with a non-OK status. *)
Definition remote_upload_refused : remote :=
  {| r_locations := Normal None;
     r_location := Normal (Some "Main");
     r_pages := [Normal page_a1_last];
     r_staged := Normal staged_ok;
     r_upload := Normal {| ok := false; statusText := "Forbidden" |};
     r_bulk := Normal bulk_ok |}.

(** A completed write job whose result file has a line that does not parse
    between a unit that succeeded and two more units. *)
Definition poll_malformed : pollRemote :=
  {| p_node := Normal (Some {| bo_status := "COMPLETED";
                               bo_objectCount := JStr "3";
                               bo_url := Some "https://result" |});
     p_file := Normal [ Some []; None;
                        Some ["The quantity can't be negative."]; Some [] ] |}.

(** The same job and file without the line that does not parse. *)
Definition poll_clean : pollRemote :=
  {| p_node := Normal (Some {| bo_status := "COMPLETED";
                               bo_objectCount := JStr "3";
                               bo_url := Some "https://result" |});
     p_file := Normal [ Some [];
                        Some ["The quantity can't be negative."]; Some [] ] |}.

Definition row_a1_9 : row := sheet_row (JStr "A1") (JNum 9) JNull.
Definition row_b2_3 : row := sheet_row (JStr "B2") (JNum 3) JNull.
Definition row_q_bad : row := sheet_row (JStr "Q7") (JStr "many") JNull.

End Samples.

(** ** Vocabulary and concrete inputs for the export route *)
Module ExportViews.
Import JS Remote ExportRoute.

(** A level line as the bulk query selects it: with [location] and
    [quantities]. *)
Definition level_ok (level : jline) : bool :=
  bool_decide (is_Some (j_location level))
  && bool_decide (is_Some (j_quantities level)).

(** [level.location.id === locationId] for a level that has a location. *)
Definition at_location (locationId : option string) (level : jline) : bool :=
  bool_decide (j_location level ≫= lo_id = locationId).

(** The row lines 147-155 push for a level that has [quantities]. *)
Definition row_of_level (product variant level : jline) : exportRow :=
  base_row product variant
    (default "Unknown" (or_else (j_location level ≫= lo_name) None))
    (JNum (default 0 (head (default [] (j_quantities level)) ≫= id))).

(** The levels of a variant that the location filter lets through. *)
Definition surviving (locationId : option string) (v : hobj) : list jline :=
  if filter_active locationId
  then List.filter (at_location locationId) (inventoryLevels v)
  else inventoryLevels v.

(** The row of a variant without levels when no filter is active. *)
Definition placeholder_row (product variant : jline) : exportRow :=
  base_row product variant "N/A" (JNum 0).

(** The projection rule in the words of the specification: one row per
    level that survives the filter; for a variant none of whose levels
    survive, one placeholder row when no filter is active and no row when
    one is. *)
Definition expected_rows (locationId : option string) (product : jline)
    (v : hobj) : list exportRow :=
  match surviving locationId v with
  | [] => if filter_active locationId then []
          else [placeholder_row product (h_line v)]
  | kept => map (row_of_level product (h_line v)) kept
  end.

(** The product objects of the tree, in file order. *)
Definition products_of (st : bstate) : list hobj :=
  omap (fun r => heap st !! r) (products st).

(** The rows of the rule for a whole tree: product by product, variant by
    variant. *)
Definition expected_projection (locationId : option string) (st : bstate)
  : list exportRow :=
  concat (map (fun p => concat (map (expected_rows locationId (h_line p))
                                    (variants_of st p)))
              (products_of st)).

(** Every level attached to a variant of the tree has [location] and
    [quantities]. *)
Definition tree_ok (st : bstate) : bool :=
  forallb (fun p => forallb (fun v => forallb level_ok (inventoryLevels v))
                            (variants_of st p))
          (products_of st).

(** The calls a pre-emptive or retry cancellation adds to the trace. *)
Definition cancel_calls (id : option string) : list call :=
  match or_else id None with
  | Some i => [MCancel i]
  | None => []
  end.

Definition precancel_calls (currentOp : option currentBulkOperation)
  : list call :=
  match currentOp with
  | Some op =>
      if negb (String.eqb (co_status op) "COMPLETED")
      then [MCancel (co_id op)] else []
  | None => []
  end.

Definition mentions_in_progress (r : option bulkOperationRunQuery) : bool :=
  existsb (fun message => includes message "in progress") (userErrors_of r).

Definition product_line (id title : string) : jline :=
  {| j_id := Some id; j_sku := None; j_parentId := None;
     j_title := Some title; j_selectedOptions := [];
     j_inventoryItem := None; j_location := None; j_quantities := None |}.

Definition variant_line (id sku parent item : string) : jline :=
  {| j_id := Some id; j_sku := Some sku; j_parentId := Some parent;
     j_title := None; j_selectedOptions := ["Red"];
     j_inventoryItem := Some item; j_location := None;
     j_quantities := None |}.

Definition level_line (id parent loc name : string) (qty : Z) : jline :=
  {| j_id := Some id; j_sku := None; j_parentId := Some parent;
     j_title := None; j_selectedOptions := [];
     j_inventoryItem := None;
     j_location := Some {| lo_id := Some loc; lo_name := Some name |};
     j_quantities := Some [Some qty] |}.

(** A result file with one product, one variant and its two levels, and a
    line that does not parse in the middle. *)
Definition file_shirt : list line :=
  [ Some (product_line "gid://shopify/Product/1" "Shirt");
    Some (variant_line "gid://shopify/ProductVariant/11" "SH-1"
            "gid://shopify/Product/1" "gid://shopify/InventoryItem/21");
    None;
    Some (level_line "gid://shopify/InventoryLevel/31?inventory_item_id=21"
            "gid://shopify/ProductVariant/11" "L1" "Main" 4);
    Some (level_line "gid://shopify/InventoryLevel/32?inventory_item_id=21"
            "gid://shopify/ProductVariant/11" "L2" "Annex" 7) ].

(** The stored variant of [file_shirt]. *)
Definition shirt_variant : hobj :=
  {| h_line := variant_line "gid://shopify/ProductVariant/11" "SH-1"
                 "gid://shopify/Product/1" "gid://shopify/InventoryItem/21";
     h_variants := [];
     h_levels :=
       [ level_line "gid://shopify/InventoryLevel/31?inventory_item_id=21"
           "gid://shopify/ProductVariant/11" "L1" "Main" 4;
         level_line "gid://shopify/InventoryLevel/32?inventory_item_id=21"
           "gid://shopify/ProductVariant/11" "L2" "Annex" 7 ] |}.

Definition in_progress : option bulkOperationRunQuery :=
  Some {| rq_userErrors :=
            ["A bulk query operation for this app and shop is already in progress: gid://shopify/BulkOperation/1."];
          rq_bulkOperation_id := None |}.

Definition run_created : option bulkOperationRunQuery :=
  Some {| rq_userErrors := [];
          rq_bulkOperation_id := Some "gid://shopify/BulkOperation/2" |}.

(** The first submission is refused as in progress, and the query for the
    current operation that follows finds none. *)
Definition remote_no_current : remote :=
  {| x_current := Normal None; x_cancel := Normal tt;
     x_run := Normal in_progress;
     x_retry_current := Normal None; x_retry_cancel := Normal tt;
     x_retry_run := Normal run_created |}.

(** The first submission and the retry are both refused as in progress. *)
Definition remote_still_busy : remote :=
  {| x_current := Normal (Some {| co_id := "gid://shopify/BulkOperation/1";
                                  co_status := "RUNNING" |});
     x_cancel := Normal tt;
     x_run := Normal in_progress;
     x_retry_current := Normal (Some "gid://shopify/BulkOperation/1");
     x_retry_cancel := Normal tt;
     x_retry_run := Normal in_progress |}.

End ExportViews.

(** ** Vocabulary for further statements about the import route *)
Module ImportMoreViews.
Import JS Remote ImportRoute ValidatorViews ImportViews.

(** The units of a result file that come before the first line that does
    not parse. *)
Fixpoint units_before_malformed (lines : list resultLine)
  : list (list string) :=
  match lines with
  | Some userErrors :: rest => userErrors :: units_before_malformed rest
  | _ => []
  end.

(** The key under which the prefetch stores an edge, if it stores it. *)
Definition edge_key (node : variantNode) : option string :=
  match vn_sku node with
  | Some sku => if String.eqb sku EmptyString then None
                else Some (toLowerCase sku)
  | None => None
  end.

(** A level that reports an [available] quantity. *)
Definition available (lvl : levelNode) : option Z :=
  q_quantity <$> List.find (fun q => String.eqb (q_name q) "available")
                           (ln_quantities lvl).

(** What one inventory level adds to the [levels] map of its variant. *)
Definition level_step (levels : gmap string Z) (lvl : levelNode)
  : gmap string Z :=
  match available lvl with
  | Some q => <[ln_location_id lvl := q]> levels
  | None => levels
  end.

(** The label a row carries in its [Inventory Location] cell, trimmed. *)
Definition label_of (r : row) : string :=
  if truthy (get r "Inventory Location")
  then trim (ToString (get r "Inventory Location")) else EmptyString.

(** All-locations mode on a store with two locations whose names differ
    only in case. *)
Definition env_two_mains : venv :=
  {| locationId := "ALL_LOCATIONS";
     allLocations := [ {| loc_id := "L1"; loc_name := "Main" |};
                       {| loc_id := "L2"; loc_name := "MAIN" |} ];
     selectedLocationName := None;
     skuMap := Samples.index_a1 |}.

(** A completed write job whose result file cannot be fetched. *)
Definition completed_op : bulkOperation :=
  {| bo_status := "COMPLETED"; bo_objectCount := JStr "3";
     bo_url := Some "https://result" |}.

Definition poll_unreachable_file : pollRemote :=
  {| p_node := Normal (Some completed_op); p_file := Throw "fetch failed" |}.

End ImportMoreViews.

(** ** Vocabulary for further statements about the export route *)
Module ExportMoreViews.
Import JS Remote ExportRoute ExportViews.

Definition is_submission (c : call) : bool :=
  match c with MRunQuery => true | _ => false end.

Definition is_cancel (c : call) : bool :=
  match c with MCancel _ => true | _ => false end.

(** The same replies with other answers to the two cancellations. *)
Definition with_cancel_replies (w : remote) (c1 c2 : completion unit) : remote :=
  {| x_current := x_current w; x_cancel := c1; x_run := x_run w;
     x_retry_current := x_retry_current w; x_retry_cancel := c2;
     x_retry_run := x_retry_run w |}.

(** The lines the loader stores as products (line 64) and as variants
    (line 68). *)
Definition is_product_line (obj : jline) : bool :=
  id_includes obj "Product" && negb (nonempty (j_sku obj)).

Definition is_variant_line (obj : jline) : bool :=
  negb (is_product_line obj) && id_includes obj "ProductVariant".

(** No object of the heap has the reference [r] in its [variants] array. *)
Definition unattached (r : nat) (st : bstate) : Prop :=
  forall h, h ∈ heap st -> r ∉ h_variants h.

(** Every reference held in a [variants] array points into the heap. *)
Definition variants_in_heap (st : bstate) : Prop :=
  forall h x, h ∈ heap st -> x ∈ h_variants h -> (x < length (heap st))%nat.

(** All variant objects attached to a product of the tree, in row order. *)
Definition attached_variants (st : bstate) : list hobj :=
  concat (map (variants_of st) (products_of st)).

(** A submission that is accepted at once. *)
Definition remote_idle : remote :=
  {| x_current := Normal None; x_cancel := Normal tt;
     x_run := Normal run_created;
     x_retry_current := Throw "unused"; x_retry_cancel := Throw "unused";
     x_retry_run := Throw "unused" |}.

(** A result file in which the variant comes before its product. *)
Definition file_variant_first : list line :=
  [ Some (variant_line "gid://shopify/ProductVariant/11" "SH-1"
            "gid://shopify/Product/1" "gid://shopify/InventoryItem/21");
    Some (product_line "gid://shopify/Product/1" "Shirt");
    Some (level_line "gid://shopify/InventoryLevel/31?inventory_item_id=21"
            "gid://shopify/ProductVariant/11" "L1" "Main" 4) ].

End ExportMoreViews.

(** ** The component [ImportProductData] (lines 411-723) *)
Module ImportClient.
Import JS Remote ImportRoute.

(** What [pollFetcher.data] holds of the object the loader returned, as far
    as the component reads it (lines 35, 64, 67 and 69). *)
Record pollResponse : Type :=
  { pr_status : string;
    pr_bulkResults : option bulkResults;
    pr_operationId : string }.

Definition response (operationId : string) (d : pollData) : pollResponse :=
  match d with
  | PollNone =>
      {| pr_status := "NONE"; pr_bulkResults := None;
         pr_operationId := operationId |}
  | PollCompleted res =>
      {| pr_status := "COMPLETED"; pr_bulkResults := Some res;
         pr_operationId := operationId |}
  | PollRunning _ =>
      {| pr_status := "RUNNING"; pr_bulkResults := None;
         pr_operationId := operationId |}
  | PollOther status =>
      {| pr_status := status; pr_bulkResults := None;
         pr_operationId := operationId |}
  end.

(** What one run of the polling effect (lines 519-551) does. *)
Inductive pollEffect : Type :=
| KeepPolling (operationId : string)  (* pollFetcher.load after 2000 ms *)
| Finished (merged : results)         (* setFinalResults(merged), toast *)
| BackgroundFailed                    (* toast, setIsProgressVisible(false) *)
| NoEffect.

Definition on_poll (validatedResults : option results)
    (data : option pollResponse) : pollEffect :=
  match validatedResults with
  | Some validated =>
      match or_else (bulkOperationId validated) None with
      | Some opId =>
          match data with
          | Some d =>
              if negb (truthy (JStr (pr_operationId d))) then NoEffect
              else if negb (String.eqb (pr_operationId d) opId) then NoEffect
              else if String.eqb (pr_status d) "RUNNING"
                      || String.eqb (pr_status d) "CREATED"
              then KeepPolling opId
              else if String.eqb (pr_status d) "COMPLETED"
              then Finished (merge validated (pr_bulkResults d))
              else if String.eqb (pr_status d) "FAILED" then BackgroundFailed
              else NoEffect
          | None => NoEffect
          end
      | None => NoEffect
      end
  | None => NoEffect
  end.

(** What the effect on the action's answer (lines 500-516) does once
    [fetcher.data.success] holds and the fetcher is idle. *)
Inductive actionEffect : Type :=
| StartPolling (operationId : string)
| Completed (finalResults : results) (toast : string).

Definition on_action (res : results) : actionEffect :=
  match or_else (bulkOperationId res) None with
  | Some opId => StartPolling opId
  | None =>
      Completed res
        ("Import complete. " +:+ ToString (JNum (updated res)) +:+ " updated.")
  end.

(** Line 470: the rows of the sheet the component submits. *)
Definition submits (rowData : row) : bool :=
  truthy (get rowData "SKU")
  && negb (String.eqb (trim (ToString (get rowData "SKU"))) EmptyString).

(** *** Paging of the failed and skipped rows (lines 656-678, 693-715) *)

Definition failedRowsPerPage : nat := 10.

(** [xs.slice(start, end)] for [0 <= start]. *)
Definition slice {A} (start end_ : nat) (xs : list A) : list A :=
  take (end_ - start) (drop start xs).

(** The rows of the table on page [page]. *)
Definition page_rows {A} (page : nat) (xs : list A) : list A :=
  slice ((page - 1) * failedRowsPerPage) (page * failedRowsPerPage) xs.

(** [Math.ceil(n / failedRowsPerPage)] *)
Definition page_count (n : nat) : nat :=
  (n + (failedRowsPerPage - 1)) / failedRowsPerPage.

Definition hasPrevious (page : nat) : bool := (1 <? page)%nat.

Definition hasNext (page n : nat) : bool := (page <? page_count n)%nat.

(** The two numbers of the label before [of]. *)
Definition label_first (page : nat) : nat := (page - 1) * failedRowsPerPage + 1.

Definition label_last (page n : nat) : nat := Nat.min (page * failedRowsPerPage) n.

(** *** The progress bar (lines 554-567) *)

(** While the action runs. *)
Definition analysis_tick (prev : Z) : Z := if prev <? 60 then prev + 5 else prev.

(** While the bulk job runs. *)
Definition background_tick (prev : Z) : Z := if prev <? 90 then prev + 1 else prev.

End ImportClient.

(** ** Polling the read job: the export [loader] (lines 9-184) and the
    component [ExportProductData] (lines 333-429) *)
Module ExportClient.
Import JS Remote ExportRoute.

(** The object the loader returns to [pollFetcher.data]. *)
Record pollResponse : Type :=
  { xr_success : bool;
    xr_status : string;
    xr_rows : option (list exportRow);
    xr_error : option string;
    xr_progress : option jsval;
    xr_operationId : string }.

Definition failed (status : string) (error : option string)
    (operationId : string) : pollResponse :=
  {| xr_success := false; xr_status := status; xr_rows := None;
     xr_error := error; xr_progress := None; xr_operationId := operationId |}.

Definition completed (rows : list exportRow) (operationId : string)
  : pollResponse :=
  {| xr_success := true; xr_status := "COMPLETED"; xr_rows := Some rows;
     xr_error := None; xr_progress := None; xr_operationId := operationId |}.

Definition running (progress : jsval) (operationId : string) : pollResponse :=
  {| xr_success := true; xr_status := "RUNNING"; xr_rows := None;
     xr_error := None; xr_progress := Some progress;
     xr_operationId := operationId |}.

Record pollRemote : Type :=
  { x_node : completion (option ImportRoute.bulkOperation);
    x_file : completion (list line) }.

(** Lines 16-184: the branch taken when [checkStatus] is ["true"] and an
    [operationId] is given.  The [try] of line 46 encloses the fetch, the
    parse and the projection. *)
Definition loader (w : pollRemote) (locationId : option string)
    (operationId : string) : M pollResponse :=
  let* node := request (QNode operationId) (x_node w) in
  match node with
  | None => ret (failed "NONE" None operationId)
  | Some op =>
      if String.eqb (ImportRoute.bo_status op) "COMPLETED" then
        match or_else (ImportRoute.bo_url op) None with
        | None =>
            ret (failed "FAILED" (Some "No URL in completed bulk operation")
                        operationId)
        | Some url =>
            try_catch
              (let* lines := request (HFetch url) (x_file w) in
               ret (match rows_of_file locationId lines with
                    | ExportCompleted rows => completed rows operationId
                    | ExportFailed error =>
                        failed "FAILED" (Some error) operationId
                    end))
              (failed "FAILED" (Some "Failed to parse bulk data") operationId)
        end
      else if String.eqb (ImportRoute.bo_status op) "RUNNING"
              || String.eqb (ImportRoute.bo_status op) "CREATED"
      then ret (running (ImportRoute.bo_objectCount op) operationId)
      else ret (failed (ImportRoute.bo_status op) None operationId)
  end.

(** [currentExport] *)
Record currentExport : Type :=
  { ce_operationId : string; ce_locationId : string }.

(** A row added to the worksheet: the keys of the first row, or the values
    of a row. *)
Inductive sheetRow : Type :=
| Keys (first : exportRow)
| Values (r : exportRow).

(** Lines 394-397. *)
Definition worksheet (rows : list exportRow) : list sheetRow :=
  match rows with
  | [] => []
  | first :: _ => Keys first :: map Values rows
  end.

(** What one run of the polling effect (lines 375-429) does. *)
Inductive pollEffect : Type :=
| KeepPolling (operationId locationId : string) (* load after 2000 ms *)
| Download (sheet : list sheetRow)   (* setCurrentExport(null), workbook *)
| ExportFailure (toast : string)     (* setCurrentExport(null), toast *)
| NoEffect.

(** [error.message] of reading [rows.length] of a response without rows. *)
Definition TypeError_rows : string :=
  "Cannot read properties of undefined (reading 'length')".

Definition on_poll (current : option currentExport)
    (data : option pollResponse) : completion pollEffect :=
  match current, data with
  | Some cur, Some d =>
      if String.eqb (xr_operationId d) (ce_operationId cur) then
        if String.eqb (xr_status d) "RUNNING"
        then Normal (KeepPolling (ce_operationId cur) (ce_locationId cur))
        else if String.eqb (xr_status d) "COMPLETED" then
          match xr_rows d with
          | Some rows => Normal (Download (worksheet rows))
          | None => Throw TypeError_rows
          end
        else if String.eqb (xr_status d) "FAILED"
                || String.eqb (xr_status d) "NONE"
        then Normal (ExportFailure
                       ("Export failed: "
                          +:+ default "Unknown error" (or_else (xr_error d) None)))
        else Normal NoEffect
      else Normal NoEffect
  | _, _ => Normal NoEffect
  end.

(** Lines 433-444: the interval callback of the progress bar. *)
Definition progress_tick (prev : Z) : Z := if prev <? 90 then prev + 5 else prev.

End ExportClient.

(** ** app/routes/webhooks.jsx and verifyWebhooks *)
Module Webhooks.
Import JS Remote.

Record webhookRequest : Type :=
  { method : string;
    hmacHeader : option string;     (* headers.get("X-Shopify-Hmac-Sha256") *)
    body : completion string }.     (* await request.text() *)

(** [{ shop, payload, topic }] of [authenticate.webhook]; the payload is
    only logged. *)
Record webhookContext : Type := { shop : string; topic : string }.

Record httpResponse : Type := { r_status : Z; r_text : string }.

(** Lines 5-7: the [loader], which answers the requests that are not handed
    to the [action] (GET and HEAD). *)
Definition loader (request : webhookRequest) : httpResponse :=
  {| r_status := 200; r_text := "Webhook endpoint is active" |}.

Section Verify.

(** [crypto.createHmac("sha256", secret).update(body, "utf8")
    .digest("base64")] *)
Variable hmac_sha256_base64 : string -> string -> string.

Definition verifyWebhook (secret : option string) (request : webhookRequest)
  : bool :=
  match or_else (hmacHeader request) None with
  | None => false
  | Some hmacHeader =>
      match or_else secret None with
      | None => false
      | Some key =>
          match body request with
          | Throw _ => false
          | Normal text =>
              let generatedHash := hmac_sha256_base64 key text in
              if negb (String.length hmacHeader =? String.length generatedHash)%nat
              then false
              else String.eqb hmacHeader generatedHash
          end
      end
  end.

Definition handled_topic (topic : string) : bool :=
  String.eqb topic "CUSTOMERS_DATA_REQUEST"
  || String.eqb topic "CUSTOMERS_REDACT"
  || String.eqb topic "SHOP_REDACT".

(** [authenticated] is what [authenticate.webhook(request)] would answer;
    it is only asked after the signature was accepted. *)
Definition action (secret : option string) (request : webhookRequest)
    (authenticated : completion webhookContext) : httpResponse :=
  if negb (String.eqb (method request) "POST")
  then {| r_status := 405; r_text := "Method not allowed" |}
  else if negb (verifyWebhook secret request)
  then {| r_status := 401; r_text := "Unauthorized" |}
  else
    match authenticated with
    | Throw _ =>
        {| r_status := 401; r_text := "Webhook HMAC validation failed" |}
    | Normal context =>
        if handled_topic (topic context)
        then {| r_status := 200; r_text := "Webhook received" |}
        else {| r_status := 400; r_text := "Unhandled webhook topic" |}
    end.

End Verify.

(** Two POST requests with the body [body]: one whose header is the digest
    of the body under the key [k] when the digest is the key followed by
    the text, and one with another header. *)
Definition signed_shop_redact : webhookRequest :=
  {| method := "POST"; hmacHeader := Some "kbody"; body := Normal "body" |}.

Definition forged_shop_redact : webhookRequest :=
  {| method := "POST"; hmacHeader := Some "forged"; body := Normal "body" |}.

End Webhooks.

(** ** Vocabulary for the statements about polling, paging and webhooks *)
Module ClientViews.
Import JS Remote ExportRoute ExportViews.

(** [e] is a [Throw]. *)
Definition throws {A} (c : completion A) : bool :=
  match c with Throw _ => true | Normal _ => false end.

Definition no_location (level : jline) : bool :=
  negb (bool_decide (is_Some (j_location level))).

Definition no_quantities (level : jline) : bool :=
  negb (bool_decide (is_Some (j_quantities level))).

(** The variants whose rows cannot be written: with a filter, a level
    without [location] or a level at the chosen location without
    [quantities]; without one, a level without [quantities]. *)
Definition unprojectable (locationId : option string) (v : hobj) : bool :=
  if filter_active locationId
  then existsb no_location (inventoryLevels v)
       || existsb no_quantities
            (List.filter (at_location locationId) (inventoryLevels v))
  else existsb no_quantities (inventoryLevels v).

(** The status of the job as the node query reports it. *)
Definition remote_status (node : completion (option ImportRoute.bulkOperation))
  : option string :=
  match node with
  | Normal (Some op) => Some (ImportRoute.bo_status op)
  | _ => None
  end.

Definition running_status (s : string) : bool :=
  String.eqb s "RUNNING" || String.eqb s "CREATED".

Definition some_op (status : string) (url : option string)
  : ImportRoute.bulkOperation :=
  {| ImportRoute.bo_status := status; ImportRoute.bo_objectCount := JNum 0;
     ImportRoute.bo_url := url |}.

(** A validated report that waits for job [opId]. *)
Definition waiting_for (opId : string) : ImportRoute.results :=
  {| ImportRoute.total := 1; ImportRoute.updated := 0;
     ImportRoute.errors := []; ImportRoute.failedRows := [];
     ImportRoute.skippedRows := [];
     ImportRoute.bulkOperationId := Some opId |}.

(** A result file whose only level, at location [L1], has no
    [quantities]. *)
Definition file_level_without_quantities : list line :=
  [ Some (product_line "gid://shopify/Product/1" "Shirt");
    Some (variant_line "gid://shopify/ProductVariant/11" "SH-1"
            "gid://shopify/Product/1" "gid://shopify/InventoryItem/21");
    Some {| j_id := Some "gid://shopify/InventoryLevel/31?inventory_item_id=21";
            j_sku := None; j_parentId := Some "gid://shopify/ProductVariant/11";
            j_title := None; j_selectedOptions := [];
            j_inventoryItem := None;
            j_location := Some {| lo_id := Some "L1"; lo_name := Some "Main" |};
            j_quantities := None |} ].

End ClientViews.

(** * Properties *)

(** ** The string primitives on sample inputs *)
Module JSFacts.
Import JS.

Example parseInt_samples :
  parseInt (JStr "5.7") = Some 5 /\ parseInt (JStr "5x") = Some 5
  /\ parseInt (JStr "  -12 units") = Some (-12)
  /\ parseInt (JStr "0x1A") = Some 26 /\ parseInt (JStr "0xZ") = None
  /\ parseInt (JStr "many") = None /\ parseInt (JStr EmptyString) = None
  /\ parseInt JUndefined = None /\ parseInt JNull = None
  /\ parseInt (JNum (-7)) = Some (-7).
Proof. vm_compute. repeat split; reflexivity. Qed.

Example string_samples :
  trim "  SKU 1 " = "SKU 1" /\ toLowerCase "Ab-12Z" = "ab-12z"
  /\ includes "gid://shopify/ProductVariant/11" "Product" = true
  /\ includes "gid://shopify/Product/1" "ProductVariant" = false
  /\ ToString (JNum (-40)) = "-40".
Proof. vm_compute. repeat split; reflexivity. Qed.

(** Numbers from 10^21 on are printed in exponent form, so [parseInt]
    reads only their first digit. *)
Example number_text_samples :
  ToString (JNum 123) = "123" /\ ToString (JNum (-40)) = "-40"
  /\ ToString (JNum 1000000000000000000000) = "1e+21"
  /\ ToString (JNum (-1500000000000000000000)) = "-1.5e+21"
  /\ parseInt (JNum 1000000000000000000000) = Some 1.
Proof. vm_compute. repeat split; reflexivity. Qed.

End JSFacts.

(** ** The monad of remote calls *)
Module RemoteFacts.
Import Remote.

Lemma bind_Normal {A B} tr (a : A) (f : A -> M B) :
  bind (tr, Some (Normal a)) f = (tr ++ fst (f a), snd (f a)).
Proof. unfold bind. destruct (f a). reflexivity. Qed.

Lemma bind_Throw {A B} tr err (f : A -> M B) :
  bind (tr, Some (Throw err)) f = (tr, Some (Throw err)).
Proof. reflexivity. Qed.

Lemma bind_ret {A B} (a : A) (f : A -> M B) : bind (ret a) f = f a.
Proof. unfold bind, ret. destruct (f a). reflexivity. Qed.

End RemoteFacts.

(** ** The row validator *)
Module ValidatorFacts.
Import JS Remote ImportRoute ValidatorViews Samples.

Lemma classify_ignored e seen r :
  ignored r = true -> classify e seen r = (Ignored, seen).
Proof. unfold classify, ignored. intros ->. reflexivity. Qed.

Lemma classify_invalid e seen r :
  ignored r = false -> parseInt (get r "Quantity Available") = None ->
  classify e seen r = (invalid_quantity (sku_of r), seen).
Proof.
  unfold classify, ignored. intros -> Hq. cbn zeta. rewrite Hq. reflexivity.
Qed.

Lemma classify_unresolved e seen r q o :
  ignored r = false -> parseInt (get r "Quantity Available") = Some q ->
  resolveLocation e r (sku_of r) = inl o ->
  classify e seen r = (o, seen).
Proof.
  unfold classify, ignored, sku_of. intros -> Hq Hl. cbn zeta.
  rewrite Hq, Hl. reflexivity.
Qed.

Lemma classify_resolved e seen r q tid tname :
  ignored r = false -> parseInt (get r "Quantity Available") = Some q ->
  resolveLocation e r (sku_of r) = inr (tid, tname) ->
  classify e seen r =
    if bool_decide (combinationKey (skuKey_of r) tname ∈ seen)
    then (duplicate_row (sku_of r), seen)
    else (lookupAndDiff e (sku_of r) (skuKey_of r) q tid,
          {[ combinationKey (skuKey_of r) tname ]} ∪ seen).
Proof.
  unfold classify, ignored, skuKey_of, sku_of. intros -> Hq Hl. cbn zeta.
  rewrite Hq, Hl. reflexivity.
Qed.

(** The four ways a row can relate to the checks before the index lookup. *)
Lemma classify_cases e r :
  ignored r = true
  \/ (ignored r = false /\ parseInt (get r "Quantity Available") = None)
  \/ (exists q o, ignored r = false
        /\ parseInt (get r "Quantity Available") = Some q
        /\ resolveLocation e r (sku_of r) = inl o)
  \/ (exists q tid tname, ignored r = false
        /\ parseInt (get r "Quantity Available") = Some q
        /\ resolveLocation e r (sku_of r) = inr (tid, tname)).
Proof.
  destruct (ignored r) eqn:Hi; [now left | right].
  destruct (parseInt (get r "Quantity Available")) as [q|] eqn:Hq;
    [right | now left].
  destruct (resolveLocation e r (sku_of r)) as [o | [tid tname]] eqn:Hl.
  - left. eauto.
  - right. exists q, tid, tname. eauto.
Qed.

Lemma resolved_Some e r p :
  resolved e r = Some p ->
  exists q, ignored r = false
    /\ parseInt (get r "Quantity Available") = Some q
    /\ resolveLocation e r (sku_of r) = inr p.2
    /\ p.1 = skuKey_of r.
Proof.
  unfold resolved. destruct (ignored r); [discriminate |].
  destruct (parseInt _) as [q|]; [| discriminate].
  destruct (resolveLocation _ _ _) as [o | t]; [discriminate |].
  intros [= <-]. exists q. auto.
Qed.

Lemma classify_seen_mono e seen r : seen ⊆ snd (classify e seen r).
Proof.
  destruct (classify_cases e r)
    as [Hi | [[Hi Hq] | [(q & o & Hi & Hq & Hl) | (q & tid & tname & Hi & Hq & Hl)]]].
  - rewrite classify_ignored by done. done.
  - rewrite classify_invalid by done. done.
  - erewrite classify_unresolved by eauto. done.
  - erewrite classify_resolved by eauto. case_bool_decide; simpl; set_solver.
Qed.

Lemma classify_resolved_seen e seen r p :
  resolved e r = Some p -> key_of p ∈ snd (classify e seen r).
Proof.
  intros (q & Hi & Hq & Hl & Hk)%resolved_Some.
  destruct p as [k [tid tname]]. simpl in *. subst k.
  erewrite classify_resolved by eauto. unfold key_of. simpl.
  case_bool_decide; simpl; set_solver.
Qed.

Lemma seen_after_mono e rows : forall seen, seen ⊆ seen_after e seen rows.
Proof.
  induction rows as [| r rows IH]; intros seen; simpl; [done |].
  etrans; [apply (classify_seen_mono e seen r) | apply IH].
Qed.

Lemma outcomes_app e l1 : forall seen l2,
  outcomes e seen (l1 ++ l2) =
  outcomes e seen l1 ++ outcomes e (seen_after e seen l1) l2.
Proof.
  induction l1 as [| r l1 IH]; intros seen l2; simpl; [done |].
  destruct (classify e seen r) as [o seen'] eqn:Hc. simpl.
  rewrite IH. reflexivity.
Qed.

Lemma outcomes_length e rows : forall seen,
  length (outcomes e seen rows) = length rows.
Proof.
  induction rows as [| r rows IH]; intros seen; simpl; [done |].
  destruct (classify e seen r). simpl. by rewrite IH.
Qed.

Lemma seen_after_app e l1 l2 seen :
  seen_after e seen (l1 ++ l2) = seen_after e (seen_after e seen l1) l2.
Proof. unfold seen_after. apply fold_left_app. Qed.

(** The outcome of the row at position [length l1]. *)
Lemma outcomes_middle e seen l1 r l2 :
  outcomes e seen (l1 ++ r :: l2) !! length l1 =
  Some (fst (classify e (seen_after e seen l1) r)).
Proof.
  rewrite outcomes_app. rewrite lookup_app_r by (rewrite outcomes_length; lia).
  rewrite outcomes_length, Nat.sub_diag. simpl.
  destruct (classify e _ r). reflexivity.
Qed.

(** *** [parseInt] on a decimal numeral followed by other text *)

Lemma digit_not_space_nor_sign c :
  is_decimal_digit c = true ->
  is_space c = false /\ Ascii.eqb c "-" = false /\ Ascii.eqb c "+" = false
  /\ Ascii.eqb c "x" = false /\ Ascii.eqb c "X" = false.
Proof.
  destruct c as [[] [] [] [] [] [] [] []]; vm_compute; intros H;
    first [discriminate H | repeat split].
Qed.

Lemma read_digits_stop R c rest : forall ds acc,
  digit_val R c = None ->
  read_digits R (ds +:+ String c rest) acc = read_digits R ds acc.
Proof.
  induction ds as [| d ds IH]; intros acc Hc; simpl.
  - rewrite Hc. reflexivity.
  - destruct (digit_val R d); [apply IH; exact Hc | reflexivity].
Qed.

Lemma hex_prefix_digits ds :
  all_digits ds = true -> hex_prefix ds = false.
Proof.
  destruct ds as [| c0 [| c1 r]]; simpl; try reflexivity.
  intros [_ [H1 _]%andb_prop]%andb_prop.
  destruct (digit_not_space_nor_sign c1 H1) as (_ & _ & _ & -> & ->).
  apply andb_false_r.
Qed.

(** With the sign and radix steps out of the way, [parseInt] is the digit
    reader in radix 10. *)
Lemma parseInt_string_plain c s :
  is_decimal_digit c = true -> hex_prefix (String c s) = false ->
  parseInt_string (String c s) =
  match read_digits 10 (String c s) None with
  | Some v => Some (1 * v)
  | None => None
  end.
Proof.
  intros Hc Hx. destruct (digit_not_space_nor_sign c Hc) as (Hs & Hm & Hp & _).
  unfold parseInt_string. cbn [trimStart]. rewrite Hs, Hm, Hp.
  unfold hex_prefix in Hx. destruct s as [| c1 r]; [reflexivity |].
  rewrite Hx. reflexivity.
Qed.

Lemma parseInt_leading_decimal ds c rest :
  ds <> EmptyString -> all_digits ds = true -> is_decimal_digit c = false ->
  hex_prefix (ds +:+ String c rest) = false ->
  parseInt_string (ds +:+ String c rest) = parseInt_string ds
  /\ is_Some (parseInt_string ds).
Proof.
  intros Hne Hds Hc Hx. destruct ds as [| d ds]; [done |].
  simpl in Hds. apply andb_prop in Hds as [Hd Hds].
  assert (Hcv : digit_val 10 c = None).
  { unfold is_decimal_digit in Hc. apply bool_decide_eq_false in Hc.
    destruct (digit_val 10 c); [exfalso; apply Hc; eauto | reflexivity]. }
  change (String d ds +:+ String c rest) with (String d (ds +:+ String c rest)) in *.
  rewrite (parseInt_string_plain d _ Hd Hx).
  rewrite (parseInt_string_plain d ds Hd)
    by (apply hex_prefix_digits; simpl; rewrite Hd, Hds; reflexivity).
  change (String d (ds +:+ String c rest)) with (String d ds +:+ String c rest).
  rewrite read_digits_stop by exact Hcv.
  split; [reflexivity |].
  simpl. unfold is_decimal_digit in Hd. apply bool_decide_eq_true in Hd.
  destruct Hd as [v Hv]. rewrite Hv.
  assert (Hsome : forall s acc, is_Some (read_digits 10 s (Some acc))).
  { induction s as [| x s IH]; intros acc; simpl; [eauto |].
    destruct (digit_val 10 x); [apply IH | eauto]. }
  match goal with
  | |- context [read_digits 10 ds (Some ?a)] =>
      destruct (Hsome ds a) as [w ->]
  end.
  eauto.
Qed.

(** *** [parseInt] reads back the decimal text of an integer *)







(** *** Index lookup and no-op check *)

(** C1. A row that passed the quantity check, the location resolution and
    the duplicate check is classified by the index alone: an absent SKU key
    is rejected as variant not found; a present key without a quantity at
    the target location is rejected as not stocked; a quantity equal to the
    indexed one is skipped, never accepted; any other quantity is accepted
    with the diff built from the entry, the target location and the row. *)
Theorem C1_index_lookup_outcome e seen r q tid tname :
  ignored r = false ->
  parseInt (get r "Quantity Available") = Some q ->
  resolveLocation e r (sku_of r) = inr (tid, tname) ->
  combinationKey (skuKey_of r) tname ∉ seen ->
  let o := fst (classify e seen r) in
  (skuMap e !! skuKey_of r = None ->
     o = Rejected ("Variant not found for SKU: " +:+ sku_of r)
                  "Variant not found")
  /\ (forall entry, skuMap e !! skuKey_of r = Some entry ->
        (levels entry !! tid = None ->
           o = Rejected ("Skipped SKU " +:+ sku_of r
                           +:+ ": SKU don't have this location (or not stocked)")
                        "SKU don't have this location")
        /\ (levels entry !! tid = Some q ->
             o = Skipped "Quantity already matches")
        /\ (forall current, levels entry !! tid = Some current ->
             current <> q ->
             o = Accepted {| d_inventoryItemId := inventoryItemId entry;
                             d_locationId := tid;
                             d_quantity := q |})).
Proof.
  intros Hi Hq Hl Hfresh o. subst o.
  erewrite classify_resolved by eauto.
  rewrite bool_decide_eq_false_2 by exact Hfresh. simpl.
  unfold lookupAndDiff. split.
  - intros ->. reflexivity.
  - intros entry ->. repeat split.
    + intros ->. reflexivity.
    + intros ->. rewrite Z.eqb_refl. reflexivity.
    + intros current -> Hne.
      destruct (Z.eqb_spec current q); [contradiction | reflexivity].
Qed.

Lemma C1_index_lookup_outcome_witness :
  fst (classify env_single ∅ (sheet_row (JStr "A1") (JNum 9) (JStr "main")))
  = Accepted {| d_inventoryItemId := "I1"; d_locationId := "L1";
                d_quantity := 9 |}.
Proof.
  refine (proj2 (proj2 (proj2
    (C1_index_lookup_outcome env_single ∅
       (sheet_row (JStr "A1") (JNum 9) (JStr "main")) 9 "L1" (Some "Main")
       _ _ _ _)
    {| inventoryItemId := "I1"; levels := {[ "L1" := 5 ]} |} _)) 5 _ _).
  - vm_compute. reflexivity.
  - vm_compute. reflexivity.
  - vm_compute. reflexivity.
  - apply not_elem_of_empty.
  - vm_compute. reflexivity.
  - vm_compute. reflexivity.
  - lia.
Defined.

(** *** Quantities that are not plain integers *)





(** *** White space, sign and radix prefix *)











(** *** One outcome per row *)

Lemma resolveLocation_rejects e r sku o :
  resolveLocation e r sku = inl o -> exists err reason, o = Rejected err reason.
Proof.
  unfold resolveLocation.
  repeat match goal with
         | |- context [if ?b then _ else _] => destruct b
         | |- context [match ?x with _ => _ end] => destruct x
         end; intros [= <-]; eauto.
Qed.

Lemma lookupAndDiff_not_Ignored e sku k q tid :
  lookupAndDiff e sku k q tid <> Ignored.
Proof.
  unfold lookupAndDiff.
  repeat match goal with
         | |- context [if ?b then _ else _] => destruct b
         | |- context [match ?x with _ => _ end] => destruct x
         end; discriminate.
Qed.

Lemma classify_Ignored_iff e seen r :
  fst (classify e seen r) = Ignored <-> ignored r = true.
Proof.
  split.
  - intros H.
    destruct (classify_cases e r)
      as [Hi | [[Hi Hq] | [(q & o & Hi & Hq & Hl) | (q & tid & tname & Hi & Hq & Hl)]]].
    + exact Hi.
    + rewrite classify_invalid in H by assumption. discriminate H.
    + erewrite classify_unresolved in H by eauto. simpl in H. subst o.
      apply resolveLocation_rejects in Hl as (? & ? & ?). discriminate.
    + erewrite classify_resolved in H by eauto.
      case_bool_decide; simpl in H; [discriminate H |].
      exfalso. eapply lookupAndDiff_not_Ignored; eauto.
  - intros Hi. rewrite classify_ignored by assumption. reflexivity.
Qed.

Lemma outcomes_lookup e seen rows i r :
  rows !! i = Some r ->
  outcomes e seen rows !! i
  = Some (fst (classify e (seen_after e seen (take i rows)) r)).
Proof.
  intros Hr. pose proof (lookup_lt_Some _ _ _ Hr) as Hlt.
  pose proof (outcomes_middle e seen (take i rows) r (drop (S i) rows)) as H.
  rewrite (take_drop_middle rows i r Hr) in H.
  rewrite length_take, Nat.min_l in H by lia. exact H.
Qed.

(** One iteration stores one outcome, unless it passes over the row. *)
Lemma process_row_stored e st r :
  stored (process_row e st r)
  = (stored st + (if ignored r then 0 else 1))%nat
  /\ total (st_results (process_row e st r)) = total (st_results st).
Proof.
  unfold process_row.
  destruct (classify e (st_processed st) r) as [o seen'] eqn:Hc.
  assert (Ho : o = Ignored <-> ignored r = true).
  { rewrite <- (classify_Ignored_iff e (st_processed st) r), Hc. reflexivity. }
  destruct o as [| err reason | reason | d]; unfold stored; simpl.
  - rewrite (proj1 Ho eq_refl). split; [lia | reflexivity].
  - destruct (ignored r); [destruct Ho as [_ Ho]; discriminate (Ho eq_refl) |].
    rewrite length_app. simpl. split; [lia | reflexivity].
  - destruct (ignored r); [destruct Ho as [_ Ho]; discriminate (Ho eq_refl) |].
    rewrite length_app. simpl. split; [lia | reflexivity].
  - destruct (ignored r); [destruct Ho as [_ Ho]; discriminate (Ho eq_refl) |].
    rewrite length_app. simpl. split; [lia | reflexivity].
Qed.

Lemma run_stored e rows : forall st,
  let st' := fold_left (process_row e) rows st in
  (stored st' + length (filter (fun r => ignored r = true) rows))%nat
  = (stored st + length rows)%nat
  /\ total (st_results st') = total (st_results st).
Proof.
  induction rows as [| r rows IH]; intros st; simpl; [split; [lia | reflexivity] |].
  destruct (IH (process_row e st r)) as [IH1 IH2].
  destruct (process_row_stored e st r) as [H1 H2].
  simpl in IH1, IH2. rewrite IH2, H2. split; [| reflexivity].
  rewrite filter_cons.
  destruct (decide (ignored r = true)) as [Hi | Hi].
  - rewrite Hi in H1. simpl. lia.
  - apply not_true_is_false in Hi. rewrite Hi in H1. lia.
Qed.

(** The lists of the loop state are the per-row outcomes, in row order. *)
Lemma run_lists e rows : forall st,
  let st' := fold_left (process_row e) rows st in
  let os := outcomes e (st_processed st) rows in
  st_bulkUpdates st' = st_bulkUpdates st ++ omap accepted_of os
  /\ errors (st_results st') = errors (st_results st) ++ omap error_of os
  /\ failedRows (st_results st')
     = failedRows (st_results st) ++ omap failed_of (zip rows os)
  /\ skippedRows (st_results st')
     = skippedRows (st_results st) ++ omap skipped_of (zip rows os)
  /\ st_processed st' = seen_after e (st_processed st) rows.
Proof.
  induction rows as [| r rows IH]; intros st; cbn zeta.
  - simpl. rewrite !app_nil_r. repeat split.
  - cbn [fold_left outcomes seen_after].
    specialize (IH (process_row e st r)). cbn zeta in IH.
    destruct IH as (IH1 & IH2 & IH3 & IH4 & IH5).
    rewrite IH1, IH2, IH3, IH4, IH5. clear IH1 IH2 IH3 IH4 IH5.
    unfold process_row.
    destruct (classify e (st_processed st) r) as [o seen'] eqn:Hc.
    fold (seen_after e seen' rows).
    destruct o as [| err reason | reason | d]; cbn;
      rewrite <- ?app_assoc; repeat split.
Qed.

(** C3, as stated, fails on a sheet that repeats its header line: the run
    reports one row in [total] and stores no outcome for it. *)
Lemma C3_header_row_has_no_outcome :
  let st := validate env_single [header_row] in
  total (st_results st) = 1%nat
  /\ st_bulkUpdates st = []
  /\ skippedRows (st_results st) = []
  /\ failedRows (st_results st) = []
  /\ errors (st_results st) = [].
Proof. vm_compute. repeat split; reflexivity. Qed.

(** C3, amended. The loop yields one outcome per row; the outcome is the
    silent [continue] exactly for rows whose SKU is falsy or the literal
    header text; every other row is accepted, skipped or rejected.  The
    accepted diffs, the errors, the failed rows and the skipped rows of the
    run are those outcomes in row order, each stored once, and the reported
    total is the number of accepted diffs, skipped rows and failed rows plus
    the number of rows passed over. *)
Theorem C3_rows_accounted_for e rows :
  let st := validate e rows in
  let os := outcomes e ∅ rows in
  length os = length rows
  /\ (forall i r, rows !! i = Some r ->
        exists o, os !! i = Some o /\ (o = Ignored <-> ignored r = true))
  /\ st_bulkUpdates st = omap accepted_of os
  /\ errors (st_results st) = omap error_of os
  /\ failedRows (st_results st) = omap failed_of (zip rows os)
  /\ skippedRows (st_results st) = omap skipped_of (zip rows os)
  /\ total (st_results st)
     = (length (st_bulkUpdates st) + length (skippedRows (st_results st))
        + length (failedRows (st_results st))
        + length (filter (fun r => ignored r = true) rows))%nat.
Proof.
  intros st os. split; [apply outcomes_length | split].
  - intros i r Hr. eexists. split; [apply outcomes_lookup; exact Hr |].
    apply classify_Ignored_iff.
  - destruct (run_lists e rows (initial_state rows)) as (L1 & L2 & L3 & L4 & _).
    fold (validate e rows) in L1, L2, L3, L4. fold st in L1, L2, L3, L4.
    simpl in L1, L2, L3, L4. fold os in L1, L2, L3, L4.
    split; [exact L1 | split; [exact L2 | split; [exact L3 | split; [exact L4 |]]]].
    destruct (run_stored e rows (initial_state rows)) as [H1 H2].
    fold (validate e rows) in H1, H2. fold st in H1, H2.
    rewrite H2. unfold stored in H1. simpl in *. lia.
Qed.

(** *** Duplicate rows *)

Lemma classify_seen_elem e seen r k :
  k ∈ snd (classify e seen r) ->
  k ∈ seen \/ exists p, resolved e r = Some p /\ key_of p = k.
Proof.
  destruct (classify_cases e r)
    as [Hi | [[Hi Hq] | [(q & o & Hi & Hq & Hl) | (q & tid & tname & Hi & Hq & Hl)]]].
  - rewrite classify_ignored by done. auto.
  - rewrite classify_invalid by done. auto.
  - erewrite classify_unresolved by eauto. auto.
  - erewrite classify_resolved by eauto.
    case_bool_decide; simpl; [auto |].
    intros [->%elem_of_singleton | Hk]%elem_of_union; [right | auto].
    exists (skuKey_of r, (tid, tname)). split; [| reflexivity].
    unfold resolved. rewrite Hi, Hq, Hl. reflexivity.
Qed.

Lemma seen_after_elem e rows k : forall seen,
  k ∈ seen_after e seen rows ->
  k ∈ seen
  \/ exists i r p, rows !! i = Some r /\ resolved e r = Some p /\ key_of p = k.
Proof.
  induction rows as [| r rows IH]; intros seen; simpl; [auto |].
  intros [Hk | (i & r' & p & Hr & Hp & Hkey)]%IH.
  - apply classify_seen_elem in Hk as [Hk | (p & Hp & Hkey)]; [auto |].
    right. exists 0%nat, r, p. auto.
  - right. exists (S i), r', p. auto.
Qed.

(** A row that reaches the duplicate check with the pair [p] of case-folded
    SKU and resolved location is rejected as a duplicate, whatever its
    quantity, when an earlier row of the run reached the check with the same
    pair; when no earlier row reached the check with the same combination
    key, it goes on to the index lookup. *)
Lemma duplicate_key_rejected e rows j rj p :
  rows !! j = Some rj ->
  resolved e rj = Some p ->
  ((exists i ri, (i < j)%nat /\ rows !! i = Some ri /\ resolved e ri = Some p) ->
   outcomes e ∅ rows !! j = Some (duplicate_row (sku_of rj)))
  /\ ((forall i ri p', (i < j)%nat -> rows !! i = Some ri ->
         resolved e ri = Some p' -> key_of p' <> key_of p) ->
      exists q, parseInt (get rj "Quantity Available") = Some q
        /\ outcomes e ∅ rows !! j
           = Some (lookupAndDiff e (sku_of rj) (skuKey_of rj) q p.2.1)).
Proof.
  intros Hj Hp.
  pose proof (outcomes_lookup e ∅ rows j rj Hj) as Hout.
  destruct (resolved_Some e rj p Hp) as (q & Hi & Hq & Hl & Hk).
  destruct p as [k [tid tname]]. simpl in *. subst k.
  erewrite classify_resolved in Hout by eauto.
  split.
  - intros (i & ri & Hlt & Hri & Hpi).
    assert (Hin : combinationKey (skuKey_of rj) tname
                  ∈ seen_after e ∅ (take j rows)).
    { assert (Hri' : take j rows !! i = Some ri)
        by (rewrite lookup_take_lt by exact Hlt; exact Hri).
      rewrite <- (take_drop_middle _ i ri Hri'), seen_after_app. simpl.
      apply seen_after_mono.
      apply (classify_resolved_seen e _ ri _ Hpi). }
    rewrite bool_decide_eq_true_2 in Hout by exact Hin. exact Hout.
  - intros Hfirst. exists q. split; [exact Hq |].
    rewrite bool_decide_eq_false_2 in Hout; [exact Hout |].
    intros [Hk | (i & ri & p' & Hri & Hp' & Hkey)]%seen_after_elem.
    + by apply not_elem_of_empty in Hk.
    + apply lookup_take_Some in Hri as [Hri Hlt].
      exact (Hfirst i ri p' Hlt Hri Hp' Hkey).
Qed.

Example duplicate_key_rejected_sample :
  outcomes env_single ∅
    [sheet_row (JStr "A1") (JNum 5) (JStr "main");
     sheet_row (JStr " a1") (JNum 9) JNull] !! 1%nat
  = Some (duplicate_row "a1").
Proof.
  refine (proj1 (duplicate_key_rejected env_single
    [sheet_row (JStr "A1") (JNum 5) (JStr "main");
     sheet_row (JStr " a1") (JNum 9) JNull] 1
    (sheet_row (JStr " a1") (JNum 9) JNull) ("a1", ("L1", Some "Main"))
    eq_refl eq_refl) _).
  exists 0%nat, (sheet_row (JStr "A1") (JNum 5) (JStr "main")).
  split; [lia | split; reflexivity].
Qed.

(** C5. The duplicate check compares the text [skuKey|locationName], not
    the pair, and two different pairs can give one text.  In a store with
    the locations [c] and [b|c], the row of SKU [a|b] at [c] and the row of
    SKU [a] at [b|c] reach the check with different SKUs and different
    locations and with the same combination key: the second row, the first
    of its pair, is rejected as an identical row with the same SKU and
    location, and only the first row's diff is queued. *)
Theorem C5_distinct_pairs_rejected_as_duplicates :
  map (resolved env_bar_names) rows_bar_names
  = [ Some ("a|b", ("L1", Some "c")); Some ("a", ("L2", Some "b|c")) ]
  /\ map key_of (omap (resolved env_bar_names) rows_bar_names)
     = [ "a|b|c"; "a|b|c" ]
  /\ outcomes env_bar_names ∅ rows_bar_names
     = [ Accepted {| d_inventoryItemId := "I1"; d_locationId := "L1";
                     d_quantity := 7 |};
         duplicate_row "a" ]
  /\ st_bulkUpdates (validate env_bar_names rows_bar_names)
     = [ {| d_inventoryItemId := "I1"; d_locationId := "L1";
            d_quantity := 7 |} ].
Proof. vm_compute. repeat split; reflexivity. Qed.

End ValidatorFacts.

(** ** The import run: prefetch, staged upload, polling, merging *)
Module ImportRunFacts.
Import JS Remote RemoteFacts ImportRoute ValidatorViews ImportViews Samples.

Lemma is_normal_inv {A} (c : completion A) :
  is_normal c = true -> exists a, c = Normal a.
Proof. destruct c; [eauto | discriminate]. Qed.

Lemma index_edges_ok edges : forall m,
  forallb edge_ok edges = true -> exists m', index_edges m edges = Normal m'.
Proof.
  induction edges as [| node edges IH]; intros m; simpl; [eauto |].
  intros [Hn Hrest]%andb_prop. unfold index_edge, edge_ok in *.
  destruct (vn_sku node) as [sku|]; [| apply IH; exact Hrest].
  destruct (vn_inventoryItem node) as [item|].
  - destruct (String.eqb sku EmptyString); apply IH; exact Hrest.
  - rewrite Hn. apply IH; exact Hrest.
Qed.

Lemma prefetch_cons reply rest cursor m :
  prefetch (reply :: rest) cursor m =
  let* data := request (QPage cursor) reply in
  match pr_data data with
  | None => ret m
  | Some pv =>
      let* m' := lift (index_edges m (pv_edges pv)) in
      if pv_hasNextPage pv then prefetch rest (pv_endCursor pv) m'
      else ret m'
  end.
Proof. reflexivity. Qed.

(** The prefetch asks page after page and stops at the fetch that rejects. *)
Lemma prefetch_throw err post pre : forall cursor m,
  forallb page_continues pre = true ->
  exists tr,
    prefetch (pre ++ Throw err :: post) cursor m = (tr, Some (Throw err))
    /\ existsb is_mutation tr = false.
Proof.
  induction pre as [| reply pre IH]; intros cursor m Hpre.
  - exists [QPage cursor]. split; reflexivity.
  - cbn [forallb] in Hpre. apply andb_prop in Hpre as [Hreply Hpre].
    unfold page_continues in Hreply.
    destruct reply as [page | ?]; [| discriminate].
    destruct (pr_data page) as [pv|] eqn:Hdata; [| discriminate].
    apply andb_prop in Hreply as [Hmore Hedges].
    destruct (index_edges_ok (pv_edges pv) m Hedges) as [m' Hm'].
    destruct (IH (pv_endCursor pv) m' Hpre) as (tr & Htr & Hmut).
    exists (QPage cursor :: tr). split; [| simpl; exact Hmut].
    rewrite <- app_comm_cons, prefetch_cons.
    unfold request. rewrite bind_Normal. rewrite Hdata.
    unfold lift. rewrite Hm', bind_Normal. rewrite Hmore, Htr. reflexivity.
Qed.

(** C2. If a page fetch of the prefetch fails (its promise rejects), after
    pages that each announced a next page, the action ends with that
    failure: the exception leaves the action before the row loop, no report
    is returned, and the calls it made contain no staged upload request, no
    upload and no bulk mutation. *)
Theorem C2_page_fetch_throw_aborts w locationId rows pre err post :
  initial_queries_resolve w locationId = true ->
  r_pages w = pre ++ Throw err :: post ->
  forallb page_continues pre = true ->
  outcome_of (action w locationId rows) = Some (Throw err)
  /\ report_of (action w locationId rows) = None
  /\ existsb is_mutation (trace (action w locationId rows)) = false.
Proof.
  intros Hinit Hpages Hpre.
  destruct (prefetch_throw err post pre None ∅ Hpre) as (tr & Htr & Hmut).
  rewrite <- Hpages in Htr.
  assert (Hprep : exists tr0, prepare w locationId = (tr0 ++ tr, Some (Throw err))
                              /\ existsb is_mutation tr0 = false).
  { unfold prepare, initial_queries_resolve in *.
    destruct (String.eqb locationId "ALL_LOCATIONS"); simpl negb; cbv iota.
    - apply is_normal_inv in Hinit as [found Hfound]. rewrite Hfound.
      exists [QLocations]. split; [| reflexivity].
      unfold request, ret. rewrite !bind_Normal. simpl.
      rewrite Htr. reflexivity.
    - apply is_normal_inv in Hinit as [name Hname]. rewrite Hname.
      exists [QLocation locationId]. split; [| reflexivity].
      unfold request, ret. rewrite !bind_Normal. simpl.
      rewrite Htr. reflexivity. }
  destruct Hprep as (tr0 & Hprep & Hmut0).
  unfold action, report_of, outcome_of, trace. rewrite Hprep. simpl.
  repeat split. rewrite existsb_app, Hmut0, Hmut. reflexivity.
Qed.

Lemma C2_page_fetch_throw_aborts_witness :
  outcome_of (action remote_page_throws "L1" [row_a1_9; row_b2_3])
  = Some (Throw "fetch failed")
  /\ report_of (action remote_page_throws "L1" [row_a1_9; row_b2_3]) = None
  /\ existsb is_mutation
       (trace (action remote_page_throws "L1" [row_a1_9; row_b2_3])) = false.
Proof.
  apply (C2_page_fetch_throw_aborts remote_page_throws "L1"
           [row_a1_9; row_b2_3] [Normal page_a1_more] "fetch failed" []);
    reflexivity.
Defined.

(** *** Failures of the staged upload pipeline *)









(** *** Merging the deferred report *)

Lemma scan_parsed units : forall bulkErrors successCount,
  scan (Some <$> units) bulkErrors successCount
  = (bulkErrors ++ omap head units,
     successCount
     + Z.of_nat (length (filter (fun u : list string => u = []) units))).
Proof.
  induction units as [| u units IH]; intros errs n; simpl.
  - rewrite app_nil_r, Z.add_0_r. reflexivity.
  - destruct u as [| message more]; rewrite IH.
    + rewrite filter_cons_True by reflexivity. simpl length.
      f_equal. lia.
    + rewrite filter_cons_False by discriminate. simpl.
      rewrite <- app_assoc. reflexivity.
Qed.

(** C8. Merging adds the two updated counts and appends the deferred error
    list to the immediate one; total, failed rows and skipped rows are the
    immediate ones.  The deferred report built from a result file holds one
    message per unit that reported user errors and counts the other units,
    so an erroring unit only ever reaches the merged error list. *)
Theorem C8_merge_adds_counts_and_appends_errors validated deferred units :
  let merged := merge validated (Some deferred) in
  updated merged = updated validated + br_updated deferred
  /\ errors merged = errors validated ++ br_errors deferred
  /\ failedRows merged = failedRows validated
  /\ skippedRows merged = skippedRows validated
  /\ total merged = total validated
  /\ merge validated None = merge validated (Some {| br_updated := 0; br_errors := [] |})
  /\ scan (Some <$> units) [] 0
     = (omap head units,
        Z.of_nat (length (filter (fun u : list string => u = []) units))).
Proof.
  repeat split. rewrite scan_parsed. reflexivity.
Qed.

End ImportRunFacts.

(** ** The export route and the result files *)
Module ExportFacts.
Import JS Remote RemoteFacts ExportRoute ExportViews.

(** *** Lines that do not parse *)

(** In the export loader a line that does not parse changes nothing: the
    tree is the one built from the lines that parse, in their order. *)
Lemma build_drops_malformed lines : forall st,
  fold_left step lines st = fold_left add_line (omap id lines) st.
Proof.
  induction lines as [| l lines IH]; intros st; [reflexivity |].
  destruct l as [obj |]; simpl; apply IH.
Qed.

(** In the import loader the scan ends at the first line that does not
    parse, whatever follows it. *)
Lemma scan_stops_at_malformed units rest : forall bulkErrors successCount,
  ImportRoute.scan ((Some <$> units) ++ None :: rest) bulkErrors successCount
  = ImportRoute.scan (Some <$> units) bulkErrors successCount.
Proof.
  induction units as [| u units IH]; intros errs n; simpl; [reflexivity |].
  destruct u; apply IH.
Qed.

(** C4. For read jobs the claim holds: a line that does not parse is
    dropped and the build goes on with the following lines.  For write jobs
    it does not: the scan ends at the first line that does not parse, so on
    a file of four lines whose second line does not parse the poll reports
    one updated unit and no error, while the same file without that line
    yields two updated units and one error. *)
Theorem C4_malformed_line_read_dropped_write_stops :
  (forall pre post, build (pre ++ None :: post) = build (pre ++ post))
  /\ (forall units rest,
       ImportRoute.scan ((Some <$> units) ++ None :: rest) [] 0
       = ImportRoute.scan (Some <$> units) [] 0)
  /\ outcome_of (ImportRoute.loader Samples.poll_malformed "op1")
     = Some (Normal (ImportRoute.PollCompleted
                       {| ImportRoute.br_updated := 1;
                          ImportRoute.br_errors := [] |}))
  /\ outcome_of (ImportRoute.loader Samples.poll_clean "op1")
     = Some (Normal (ImportRoute.PollCompleted
                       {| ImportRoute.br_updated := 2;
                          ImportRoute.br_errors :=
                            ["The quantity can't be negative."] |})).
Proof.
  split; [| split; [| split; vm_compute; reflexivity]].
  - intros pre post. unfold build.
    rewrite !build_drops_malformed, !omap_app. reflexivity.
  - intros units rest. apply scan_stops_at_malformed.
Qed.

(** *** Cancel and retry *)

Lemma cancelOperation_completes id reply :
  cancelOperation id reply = ([MCancel id], Some (Normal tt)).
Proof. destruct reply as [[] | err]; reflexivity. Qed.

(** C9, as stated, fails when the query for the current operation finds
    none after the refused submission: the job is resubmitted without any
    cancellation. *)
Lemma C9_retry_without_cancellation :
  mentions_in_progress in_progress = true
  /\ trace (action remote_no_current "L1")
     = [QCurrentOp; MRunQuery; QCurrentOp; MRunQuery].
Proof. vm_compute. split; reflexivity. Qed.

(** C9, amended. When the first submission returns a user error that
    mentions a job in progress, the action asks for the current operation,
    cancels it once if the answer carries an id (not at all otherwise) and
    resubmits once: the trace holds exactly two submissions and no call
    after the second.  User errors of the retry are returned as the failure
    and an exception of the retry propagates; nothing is retried again. *)
Theorem C9_one_retry_at_most_one_cancel w locationId currentOp first retryOp :
  x_current w = Normal currentOp ->
  x_run w = Normal first ->
  mentions_in_progress first = true ->
  x_retry_current w = Normal retryOp ->
  trace (action w locationId)
  = [QCurrentOp] ++ precancel_calls currentOp
    ++ [MRunQuery] ++ [QCurrentOp] ++ cancel_calls retryOp ++ [MRunQuery]
  /\ (length (cancel_calls retryOp) <= 1)%nat
  /\ (forall retry message more,
        x_retry_run w = Normal retry ->
        userErrors_of retry = message :: more ->
        outcome_of (action w locationId) = Some (Normal (SubmitFailed message)))
  /\ (forall err,
        x_retry_run w = Throw err ->
        outcome_of (action w locationId) = Some (Throw err)).
Proof.
  intros Hcur Hrun Hprog Hretry. unfold mentions_in_progress in Hprog.
  assert (Hpre : (match currentOp with
                  | Some op =>
                      if negb (String.eqb (co_status op) "COMPLETED")
                      then cancelOperation (co_id op) (x_cancel w)
                      else ret tt
                  | None => ret tt
                  end) = (precancel_calls currentOp, Some (Normal tt))).
  { unfold precancel_calls. destruct currentOp as [op |]; [| reflexivity].
    destruct (negb _); [apply cancelOperation_completes | reflexivity]. }
  assert (Hcancel : (match or_else retryOp None with
                     | Some id => cancelOperation id (x_retry_cancel w)
                     | None => ret tt
                     end) = (cancel_calls retryOp, Some (Normal tt))).
  { unfold cancel_calls. destruct (or_else retryOp None);
      [apply cancelOperation_completes | reflexivity]. }
  unfold action, trace, outcome_of, request.
  rewrite Hcur, bind_Normal. cbv beta.
  rewrite Hpre, bind_Normal. cbv beta.
  rewrite Hrun, bind_Normal. cbv beta.
  rewrite Hprog, Hretry, bind_Normal. cbv beta.
  rewrite Hcancel, bind_Normal. cbv beta.
  cbn [fst snd].
  assert (Hlen : (length (cancel_calls retryOp) <= 1)%nat).
  { unfold cancel_calls. destruct (or_else retryOp None); simpl; lia. }
  destruct (x_retry_run w) as [retry | err] eqn:Hrr.
  - rewrite bind_Normal. cbn [fst snd].
    assert (Htr : forall m : M submitted, fst m = [] ->
              [QCurrentOp] ++ precancel_calls currentOp ++ [MRunQuery]
                ++ ([QCurrentOp] ++ cancel_calls retryOp ++ [MRunQuery]) ++ fst m
              = [QCurrentOp] ++ precancel_calls currentOp ++ [MRunQuery]
                ++ [QCurrentOp] ++ cancel_calls retryOp ++ [MRunQuery]).
    { intros m ->. rewrite app_nil_r. reflexivity. }
    split; [| split; [| split]].
    + apply Htr. destruct (userErrors_of retry); [| reflexivity].
      destruct retry as [rq |]; [| reflexivity].
      destruct (rq_bulkOperation_id rq); reflexivity.
    + exact Hlen.
    + intros retry' message more [= <-] ->. reflexivity.
    + intros err [=].
  - split; [| split; [| split]].
    + cbn [fst]. rewrite ?app_nil_r. reflexivity.
    + exact Hlen.
    + intros retry message more [=].
    + intros err' [= <-]. reflexivity.
Qed.

Lemma C9_one_retry_at_most_one_cancel_witness :
  trace (action remote_still_busy "L1")
  = [QCurrentOp; MCancel "gid://shopify/BulkOperation/1"; MRunQuery;
     QCurrentOp; MCancel "gid://shopify/BulkOperation/1"; MRunQuery]
  /\ outcome_of (action remote_still_busy "L1")
     = Some (Normal (SubmitFailed
         "A bulk query operation for this app and shop is already in progress: gid://shopify/BulkOperation/1.")).
Proof.
  pose proof (C9_one_retry_at_most_one_cancel remote_still_busy "L1"
                _ _ _ eq_refl eq_refl eq_refl eq_refl) as (Htr & _ & Hfail & _).
  split; [exact Htr |].
  exact (Hfail _ _ [] eq_refl eq_refl).
Defined.

(** *** Projection of the tree to rows *)

Lemma filter_levels_ok locationId levels :
  forallb level_ok levels = true ->
  filter_levels locationId levels
  = Normal (List.filter (at_location locationId) levels).
Proof.
  induction levels as [| level levels IH]; [reflexivity |].
  cbn [forallb]. intros [Hl Hrest]%andb_prop. cbn [filter_levels List.filter].
  rewrite (IH Hrest). unfold level_ok in Hl. apply andb_prop in Hl as [Hloc _].
  apply bool_decide_eq_true in Hloc as [loc Hloc].
  unfold at_location. rewrite Hloc. reflexivity.
Qed.

Lemma level_rows_ok product variant levels :
  forallb level_ok levels = true ->
  level_rows product variant levels
  = Normal (map (row_of_level product variant) levels).
Proof.
  induction levels as [| level levels IH]; [reflexivity |].
  cbn [forallb]. intros [Hl Hrest]%andb_prop. cbn [level_rows map].
  rewrite (IH Hrest). unfold level_ok in Hl. apply andb_prop in Hl as [_ Hq].
  apply bool_decide_eq_true in Hq as [qs Hq].
  unfold level_row, row_of_level. rewrite Hq. reflexivity.
Qed.

Lemma forallb_filter_ok {A} (f g : A -> bool) l :
  forallb f l = true -> forallb f (List.filter g l) = true.
Proof.
  rewrite !forallb_forall. intros H x [Hx _]%filter_In. apply H, Hx.
Qed.

Lemma surviving_ok locationId v :
  forallb level_ok (inventoryLevels v) = true ->
  forallb level_ok (surviving locationId v) = true.
Proof.
  unfold surviving. destruct (filter_active locationId); [| done].
  apply forallb_filter_ok.
Qed.

Lemma variant_rows_expected locationId product v :
  forallb level_ok (inventoryLevels v) = true ->
  variant_rows locationId product v
  = Normal (expected_rows locationId product v).
Proof.
  intros Hok. pose proof (surviving_ok locationId v Hok) as Hkept.
  unfold variant_rows, expected_rows, surviving in *.
  destruct (filter_active locationId) eqn:Hact.
  - rewrite (filter_levels_ok _ _ Hok).
    destruct (List.filter _ _) as [| level kept] eqn:Hf; [reflexivity |].
    cbn [negb]. apply level_rows_ok, Hkept.
  - destruct (inventoryLevels v) as [| level kept] eqn:Hf; [reflexivity |].
    apply level_rows_ok, Hkept.
Qed.

Lemma collect_all {A} (f : A -> completion (list exportRow)) g xs :
  Forall (fun x => f x = Normal (g x)) xs ->
  collect f xs = Normal (concat (map g xs)).
Proof.
  induction 1 as [| x xs Hx _ IH]; [reflexivity |].
  cbn [collect map concat]. rewrite Hx, IH. reflexivity.
Qed.

(** The tree built from the sample file: the line that does not parse is
    skipped and both levels hang under the variant. *)
Example build_file_shirt :
  concat (map (variants_of (build file_shirt)) (products_of (build file_shirt)))
  = [shirt_variant].
Proof. vm_compute. reflexivity. Qed.

(** C6. On a tree whose levels carry [location] and [quantities], the
    projection returns, product by product and variant by variant, the rows
    of the projection rule, and the loader returns them (or the single
    [No data found] row when there are none).  Per variant the rule gives
    one row for each level that survives the location filter, in order; one
    placeholder row for a variant without levels when no filter is active;
    and no row when the filter is active and none of the variant's levels is
    at that location. *)
Theorem C6_one_row_per_surviving_level locationId st :
  tree_ok st = true ->
  project locationId st = Normal (expected_projection locationId st)
  /\ (forall lines, st = build lines ->
        rows_of_file locationId lines
        = ExportCompleted
            (match expected_projection locationId st with
             | [] => [no_data]
             | rows => rows
             end))
  /\ (forall product v,
        (surviving locationId v <> [] ->
           expected_rows locationId product v
           = map (row_of_level product (h_line v)) (surviving locationId v)
           /\ length (expected_rows locationId product v)
              = length (surviving locationId v))
        /\ (inventoryLevels v = [] -> filter_active locationId = false ->
            expected_rows locationId product v
            = [placeholder_row product (h_line v)])
        /\ (filter_active locationId = true ->
            surviving locationId v = [] ->
            expected_rows locationId product v = [])).
Proof.
  intros Hok.
  assert (Hproj : project locationId st
                  = Normal (expected_projection locationId st)).
  { unfold project, expected_projection. fold (products_of st).
    unfold tree_ok in Hok.
    apply collect_all. rewrite forallb_forall in Hok.
    apply List.Forall_forall. intros p Hp. specialize (Hok p Hp).
    apply collect_all. rewrite forallb_forall in Hok.
    apply List.Forall_forall. intros v Hv.
    apply variant_rows_expected, Hok, Hv. }
  split; [exact Hproj | split].
  - intros lines ->. unfold rows_of_file. rewrite Hproj.
    destruct (expected_projection locationId (build lines)); reflexivity.
  - intros product v. unfold expected_rows. split; [| split].
    + intros Hne. destruct (surviving locationId v); [done |].
      split; [reflexivity | apply length_map].
    + intros Hnil Hact. unfold surviving. rewrite Hact, Hnil. reflexivity.
    + intros Hact ->. rewrite Hact. reflexivity.
Qed.

Lemma C6_one_row_per_surviving_level_witness :
  project (Some "L2") (build file_shirt)
  = Normal [ {| Product_Title := Some "Shirt"; SKU := "SH-1";
                Option1_Value := "Red"; Option2_Value := EmptyString;
                Option3_Value := EmptyString;
                Inventory_Location := "Annex";
                Quantity_Available := JNum 7 |} ]
  /\ rows_of_file (Some "L9") file_shirt = ExportCompleted [no_data].
Proof.
  split.
  - rewrite (proj1 (C6_one_row_per_surviving_level (Some "L2")
                      (build file_shirt) eq_refl)).
    vm_compute. reflexivity.
  - rewrite (proj1 (proj2 (C6_one_row_per_surviving_level (Some "L9")
                             (build file_shirt) eq_refl)) file_shirt eq_refl).
    vm_compute. reflexivity.
Defined.

End ExportFacts.

(** ** Further properties of the import route *)
Module ImportMoreFacts.
Import JS Remote RemoteFacts ImportRoute ValidatorViews ImportViews Samples.
Import ImportMoreViews ValidatorFacts ImportRunFacts.

(** *** The batch planner *)

Lemma plan_loop_singletons updates : forall jsonlLines,
  plan_loop updates [] jsonlLines
  = ([], jsonlLines ++ map (fun u => [u]) updates).
Proof.
  induction updates as [| u updates IH]; intros acc; simpl.
  - rewrite app_nil_r. reflexivity.
  - rewrite IH, <- app_assoc. reflexivity.
Qed.

(** X1. The planner writes one JSONL line per accepted diff, in the order
    the diffs were accepted: no diff is lost, repeated or moved, and no
    line holds two diffs. *)
Theorem X1_plan_one_line_per_diff bulkUpdates :
  plan bulkUpdates = map (fun u => [u]) bulkUpdates
  /\ concat (plan bulkUpdates) = bulkUpdates
  /\ length (plan bulkUpdates) = length bulkUpdates.
Proof.
  assert (H : plan bulkUpdates = map (fun u => [u]) bulkUpdates).
  { unfold plan. rewrite plan_loop_singletons. reflexivity. }
  rewrite H. split; [reflexivity | split].
  - induction bulkUpdates as [| u l IH]; simpl; [reflexivity |].
    f_equal. apply IH. unfold plan. rewrite plan_loop_singletons. reflexivity.
  - apply length_map.
Qed.

(** *** The scan of the write job's result file *)

Lemma lines_split lines :
  lines = (Some <$> units_before_malformed lines)
  \/ exists rest,
       lines = (Some <$> units_before_malformed lines) ++ None :: rest.
Proof.
  induction lines as [| l lines IH]; [left; reflexivity |].
  destruct l as [u |]; simpl.
  - destruct IH as [IH | [rest IH]].
    + left. f_equal. exact IH.
    + right. exists rest. f_equal. exact IH.
  - right. exists lines. reflexivity.
Qed.

Lemma scan_prefix lines :
  scan lines [] 0 = scan (Some <$> units_before_malformed lines) [] 0.
Proof.
  destruct (lines_split lines) as [H | [rest H]].
  - rewrite H at 1. reflexivity.
  - rewrite H at 1. apply ExportFacts.scan_stops_at_malformed.
Qed.

Lemma omap_head_filter_length (units : list (list string)) :
  (length (omap head units)
   + length (filter (fun u : list string => u = []) units))%nat
  = length units.
Proof.
  induction units as [| u units IH]; [reflexivity |].
  destruct u as [| m more].
  - rewrite filter_cons_True by reflexivity.
    change (omap head ([] :: units)) with (omap head units).
    rewrite !length_cons. lia.
  - rewrite filter_cons_False by discriminate.
    change (omap head ((m :: more) :: units)) with (m :: omap head units).
    rewrite !length_cons. lia.
Qed.

(** X2. The scan counts every unit that comes before the first line that
    does not parse exactly once, as updated when it reports no user error
    and by its first message otherwise; nothing after that line is counted,
    so updated plus errors never exceeds the number of lines. *)
Theorem X2_scan_counts_each_unit_once lines :
  let units := units_before_malformed lines in
  scan lines [] 0
  = (omap head units,
     Z.of_nat (length (filter (fun u : list string => u = []) units)))
  /\ (scan lines [] 0).2 + Z.of_nat (length (scan lines [] 0).1)
     = Z.of_nat (length units)
  /\ (length units <= length lines)%nat.
Proof.
  intros units. rewrite scan_prefix. fold units. rewrite scan_parsed.
  simpl. split; [reflexivity | split].
  - pose proof (omap_head_filter_length units). lia.
  - subst units. induction lines as [| [u |] lines IH]; simpl; lia.
Qed.

(** *** What a report of the action always satisfies *)

Lemma process_row_in_step e st r :
  length (errors (st_results st)) = length (failedRows (st_results st)) ->
  length (errors (st_results (process_row e st r)))
  = length (failedRows (st_results (process_row e st r)))
  /\ updated (st_results (process_row e st r)) = updated (st_results st).
Proof.
  intros H. unfold process_row.
  destruct (classify e (st_processed st) r) as [o seen'].
  destruct o as [| err reason | reason | d]; simpl; rewrite ?length_app;
    simpl; split; (reflexivity || lia).
Qed.

Lemma run_in_step e rows : forall st,
  length (errors (st_results st)) = length (failedRows (st_results st)) ->
  let st' := fold_left (process_row e) rows st in
  length (errors (st_results st')) = length (failedRows (st_results st'))
  /\ updated (st_results st') = updated (st_results st).
Proof.
  induction rows as [| r rows IH]; intros st H; simpl; [auto |].
  destruct (process_row_in_step e st r H) as [H1 H2].
  destruct (IH _ H1) as [H3 H4]. simpl in H3, H4. rewrite H4, H2. auto.
Qed.

(** How the pipeline can change the report it was given. *)
Lemma execute_report_cases w res ups report :
  snd (execute w res ups) = Some (Normal report) ->
  report = res
  \/ (exists msg, report = push_error res msg)
  \/ (exists opId, report = set_bulkOperationId res opId).
Proof.
  unfold execute. destruct ups as [| u ups]; [intros [= <-]; auto |].
  unfold request. destruct (r_staged w) as [data | e]; [| discriminate].
  rewrite bind_Normal.
  destruct (negb _ || negb _); [intros [= <-]; eauto |].
  destruct (targets_of data) as [| target others]; [intros [= <-]; eauto |].
  destruct (r_upload w) as [up | e]; [| discriminate].
  rewrite bind_Normal. destruct (negb (ok up)); [intros [= <-]; eauto |].
  destruct (r_bulk w) as [bulk | e]; [| discriminate].
  rewrite bind_Normal.
  destruct (from_option bm_userErrors [] bulk); [| intros [= <-]; eauto].
  destruct (or_else _ None); intros [= <-]; eauto.
Qed.

(** X3. Whatever the remote answers, a report returned by the action has
    the number of sheet rows as total and an updated count of zero (updates
    are only ever counted by the poll); every failed row has its error
    message, and the errors hold at most one message more than there are
    failed rows (the stage failure); failed and skipped rows together never
    exceed the total. *)
Theorem X3_action_report_invariants w locationId rows report :
  report_of (action w locationId rows) = Some report ->
  total report = length rows
  /\ updated report = 0
  /\ (length (failedRows report) <= length (errors report)
      <= length (failedRows report) + 1)%nat
  /\ (length (failedRows report) + length (skippedRows report)
      <= total report)%nat.
Proof.
  unfold report_of, action.
  destruct (prepare w locationId) as [tr [[e | err] |]] eqn:Hprep;
    try discriminate.
  rewrite bind_Normal. cbn [snd].
  destruct (snd (execute w _ _)) as [[rep | ?] |] eqn:Hex; try discriminate.
  intros [= ->].
  set (st := validate e rows) in *.
  destruct (run_in_step e rows (initial_state rows) eq_refl) as [Hstep Hupd].
  fold (validate e rows) in Hstep, Hupd. fold st in Hstep, Hupd.
  destruct (run_stored e rows (initial_state rows)) as [Hsto Htot].
  fold (validate e rows) in Hsto, Htot. fold st in Hsto, Htot.
  unfold stored in Hsto. simpl in Hupd, Htot, Hsto.
  apply execute_report_cases in Hex as [-> | [[msg ->] | [opId ->]]];
    simpl; rewrite ?length_app; simpl; repeat split; try assumption; lia.
Qed.

Lemma X3_action_report_invariants_witness :
  exists report,
    report_of (action remote_upload_refused "L1" [row_q_bad; row_a1_9])
    = Some report
    /\ total report = 2%nat /\ updated report = 0
    /\ length (failedRows report) = 1%nat
    /\ length (errors report) = 2%nat.
Proof.
  destruct (report_of (action remote_upload_refused "L1" [row_q_bad; row_a1_9]))
    as [report |] eqn:H; [| vm_compute in H; discriminate H].
  exists report.
  pose proof (X3_action_report_invariants _ _ _ _ H) as (Ht & Hu & _ & _).
  split; [reflexivity | split; [exact Ht | split; [exact Hu |]]].
  vm_compute in H. injection H as <-. split; reflexivity.
Defined.

(** *** Accepted diffs *)

Lemma lookupAndDiff_Accepted e sku k q tid d :
  lookupAndDiff e sku k q tid = Accepted d ->
  exists entry current,
    skuMap e !! k = Some entry
    /\ levels entry !! tid = Some current
    /\ current <> q
    /\ d = {| d_inventoryItemId := inventoryItemId entry;
              d_locationId := tid; d_quantity := q |}.
Proof.
  unfold lookupAndDiff.
  destruct (skuMap e !! k) as [entry |] eqn:He; [| discriminate].
  destruct (levels entry !! tid) as [current |] eqn:Hl; [| discriminate].
  destruct (Z.eqb_spec current q); [discriminate |].
  intros [= <-]. exists entry, current.
  split; [reflexivity | split; [exact Hl | split; [assumption | reflexivity]]].
Qed.

Lemma classify_Accepted e seen r d :
  fst (classify e seen r) = Accepted d ->
  exists q tid tname,
    resolved e r = Some (skuKey_of r, (tid, tname))
    /\ parseInt (get r "Quantity Available") = Some q
    /\ (combinationKey (skuKey_of r) tname ∉ seen)
    /\ lookupAndDiff e (sku_of r) (skuKey_of r) q tid = Accepted d.
Proof.
  intros H.
  destruct (classify_cases e r)
    as [Hi | [[Hi Hq] | [(q & o & Hi & Hq & Hl) | (q & tid & tname & Hi & Hq & Hl)]]].
  - rewrite classify_ignored in H by assumption. discriminate H.
  - rewrite classify_invalid in H by assumption. discriminate H.
  - erewrite classify_unresolved in H by eauto. simpl in H. subst o.
    apply resolveLocation_rejects in Hl as (? & ? & ?). discriminate.
  - erewrite classify_resolved in H by eauto.
    case_bool_decide as Hin; simpl in H; [discriminate H |].
    exists q, tid, tname. repeat split; try assumption.
    unfold resolved. rewrite Hi, Hq, Hl. reflexivity.
Qed.

(** X4. Every diff the validator queues is justified by the index and by a
    row of the sheet: the index holds an entry with the diff's inventory
    item under the row's case-folded SKU, that entry has a quantity at the
    diff's location, and this quantity differs from the diff's, which is the
    row's parsed quantity.  No diff is queued for an unknown SKU, for a
    location the SKU is not stocked at, or without a change. *)
Theorem X4_accepted_diffs_are_justified e rows d :
  d ∈ st_bulkUpdates (validate e rows) ->
  exists i r entry current,
    rows !! i = Some r
    /\ skuMap e !! skuKey_of r = Some entry
    /\ d_inventoryItemId d = inventoryItemId entry
    /\ levels entry !! d_locationId d = Some current
    /\ current <> d_quantity d
    /\ parseInt (get r "Quantity Available") = Some (d_quantity d).
Proof.
  intros Hd.
  destruct (run_lists e rows (initial_state rows)) as (L1 & _).
  fold (validate e rows) in L1. simpl in L1. rewrite L1 in Hd.
  apply list_elem_of_omap in Hd as (o & Ho & Hacc).
  destruct o as [| | | d']; try discriminate. injection Hacc as ->.
  apply list_elem_of_lookup in Ho as [i Hi].
  assert (Hlt : (i < length rows)%nat).
  { rewrite <- (outcomes_length e rows ∅). eapply lookup_lt_Some, Hi. }
  destruct (lookup_lt_is_Some_2 rows i Hlt) as [r Hr].
  rewrite (outcomes_lookup e ∅ rows i r Hr) in Hi. injection Hi as Hi.
  apply classify_Accepted in Hi as (q & tid & tname & _ & Hq & _ & Hl).
  apply lookupAndDiff_Accepted in Hl as (entry & current & He & Hlv & Hne & ->).
  exists i, r, entry, current. simpl. auto 7.
Qed.

Lemma X4_accepted_diffs_are_justified_witness :
  exists i r entry current,
    [row_q_bad; row_a1_9] !! i = Some r
    /\ skuMap env_single !! skuKey_of r = Some entry
    /\ "I1" = inventoryItemId entry
    /\ levels entry !! "L1" = Some current
    /\ current <> 9
    /\ parseInt (get r "Quantity Available") = Some 9.
Proof.
  apply (X4_accepted_diffs_are_justified env_single [row_q_bad; row_a1_9]
           {| d_inventoryItemId := "I1"; d_locationId := "L1";
              d_quantity := 9 |}).
  vm_compute. apply list_elem_of_here.
Defined.

(** *** Rows that never reach the duplicate check *)

Lemma classify_unresolved_row e seen r :
  resolved e r = None ->
  snd (classify e seen r) = seen
  /\ accepted_of (fst (classify e seen r)) = None
  /\ (forall reason, fst (classify e seen r) <> Skipped reason).
Proof.
  intros Hres.
  destruct (classify_cases e r)
    as [Hi | [[Hi Hq] | [(q & o & Hi & Hq & Hl) | (q & tid & tname & Hi & Hq & Hl)]]].
  - rewrite classify_ignored by assumption. repeat split. discriminate.
  - rewrite classify_invalid by assumption. repeat split. discriminate.
  - erewrite classify_unresolved by eauto.
    apply resolveLocation_rejects in Hl as (err & reason & ->).
    repeat split. discriminate.
  - unfold resolved in Hres. rewrite Hi, Hq, Hl in Hres. discriminate Hres.
Qed.

Lemma seen_after_cons e seen r rows :
  seen_after e seen (r :: rows) = seen_after e (snd (classify e seen r)) rows.
Proof. reflexivity. Qed.

(** X5. A row that is passed over, has an invalid quantity or fails the
    location resolution has no influence on the other rows: taking it out of
    the sheet leaves the outcome of every other row as it was, and the run
    queues the same diffs and skips the same rows. *)
Theorem X5_unresolved_row_has_no_influence e l1 r l2 :
  resolved e r = None ->
  outcomes e ∅ (l1 ++ l2)
  = delete (length l1) (outcomes e ∅ (l1 ++ r :: l2))
  /\ st_bulkUpdates (validate e (l1 ++ r :: l2))
     = st_bulkUpdates (validate e (l1 ++ l2))
  /\ skippedRows (st_results (validate e (l1 ++ r :: l2)))
     = skippedRows (st_results (validate e (l1 ++ l2))).
Proof.
  intros Hres.
  destruct (classify_unresolved_row e (seen_after e ∅ l1) r Hres)
    as (Hseen & Hacc & Hskip).
  assert (Hout : outcomes e ∅ (l1 ++ r :: l2)
                 = outcomes e ∅ l1
                   ++ fst (classify e (seen_after e ∅ l1) r)
                   :: outcomes e (seen_after e ∅ l1) l2).
  { rewrite outcomes_app. f_equal. simpl.
    destruct (classify e (seen_after e ∅ l1) r) as [o s'] eqn:Hc.
    simpl in Hseen. subst s'. reflexivity. }
  split; [| split].
  - rewrite Hout, outcomes_app.
    rewrite <- (outcomes_length e l1 ∅).
    rewrite delete_middle. reflexivity.
  - destruct (run_lists e (l1 ++ r :: l2) (initial_state (l1 ++ r :: l2)))
      as (L1 & _).
    destruct (run_lists e (l1 ++ l2) (initial_state (l1 ++ l2))) as (L2 & _).
    fold (validate e (l1 ++ r :: l2)) in L1. fold (validate e (l1 ++ l2)) in L2.
    simpl in L1, L2. rewrite L1, L2, Hout, outcomes_app, !omap_app.
    simpl. rewrite Hacc. reflexivity.
  - destruct (run_lists e (l1 ++ r :: l2) (initial_state (l1 ++ r :: l2)))
      as (_ & _ & _ & L1 & _).
    destruct (run_lists e (l1 ++ l2) (initial_state (l1 ++ l2)))
      as (_ & _ & _ & L2 & _).
    fold (validate e (l1 ++ r :: l2)) in L1. fold (validate e (l1 ++ l2)) in L2.
    simpl in L1, L2. rewrite L1, L2, Hout, outcomes_app.
    rewrite !zip_with_app by (rewrite outcomes_length; reflexivity).
    rewrite !omap_app. f_equal. simpl.
    destruct (fst (classify e (seen_after e ∅ l1) r)) as [| | reason |] eqn:Ho;
      try reflexivity.
    exfalso. exact (Hskip reason eq_refl).
Qed.

Lemma X5_unresolved_row_has_no_influence_witness :
  st_bulkUpdates (validate env_single [row_q_bad; row_a1_9])
  = st_bulkUpdates (validate env_single [row_a1_9]).
Proof.
  exact (proj1 (proj2 (X5_unresolved_row_has_no_influence env_single
                         [] row_q_bad [row_a1_9] eq_refl))).
Defined.

(** *** Which calls a run can make *)

Lemma prefetch_no_mutation pages : forall cursor m,
  existsb is_mutation (trace (prefetch pages cursor m)) = false.
Proof.
  induction pages as [| reply pages IH]; intros cursor m; [reflexivity |].
  rewrite prefetch_cons. unfold request.
  destruct reply as [data | err]; [| reflexivity].
  rewrite bind_Normal. unfold trace. cbn [fst]. cbn [app existsb is_mutation orb].
  destruct (pr_data data) as [pv |]; [| reflexivity].
  unfold lift. destruct (index_edges m (pv_edges pv)) as [m' | err];
    [| reflexivity].
  rewrite bind_Normal. cbn [fst app].
  destruct (pv_hasNextPage pv); [apply IH | reflexivity].
Qed.

Lemma prepare_no_mutation w locationId :
  existsb is_mutation (trace (prepare w locationId)) = false.
Proof.
  unfold prepare, request, ret.
  pose proof (prefetch_no_mutation (r_pages w) None ∅) as Hp.
  destruct (prefetch (r_pages w) None ∅) as [tr [[m | err] |]];
    unfold trace in *; cbn [fst] in Hp;
    destruct (String.eqb locationId "ALL_LOCATIONS"); cbn [negb];
    repeat match goal with
           | |- context [r_locations w] => destruct (r_locations w)
           | |- context [r_location w] => destruct (r_location w)
           end;
    cbn; rewrite ?app_nil_r; try assumption; reflexivity.
Qed.

(** X6. The location queries and the prefetch never send a staged-upload
    request, an upload or a bulk mutation; and a run in which validation
    accepts no diff sends none either: it makes the calls of the
    preparation only and returns the validation report as it is. *)
Theorem X6_no_diff_no_mutation w locationId rows tr e :
  prepare w locationId = (tr, Some (Normal e)) ->
  st_bulkUpdates (validate e rows) = [] ->
  action w locationId rows
  = (tr, Some (Normal (st_results (validate e rows))))
  /\ existsb is_mutation (trace (action w locationId rows)) = false.
Proof.
  intros Hprep Hnone.
  assert (Hact : action w locationId rows
                 = (tr, Some (Normal (st_results (validate e rows))))).
  { unfold action. rewrite Hprep, bind_Normal. unfold execute.
    rewrite Hnone. cbn. rewrite app_nil_r. reflexivity. }
  split; [exact Hact |].
  rewrite Hact. pose proof (prepare_no_mutation w locationId) as H.
  rewrite Hprep in H. exact H.
Qed.

Lemma X6_no_diff_no_mutation_witness :
  action remote_upload_throws "L1" [row_q_bad]
  = ([QLocation "L1"; QPage None],
     Some (Normal (st_results (validate env_single [row_q_bad]))))
  /\ existsb is_mutation (trace (action remote_upload_throws "L1" [row_q_bad]))
     = false.
Proof.
  apply (X6_no_diff_no_mutation remote_upload_throws "L1" [row_q_bad]
           [QLocation "L1"; QPage None] env_single).
  - vm_compute. reflexivity.
  - vm_compute. reflexivity.
Defined.

(** X7. The pipeline is strictly sequential: it sends the upload only after
    a target request that returned a target and no user error, and it sends
    the job trigger only after an upload that was answered with an OK
    status; a report carries a bulk operation id only if the trigger was
    sent. *)
Theorem X7_trigger_only_after_successful_upload w res ups :
  (forall url params lines,
     HUpload url params lines ∈ trace (execute w res ups) ->
     exists data target others,
       r_staged w = Normal data
       /\ stageErrors_of data = [] /\ createErrors_of data = []
       /\ targets_of data = target :: others
       /\ url = tg_url target /\ lines = plan ups)
  /\ (forall path,
       MBulkRunMutation path ∈ trace (execute w res ups) ->
       exists uploadRes, r_upload w = Normal uploadRes /\ ok uploadRes = true)
  /\ (forall report opId,
       snd (execute w res ups) = Some (Normal report) ->
       bulkOperationId res = None ->
       bulkOperationId report = Some opId ->
       exists path, MBulkRunMutation path ∈ trace (execute w res ups)).
Proof.
  unfold execute, trace. destruct ups as [| u ups].
  { cbn. split; [| split].
    - intros ? ? ? H. by apply elem_of_nil in H.
    - intros ? H. by apply elem_of_nil in H.
    - intros report opId [= <-] Hn Hs. congruence. }
  set (upds := u :: ups). unfold request.
  destruct (r_staged w) as [data | e] eqn:Hst.
  2:{ cbn. split; [| split].
      - intros ? ? ? H. apply list_elem_of_singleton in H. discriminate H.
      - intros ? H. apply list_elem_of_singleton in H. discriminate H.
      - intros ? ? [=]. }
  rewrite bind_Normal.
  destruct (negb (length (stageErrors_of data) =? 0)%nat
            || negb (length (createErrors_of data) =? 0)%nat) eqn:Herr.
  { cbn. split; [| split].
    - intros ? ? ? H. apply list_elem_of_singleton in H. discriminate H.
    - intros ? H. apply list_elem_of_singleton in H. discriminate H.
    - intros report opId [= <-] Hn Hs. simpl in Hs. congruence. }
  apply orb_false_elim in Herr as [He1 He2].
  apply negb_false_iff, Nat.eqb_eq, nil_length_inv in He1, He2.
  destruct (targets_of data) as [| target others] eqn:Ht.
  { cbn. split; [| split].
    - intros ? ? ? H. apply list_elem_of_singleton in H. discriminate H.
    - intros ? H. apply list_elem_of_singleton in H. discriminate H.
    - intros report opId [= <-] Hn Hs. simpl in Hs. congruence. }
  assert (Hup_ok : forall url params lines,
            HUpload url params lines
            = HUpload (tg_url target) (tg_parameters target) (plan upds) ->
            exists data0 target0 others0,
              Normal data = Normal data0
              /\ stageErrors_of data0 = [] /\ createErrors_of data0 = []
              /\ targets_of data0 = target0 :: others0
              /\ url = tg_url target0 /\ lines = plan upds).
  { intros url params lines [= -> -> ->].
    exists data, target, others. auto 7. }
  destruct (r_upload w) as [up | e] eqn:Hup.
  2:{ cbn. split; [| split].
      - intros ? ? ? H. apply elem_of_cons in H as [H | H]; [discriminate H |].
        apply list_elem_of_singleton in H. exact (Hup_ok _ _ _ H).
      - intros ? H. apply elem_of_cons in H as [H | H]; [discriminate H |].
        apply list_elem_of_singleton in H. discriminate H.
      - intros ? ? [=]. }
  rewrite bind_Normal. destruct (ok up) eqn:Hok; cbn [negb].
  2:{ cbn. split; [| split].
      - intros ? ? ? H. apply elem_of_cons in H as [H | H]; [discriminate H |].
        apply list_elem_of_singleton in H. exact (Hup_ok _ _ _ H).
      - intros ? H. apply elem_of_cons in H as [H | H]; [discriminate H |].
        apply list_elem_of_singleton in H. discriminate H.
      - intros report opId [= <-] Hn Hs. simpl in Hs. congruence. }
  set (path := snd <$> List.find _ (tg_parameters target)).
  assert (Htrace : forall m : M results, fst m = [] ->
            fst (bind ([MBulkRunMutation path], Some (r_bulk w))
                      (fun _ => m)) = [MBulkRunMutation path]).
  { intros [l o] Hl. simpl in Hl. subst l. unfold bind.
    destruct (r_bulk w); reflexivity. }
  split; [| split].
  - intros url params lines H. cbn [fst app] in H.
    apply elem_of_cons in H as [H | H]; [discriminate H |].
    apply elem_of_cons in H as [H | H]; [exact (Hup_ok _ _ _ H) |].
    exfalso. revert H. destruct (r_bulk w) as [bulk | e]; cbn.
    + destruct (from_option bm_userErrors [] bulk);
        [destruct (or_else _ None) |]; cbn;
        intros H; apply list_elem_of_singleton in H; discriminate H.
    + intros H; apply list_elem_of_singleton in H; discriminate H.
  - intros p _. exists up. auto.
  - intros report opId _ _ _. exists path. cbn [fst app].
    apply list_elem_of_further, list_elem_of_further.
    destruct (r_bulk w) as [bulk | e]; cbn.
    + destruct (from_option bm_userErrors [] bulk);
        [destruct (or_else _ None) |]; cbn; apply list_elem_of_here.
    + apply list_elem_of_here.
Qed.

Lemma X7_trigger_only_after_successful_upload_witness :
  exists uploadRes,
    r_upload remote_partial = Normal uploadRes /\ ok uploadRes = true.
Proof.
  refine (proj1 (proj2 (X7_trigger_only_after_successful_upload remote_partial
            (initial_results [row_a1_9])
            [ {| d_inventoryItemId := "I1"; d_locationId := "L1";
                 d_quantity := 9 |} ])) (Some "tmp/updates.jsonl") _).
  vm_compute. apply list_elem_of_further, list_elem_of_further, list_elem_of_here.
Defined.

(** *** The Remote Index *)

Lemma index_levels_fold lvls :
  index_levels lvls = fold_left level_step lvls ∅.
Proof.
  unfold index_levels. generalize (∅ : gmap string Z) as m.
  induction lvls as [| lvl lvls IH]; intros m; [reflexivity |].
  simpl. rewrite IH. f_equal. unfold level_step, available.
  destruct (List.find _ (ln_quantities lvl)); reflexivity.
Qed.

Lemma level_step_lookup levels lvl loc :
  level_step levels lvl !! loc
  = match available lvl with
    | Some q => if decide (ln_location_id lvl = loc) then Some q
                else levels !! loc
    | None => levels !! loc
    end.
Proof.
  unfold level_step. destruct (available lvl) as [q |]; [| reflexivity].
  rewrite lookup_insert. reflexivity.
Qed.

Lemma fold_levels_None lvls : forall m loc,
  fold_left level_step lvls m !! loc = None
  <-> m !! loc = None
      /\ forall lvl, lvl ∈ lvls -> ln_location_id lvl = loc ->
                     available lvl = None.
Proof.
  induction lvls as [| x lvls IH]; intros m loc; simpl.
  - split; [intros H; split; [exact H |] | intros [H _]; exact H].
    intros lvl Hin. by apply elem_of_nil in Hin.
  - rewrite IH, level_step_lookup.
    destruct (available x) as [q |] eqn:Hav.
    + destruct (decide (ln_location_id x = loc)) as [Heq | Hne].
      * split; [intros [Hx _]; discriminate Hx |]. intros [_ Hall].
        specialize (Hall x (list_elem_of_here _ _) Heq). congruence.
      * split.
        -- intros [Hx Hrest]. split; [exact Hx |].
           intros lvl [-> | Hin]%elem_of_cons Hl;
             [contradiction | by apply Hrest].
        -- intros [Hm Hall]. split; [exact Hm |].
           intros lvl Hin. apply Hall. by apply list_elem_of_further.
    + split.
      * intros [Hx Hrest]. split; [exact Hx |].
        intros lvl [-> | Hin]%elem_of_cons Hl; [exact Hav | by apply Hrest].
      * intros [Hm Hall]. split; [exact Hm |].
        intros lvl Hin. apply Hall. by apply list_elem_of_further.
Qed.

Lemma fold_levels_frame lvls : forall m loc,
  (forall lvl, lvl ∈ lvls -> ln_location_id lvl = loc -> available lvl = None) ->
  fold_left level_step lvls m !! loc = m !! loc.
Proof.
  induction lvls as [| x lvls IH]; intros m loc Hall; [reflexivity |].
  simpl. rewrite IH by (intros lvl Hin; apply Hall; by apply list_elem_of_further).
  rewrite level_step_lookup.
  destruct (available x) as [q |] eqn:Hav; [| reflexivity].
  destruct (decide (ln_location_id x = loc)) as [Heq | Hne]; [| reflexivity].
  specialize (Hall x (list_elem_of_here _ _) Heq). congruence.
Qed.

(** X8. The [levels] map of an index entry has no quantity at a location
    exactly when no inventory level of the variant at that location reports
    an [available] quantity; otherwise it holds the [available] quantity of
    the last such level. *)
Theorem X8_index_levels_lookup lvls loc :
  (index_levels lvls !! loc = None
   <-> forall lvl, lvl ∈ lvls -> ln_location_id lvl = loc ->
                   available lvl = None)
  /\ (forall pre lvl post q,
        lvls = pre ++ lvl :: post ->
        ln_location_id lvl = loc -> available lvl = Some q ->
        (forall l, l ∈ post -> ln_location_id l = loc -> available l = None) ->
        index_levels lvls !! loc = Some q).
Proof.
  rewrite index_levels_fold. split.
  - rewrite fold_levels_None. split; [intros [_ H]; exact H |].
    intros H. split; [apply lookup_empty | exact H].
  - intros pre lvl post q -> Hloc Hav Hpost.
    rewrite fold_left_app. simpl.
    rewrite fold_levels_frame by exact Hpost.
    rewrite level_step_lookup, Hav, decide_True by exact Hloc. reflexivity.
Qed.

Lemma index_edge_lookup m node m' k :
  index_edge m node = Normal m' ->
  m' !! k
  = if decide (edge_key node = Some k)
    then (fun item => {| inventoryItemId := ii_id item;
                         levels := index_levels (ii_inventoryLevels item) |})
           <$> vn_inventoryItem node
    else m !! k.
Proof.
  unfold index_edge, edge_key.
  destruct (vn_sku node) as [sku |]; [| intros [= <-]; by rewrite decide_False].
  destruct (String.eqb sku EmptyString);
    [intros [= <-]; by rewrite decide_False |].
  destruct (vn_inventoryItem node) as [item |]; [| discriminate].
  intros [= <-]. rewrite lookup_insert.
  destruct (decide (toLowerCase sku = k)) as [-> | Hne].
  - rewrite decide_True by reflexivity. reflexivity.
  - rewrite decide_False by congruence. reflexivity.
Qed.

Lemma index_edges_app a : forall m b,
  index_edges m (a ++ b)
  = match index_edges m a with
    | Normal m1 => index_edges m1 b
    | Throw err => Throw err
    end.
Proof.
  induction a as [| node a IH]; intros m b; [reflexivity |].
  simpl. destruct (index_edge m node) as [m1 | err]; [apply IH | reflexivity].
Qed.

Lemma index_edges_frame edges : forall m m' k,
  index_edges m edges = Normal m' ->
  (forall node, node ∈ edges -> edge_key node <> Some k) ->
  m' !! k = m !! k.
Proof.
  induction edges as [| node edges IH]; intros m m' k; simpl.
  - intros [= <-] _. reflexivity.
  - destruct (index_edge m node) as [m1 |] eqn:H1; [| discriminate].
    intros H Hall.
    rewrite (IH m1 m' k H) by (intros n Hn; apply Hall; by apply list_elem_of_further).
    rewrite (index_edge_lookup _ _ _ k H1).
    rewrite decide_False; [reflexivity |]. apply Hall, list_elem_of_here.
Qed.

(** X9. After the prefetch indexed a list of edges without throwing, a key
    that is the case-folded SKU of none of them is as it was before; a key
    that is the case-folded SKU of some edge holds the inventory item and
    the levels of the last edge with that key, so of two variants whose
    SKUs differ only in case the later one replaces the earlier one. *)
Theorem X9_index_last_edge_wins m edges m' k :
  index_edges m edges = Normal m' ->
  ((forall node, node ∈ edges -> edge_key node <> Some k) ->
   m' !! k = m !! k)
  /\ (forall pre node post,
        edges = pre ++ node :: post ->
        edge_key node = Some k ->
        (forall n, n ∈ post -> edge_key n <> Some k) ->
        exists item,
          vn_inventoryItem node = Some item
          /\ m' !! k = Some {| inventoryItemId := ii_id item;
                               levels := index_levels (ii_inventoryLevels item) |}).
Proof.
  intros Hidx. split; [apply index_edges_frame; exact Hidx |].
  intros pre node post -> Hkey Hpost.
  rewrite index_edges_app in Hidx.
  destruct (index_edges m pre) as [m1 |]; [| discriminate].
  simpl in Hidx. destruct (index_edge m1 node) as [m2 |] eqn:H2; [| discriminate].
  rewrite (index_edges_frame _ _ _ k Hidx Hpost).
  rewrite (index_edge_lookup _ _ _ k H2), decide_True by exact Hkey.
  unfold index_edge, edge_key in *.
  destruct (vn_sku node) as [sku |]; [| discriminate].
  destruct (String.eqb sku EmptyString); [discriminate |].
  destruct (vn_inventoryItem node) as [item |]; [| discriminate].
  exists item. split; reflexivity.
Qed.

Lemma X9_index_last_edge_wins_witness :
  exists item,
    vn_inventoryItem (variant_edge "a1" "I2" "L1" 8) = Some item
    /\ <["a1" := {| inventoryItemId := "I2"; levels := {[ "L1" := 8 ]} |}]>
         index_a1 !! "a1"
       = Some {| inventoryItemId := ii_id item;
                 levels := index_levels (ii_inventoryLevels item) |}.
Proof.
  refine (proj2 (X9_index_last_edge_wins ∅
            [variant_edge "A1" "I1" "L1" 5; variant_edge "a1" "I2" "L1" 8]
            _ "a1" _)
          [variant_edge "A1" "I1" "L1" 5] (variant_edge "a1" "I2" "L1" 8) []
          eq_refl eq_refl _).
  - vm_compute. reflexivity.
  - intros n Hn. by apply elem_of_nil in Hn.
Defined.

(** X10. Pagination composes: when the replies announce a next page until
    one reply does not, the prefetch asks for the first page without a
    cursor and for every further page with the end cursor of the page
    before, asks for nothing after the last page, and returns the index of
    all edges of all pages in order. *)
Theorem X10_prefetch_indexes_all_pages replies pvs last pv_last rest m' :
  Forall2 (fun reply pv => pr_data reply = Some pv
                           /\ pv_hasNextPage pv = true) replies pvs ->
  pr_data last = Some pv_last ->
  pv_hasNextPage pv_last = false ->
  index_edges ∅ (concat (map pv_edges (pvs ++ [pv_last]))) = Normal m' ->
  prefetch ((Normal <$> replies) ++ Normal last :: rest) None ∅
  = (QPage <$> (None :: (pv_endCursor <$> pvs)), Some (Normal m')).
Proof.
  intros Hpages Hlast Hend.
  generalize (@None string) as cursor. generalize (∅ : gmap string indexEntry) as m.
  induction Hpages as [| reply pv replies pvs [Hdata Hmore] _ IH];
    intros m cursor Hidx.
  - simpl in Hidx. rewrite app_nil_r in Hidx.
    cbn [fmap list_fmap app]. rewrite prefetch_cons.
    unfold request. rewrite bind_Normal, Hlast. unfold lift.
    rewrite Hidx, bind_Normal, Hend. reflexivity.
  - cbn [app map concat] in Hidx. rewrite index_edges_app in Hidx.
    destruct (index_edges m (pv_edges pv)) as [m1 |] eqn:H1; [| discriminate].
    rewrite fmap_cons, <- app_comm_cons, prefetch_cons.
    unfold request. rewrite bind_Normal, Hdata. unfold lift.
    rewrite H1, bind_Normal, Hmore. cbn [fst snd app].
    rewrite (IH m1 (pv_endCursor pv) Hidx). reflexivity.
Qed.

Lemma X10_prefetch_indexes_all_pages_witness :
  prefetch [Normal page_a1_more; Normal page_a1_last; Throw "unused"] None ∅
  = ([QPage None; QPage (Some "c1")], Some (Normal index_a1)).
Proof.
  refine (X10_prefetch_indexes_all_pages [page_a1_more]
            [ {| pv_edges := [variant_edge "A1" "I1" "L1" 5];
                 pv_hasNextPage := true; pv_endCursor := Some "c1" |} ]
            page_a1_last
            {| pv_edges := [variant_edge "A1" "I1" "L1" 5];
               pv_hasNextPage := false; pv_endCursor := None |}
            [Throw "unused"] index_a1 _ eq_refl eq_refl _).
  - constructor; [split; reflexivity | constructor].
  - vm_compute. reflexivity.
Defined.

(** *** Location resolution *)

Lemma find_first {A} (f : A -> bool) l x :
  List.find f l = Some x
  <-> exists pre post, l = pre ++ x :: post /\ f x = true
                       /\ forall y, y ∈ pre -> f y = false.
Proof.
  induction l as [| a l IH]; simpl.
  - split; [discriminate |]. intros (pre & post & H & _).
    destruct pre; discriminate H.
  - destruct (f a) eqn:Ha.
    + split.
      * intros [= <-]. exists [], l. repeat split; [exact Ha |].
        intros y Hy. by apply elem_of_nil in Hy.
      * intros (pre & post & H & Hx & Hpre). destruct pre as [| p pre].
        -- injection H as -> _. reflexivity.
        -- injection H as -> _.
           rewrite (Hpre p (list_elem_of_here _ _)) in Ha. discriminate Ha.
    + rewrite IH. split.
      * intros (pre & post & -> & Hx & Hpre). exists (a :: pre), post.
        repeat split; [exact Hx |].
        intros y [-> | Hy]%elem_of_cons; [exact Ha | by apply Hpre].
      * intros (pre & post & H & Hx & Hpre). destruct pre as [| p pre].
        -- injection H as -> _. congruence.
        -- injection H as -> ->. exists pre, post. repeat split; [exact Hx |].
           intros y Hy. apply Hpre. by apply list_elem_of_further.
Qed.

Lemma find_none {A} (f : A -> bool) l :
  List.find f l = None <-> forall y, y ∈ l -> f y = false.
Proof.
  induction l as [| a l IH]; simpl.
  - split; [| reflexivity]. intros _ y Hy. by apply elem_of_nil in Hy.
  - destruct (f a) eqn:Ha.
    + split; [discriminate |]. intros H.
      rewrite (H a (list_elem_of_here _ _)) in Ha. discriminate Ha.
    + rewrite IH. split.
      * intros H y [-> | Hy]%elem_of_cons; [exact Ha | by apply H].
      * intros H y Hy. apply H. by apply list_elem_of_further.
Qed.

Lemma resolveLocation_label e r sku :
  resolveLocation e r sku
  = let sheetLocation := label_of r in
    if isAllLocationsMode e then
      if String.eqb sheetLocation EmptyString then
        inl (Rejected
               ("Skipped SKU " +:+ sku +:+ ": Inventory Location is required when "
                  +:+ dq +:+ "All Locations" +:+ dq +:+ " is selected")
               "Inventory Location is required for All Locations mode")
      else
        match findLocation (allLocations e) sheetLocation with
        | None =>
            inl (Rejected
                   ("Skipped SKU " +:+ sku +:+ ": Location '" +:+ sheetLocation
                      +:+ "' not found in store")
                   ("Location '" +:+ sheetLocation +:+ "' not found in store"))
        | Some foundLocation =>
            inr (loc_id foundLocation, Some (loc_name foundLocation))
        end
    else
      if String.eqb sheetLocation EmptyString then
        inr (locationId e, selectedLocationName e)
      else
        match selectedLocationName e with
        | None =>
            inl (Rejected
                   ("Error processing SKU " +:+ ToString (get r "SKU") +:+ ": "
                      +:+ TypeError_toLowerCase)
                   TypeError_toLowerCase)
        | Some name =>
            if negb (String.eqb (toLowerCase sheetLocation) (toLowerCase name))
            then
              inl (Rejected
                     ("Skipped SKU " +:+ sku +:+ ": Location in sheet '"
                        +:+ sheetLocation +:+ "' does not match selected location '"
                        +:+ name +:+ "'")
                     ("Location mismatch: '" +:+ sheetLocation +:+ "' ≠ '"
                        +:+ name +:+ "'"))
            else inr (locationId e, selectedLocationName e)
        end.
Proof. reflexivity. Qed.

(** X11. In all-locations mode a row resolves to a location exactly when
    its trimmed label is not empty and equals, up to case, the name of a
    known location; the target is then the first such location of the list
    (a later location whose name differs only in case is never targeted),
    with that location's id and name.  A row without label is rejected as
    lacking the location, a row whose label matches no name as location not
    found. *)
Theorem X11_all_locations_resolution e r sku :
  isAllLocationsMode e = true ->
  (forall tid tname,
     resolveLocation e r sku = inr (tid, tname)
     <-> label_of r <> EmptyString
         /\ exists pre loc post,
              allLocations e = pre ++ loc :: post
              /\ toLowerCase (loc_name loc) = toLowerCase (label_of r)
              /\ (forall l, l ∈ pre ->
                    toLowerCase (loc_name l) <> toLowerCase (label_of r))
              /\ tid = loc_id loc /\ tname = Some (loc_name loc))
  /\ (label_of r = EmptyString ->
      exists err, resolveLocation e r sku
                  = inl (Rejected err
                           "Inventory Location is required for All Locations mode"))
  /\ (label_of r <> EmptyString ->
      (forall l, l ∈ allLocations e ->
         toLowerCase (loc_name l) <> toLowerCase (label_of r)) ->
      exists err, resolveLocation e r sku
                  = inl (Rejected err ("Location '" +:+ label_of r
                                         +:+ "' not found in store"))).
Proof.
  intros Hall. rewrite resolveLocation_label. cbn zeta. rewrite Hall.
  split; [| split].
  - intros tid tname. destruct (String.eqb_spec (label_of r) EmptyString) as [He | Hne].
    { split; [discriminate | intros [H _]; contradiction]. }
    unfold findLocation.
    destruct (List.find _ (allLocations e)) as [found |] eqn:Hf.
    + apply find_first in Hf as (pre & post & Hl & Hx & Hpre).
      apply String.eqb_eq in Hx. split.
      * intros [= <- <-]. split; [exact Hne |].
        exists pre, found, post. repeat split; try assumption.
        intros l Hin. specialize (Hpre l Hin). by apply String.eqb_neq in Hpre.
      * intros (_ & pre' & loc & post' & Hl' & Hx' & Hpre' & -> & ->).
        assert (Hfind : List.find
                  (fun loc0 => String.eqb (toLowerCase (loc_name loc0))
                                          (toLowerCase (label_of r)))
                  (allLocations e) = Some loc).
        { apply find_first. exists pre', post'. repeat split; try assumption.
          - by apply String.eqb_eq.
          - intros y Hy. apply String.eqb_neq, Hpre', Hy. }
        assert (Hfound : List.find
                  (fun loc0 => String.eqb (toLowerCase (loc_name loc0))
                                          (toLowerCase (label_of r)))
                  (allLocations e) = Some found).
        { apply find_first. exists pre, post. repeat split; try assumption.
          by apply String.eqb_eq. }
        rewrite Hfind in Hfound. injection Hfound as ->. reflexivity.
    + split; [discriminate |].
      intros (_ & pre & loc & post & Hl & Hx & _).
      rewrite find_none in Hf.
      assert (Hin : loc ∈ allLocations e).
      { rewrite Hl. apply elem_of_app. right. apply list_elem_of_here. }
      specialize (Hf loc Hin). apply String.eqb_neq in Hf. contradiction.
  - intros ->. simpl. eauto.
  - intros Hne Hnone.
    destruct (String.eqb_spec (label_of r) EmptyString) as [He | _];
      [contradiction |].
    unfold findLocation.
    destruct (List.find _ (allLocations e)) as [found |] eqn:Hf; [| eauto].
    apply find_first in Hf as (pre & post & Hl & Hx & _).
    apply String.eqb_eq in Hx. exfalso. apply (Hnone found); [| exact Hx].
    rewrite Hl. apply elem_of_app. right. apply list_elem_of_here.
Qed.

Lemma X11_all_locations_resolution_witness :
  resolveLocation env_two_mains
    (sheet_row (JStr "A1") (JNum 9) (JStr " main ")) "A1"
  = inr ("L1", Some "Main").
Proof.
  apply (proj1 (X11_all_locations_resolution env_two_mains
                  (sheet_row (JStr "A1") (JNum 9) (JStr " main ")) "A1"
                  eq_refl)).
  split; [discriminate |].
  exists [], {| loc_id := "L1"; loc_name := "Main" |},
         [ {| loc_id := "L2"; loc_name := "MAIN" |} ].
  repeat split. intros l Hl. by apply elem_of_nil in Hl.
Defined.

(** X12. In single-location mode a row never targets anything but the
    selected location.  With a known location name it resolves exactly when
    it has no label or its label equals that name up to case; when the name
    query returned no name it resolves exactly when it has no label. *)
Theorem X12_single_location_resolution e r sku :
  isAllLocationsMode e = false ->
  (forall target, resolveLocation e r sku = inr target ->
                  target = (locationId e, selectedLocationName e))
  /\ (forall name, selectedLocationName e = Some name ->
        ((exists target, resolveLocation e r sku = inr target)
         <-> label_of r = EmptyString
             \/ toLowerCase (label_of r) = toLowerCase name))
  /\ (selectedLocationName e = None ->
      ((exists target, resolveLocation e r sku = inr target)
       <-> label_of r = EmptyString)).
Proof.
  intros Hmode. rewrite resolveLocation_label. cbn zeta. rewrite Hmode.
  destruct (String.eqb_spec (label_of r) EmptyString) as [He | Hne].
  - split; [| split].
    + intros target [= <-]. reflexivity.
    + intros name _. split; [auto | eauto].
    + intros _. split; [auto | eauto].
  - split; [| split].
    + intros target. destruct (selectedLocationName e) as [name |];
        [| discriminate].
      destruct (negb _); [discriminate |]. intros [= <-]. reflexivity.
    + intros name ->.
      destruct (String.eqb_spec (toLowerCase (label_of r)) (toLowerCase name))
        as [Heq | Hneq]; simpl.
      * split; [auto | eauto].
      * split; [intros [? [=]] | intros [? | ?]; contradiction].
    + intros ->. split; [intros [? [=]] | contradiction].
Qed.

Lemma X12_single_location_resolution_witness :
  exists target,
    resolveLocation env_single (sheet_row (JStr "A1") (JNum 9) (JStr "MAIN")) "A1"
    = inr target.
Proof.
  apply (proj1 (proj2 (X12_single_location_resolution env_single
           (sheet_row (JStr "A1") (JNum 9) (JStr "MAIN")) "A1" eq_refl))
         "Main" eq_refl).
  right. reflexivity.
Defined.

(** *** Trimming and case folding *)

Lemma is_space_lower c : is_space (lower c) = is_space c.
Proof. destruct c as [[] [] [] [] [] [] [] []]; reflexivity. Qed.

Lemma toLowerCase_empty s :
  String.eqb (toLowerCase s) EmptyString = String.eqb s EmptyString.
Proof. destruct s; reflexivity. Qed.

Lemma toLowerCase_length s : String.length (toLowerCase s) = String.length s.
Proof. induction s as [| c s IH]; simpl; [reflexivity | by rewrite IH]. Qed.

Lemma trimStart_toLowerCase s :
  trimStart (toLowerCase s) = toLowerCase (trimStart s).
Proof.
  induction s as [| c s IH]; [reflexivity |].
  simpl. rewrite is_space_lower. destruct (is_space c); [exact IH | reflexivity].
Qed.

Lemma trimEnd_toLowerCase s :
  trimEnd (toLowerCase s) = toLowerCase (trimEnd s).
Proof.
  induction s as [| c s IH]; [reflexivity |].
  simpl. rewrite IH, is_space_lower, toLowerCase_empty.
  destruct (is_space c && String.eqb (trimEnd s) EmptyString); reflexivity.
Qed.

Lemma trim_toLowerCase s : trim (toLowerCase s) = toLowerCase (trim s).
Proof. unfold trim. rewrite trimStart_toLowerCase. apply trimEnd_toLowerCase. Qed.

Lemma trimEnd_idem s : trimEnd (trimEnd s) = trimEnd s.
Proof.
  induction s as [| c s IH]; [reflexivity |].
  simpl. destruct (is_space c && String.eqb (trimEnd s) EmptyString) eqn:Hc;
    [reflexivity |].
  simpl. rewrite IH, Hc. reflexivity.
Qed.

Lemma trimStart_clean s :
  trimStart (trimEnd (trimStart s)) = trimEnd (trimStart s).
Proof.
  induction s as [| c s IH]; [reflexivity |].
  simpl. destruct (is_space c) eqn:Hc; [exact IH |].
  simpl. rewrite Hc. simpl. rewrite Hc. reflexivity.
Qed.

Lemma trim_idem s : trim (trim s) = trim s.
Proof. unfold trim. rewrite trimStart_clean. apply trimEnd_idem. Qed.

Lemma trimStart_length s :
  (String.length (trimStart s) <= String.length s)%nat
  /\ (String.length (trimStart s) = String.length s -> trimStart s = s).
Proof.
  induction s as [| c s [IH1 IH2]]; [split; reflexivity |].
  simpl. destruct (is_space c); simpl; split; try reflexivity; lia.
Qed.

Lemma trimEnd_length s :
  (String.length (trimEnd s) <= String.length s)%nat
  /\ (String.length (trimEnd s) = String.length s -> trimEnd s = s).
Proof.
  induction s as [| c s [IH1 IH2]]; [split; reflexivity |].
  simpl. destruct (is_space c && String.eqb (trimEnd s) EmptyString); simpl.
  - split; [lia | discriminate].
  - split; [lia |]. intros [= H]. rewrite (IH2 H). reflexivity.
Qed.

Lemma trim_length s :
  String.length (trim s) = String.length s -> trim s = s.
Proof.
  unfold trim. intros H.
  destruct (trimStart_length s) as [S1 S2].
  destruct (trimEnd_length (trimStart s)) as [E1 E2].
  rewrite E2 by lia. apply S2. lia.
Qed.

(** X13. The index stores a variant under its case-folded SKU without
    trimming it, while a sheet row is looked up under its trimmed,
    case-folded SKU.  A remote variant whose SKU starts or ends with white
    space is therefore stored under a key that no sheet row can have. *)
Theorem X13_untrimmed_remote_sku_is_unreachable node sku r :
  vn_sku node = Some sku ->
  trim sku <> sku ->
  edge_key node <> Some (skuKey_of r).
Proof.
  intros Hsku Htrim. unfold edge_key. rewrite Hsku.
  destruct (String.eqb sku EmptyString); [discriminate |].
  intros [= Hkey]. apply Htrim, trim_length.
  assert (Hclean : trim (skuKey_of r) = skuKey_of r).
  { unfold skuKey_of, sku_of. rewrite trim_toLowerCase, trim_idem. reflexivity. }
  rewrite <- (toLowerCase_length (trim sku)), <- trim_toLowerCase.
  rewrite Hkey, Hclean, <- Hkey. apply toLowerCase_length.
Qed.

Lemma X13_untrimmed_remote_sku_is_unreachable_witness :
  edge_key (variant_edge "A1 " "I1" "L1" 5)
  <> Some (skuKey_of (sheet_row (JStr "A1 ") (JNum 9) JNull)).
Proof.
  apply (X13_untrimmed_remote_sku_is_unreachable _ "A1 ");
    [reflexivity | discriminate].
Defined.

(** *** Edge cases of the poll *)

(** X14. Once the status query resolved, the import loader returns a value
    whatever the node is and whatever happens to the result file: it never
    throws, and it sends the status query and at most one fetch.  For a
    completed job whose result file cannot be fetched it reports the job as
    completed with nothing updated and no error; for a completed job
    without result url it does not fetch anything and reports the object
    count the remote gave (zero when it is not a number) as updated. *)
Theorem X14_poll_always_answers w operationId node :
  p_node w = Normal node ->
  (exists data tr,
     loader w operationId = (QNode operationId :: tr, Some (Normal data))
     /\ (length tr <= 1)%nat)
  /\ (forall op url err,
        node = Some op -> bo_status op = "COMPLETED" ->
        or_else (bo_url op) None = Some url -> p_file w = Throw err ->
        loader w operationId
        = ([QNode operationId; HFetch url],
           Some (Normal (PollCompleted {| br_updated := 0; br_errors := [] |}))))
  /\ (forall op,
        node = Some op -> bo_status op = "COMPLETED" ->
        or_else (bo_url op) None = None ->
        loader w operationId
        = ([QNode operationId],
           Some (Normal (PollCompleted
                           {| br_updated := default 0 (parseInt (bo_objectCount op));
                              br_errors := [] |})))).
Proof.
  intros Hnode. unfold loader, request. rewrite Hnode, bind_Normal.
  cbv beta iota. split; [| split].
  - destruct node as [op |]; [| cbn; eexists _, []; split; [reflexivity | simpl; lia]].
    destruct (String.eqb (bo_status op) "COMPLETED").
    + destruct (or_else (bo_url op) None) as [url |].
      * destruct (p_file w) as [lines | err]; cbn;
          eexists _, [_]; split; try reflexivity; simpl; lia.
      * cbn. eexists _, []. split; [reflexivity | simpl; lia].
    + destruct (String.eqb (bo_status op) "RUNNING"
                || String.eqb (bo_status op) "CREATED");
        cbn; eexists _, []; (split; [reflexivity | simpl; lia]).
  - intros op url err -> Hst Hurl Hfile. rewrite Hst, Hurl, Hfile. reflexivity.
  - intros op -> Hst Hurl. rewrite Hst, Hurl. reflexivity.
Qed.

Lemma X14_poll_always_answers_witness :
  loader poll_unreachable_file "op1"
  = ([QNode "op1"; HFetch "https://result"],
     Some (Normal (PollCompleted {| br_updated := 0; br_errors := [] |}))).
Proof.
  apply (proj1 (proj2 (X14_poll_always_answers poll_unreachable_file "op1"
                         (Some completed_op) eq_refl))
           completed_op "https://result" "fetch failed"); reflexivity.
Defined.

End ImportMoreFacts.

(** ** Further properties of the export route *)
Module ExportMoreFacts.
Import JS Remote RemoteFacts ExportRoute ExportViews ExportMoreViews ExportFacts.

(** *** The submission *)

(** X15. Whatever the remote answers, one run of the export action submits
    the bulk query at most twice, cancels at most twice (once before the
    first submission, once before the retry) and sends at most six requests
    in all. *)
Theorem X15_export_action_call_bounds w locationId :
  (length (List.filter is_submission (trace (action w locationId))) <= 2)%nat
  /\ (length (List.filter is_cancel (trace (action w locationId))) <= 2)%nat
  /\ (length (trace (action w locationId)) <= 6)%nat.
Proof.
  unfold action, trace, request.
  destruct (x_current w) as [currentOp | e1]; [| cbn; lia].
  rewrite bind_Normal.
  assert (Hpre : exists l, (match currentOp with
                  | Some op =>
                      if negb (String.eqb (co_status op) "COMPLETED")
                      then cancelOperation (co_id op) (x_cancel w)
                      else ret tt
                  | None => ret tt
                  end) = (l, Some (Normal tt))
                 /\ (length l <= 1)%nat
                 /\ length (List.filter is_submission l) = 0%nat
                 /\ (length (List.filter is_cancel l) <= 1)%nat).
  { destruct currentOp as [op |]; [| exists []; cbn; repeat split; lia].
    destruct (negb _); [| exists []; cbn; repeat split; lia].
    rewrite cancelOperation_completes. exists [MCancel (co_id op)].
    cbn. repeat split; lia. }
  destruct Hpre as (l1 & -> & Hl1 & Hs1 & Hc1). rewrite bind_Normal.
  destruct (x_run w) as [first | e2];
    [| cbn; rewrite !List.filter_app, !length_app; cbn; lia].
  rewrite bind_Normal.
  assert (Hfin : forall result : option bulkOperationRunQuery,
            fst (match userErrors_of result with
                 | [] =>
                     match result with
                     | Some rq =>
                         match rq_bulkOperation_id rq with
                         | Some id => ret (SubmitCreated locationId id)
                         | None => lift (Throw TypeError_result)
                         end
                     | None => lift (Throw TypeError_result)
                     end
                 | message :: _ => ret (SubmitFailed message)
                 end) = []).
  { intros result. destruct (userErrors_of result); [| reflexivity].
    destruct result as [rq |]; [| reflexivity].
    destruct (rq_bulkOperation_id rq); reflexivity. }
  destruct (existsb _ (userErrors_of first)).
  - destruct (x_retry_current w) as [retryOp | e3];
      [| cbn; rewrite !List.filter_app, !length_app; cbn; lia].
    rewrite bind_Normal.
    assert (Hcan : exists l, (match or_else retryOp None with
                     | Some id => cancelOperation id (x_retry_cancel w)
                     | None => ret tt
                     end) = (l, Some (Normal tt))
                    /\ (length l <= 1)%nat
                    /\ length (List.filter is_submission l) = 0%nat
                    /\ (length (List.filter is_cancel l) <= 1)%nat).
    { destruct (or_else retryOp None) as [id |];
        [| exists []; cbn; repeat split; lia].
      rewrite cancelOperation_completes. exists [MCancel id].
      cbn. repeat split; lia. }
    destruct Hcan as (l2 & -> & Hl2 & Hs2 & Hc2). rewrite bind_Normal.
    cbn [fst snd].
    destruct (x_retry_run w) as [retry | e4].
    + rewrite bind_Normal. cbn [fst snd]. rewrite Hfin. clear Hfin.
      rewrite !List.filter_app, !length_app. cbn.
      set (s1 := length (List.filter is_submission l1)) in *.
      set (s2 := length (List.filter is_submission l2)) in *.
      set (k1 := length (List.filter is_cancel l1)) in *.
      set (k2 := length (List.filter is_cancel l2)) in *.
      clearbody s1 s2 k1 k2. lia.
    + clear Hfin. cbn [fst snd bind].
      rewrite !List.filter_app, !length_app. cbn.
      set (s1 := length (List.filter is_submission l1)) in *.
      set (s2 := length (List.filter is_submission l2)) in *.
      set (k1 := length (List.filter is_cancel l1)) in *.
      set (k2 := length (List.filter is_cancel l2)) in *.
      clearbody s1 s2 k1 k2. lia.
  - rewrite bind_ret. cbn [fst snd]. rewrite Hfin.
    clear Hfin. rewrite !List.filter_app, !length_app. cbn.
    set (s1 := length (List.filter is_submission l1)) in *.
    set (k1 := length (List.filter is_cancel l1)) in *.
    clearbody s1 k1. lia.
Qed.

(** X16. A cancellation that fails does not change the run: the action
    makes the same calls and ends the same way whatever the two
    cancellation requests answer. *)
Theorem X16_cancel_failure_is_ignored w c1 c2 locationId :
  action (with_cancel_replies w c1 c2) locationId = action w locationId.
Proof.
  unfold action, with_cancel_replies. cbn [x_current x_cancel x_run
    x_retry_current x_retry_cancel x_retry_run]. unfold request.
  destruct (x_current w) as [currentOp | e1]; [| reflexivity].
  rewrite !bind_Normal.
  assert (Hpre : forall c, (match currentOp with
                  | Some op =>
                      if negb (String.eqb (co_status op) "COMPLETED")
                      then cancelOperation (co_id op) c
                      else ret tt
                  | None => ret tt
                  end) = (precancel_calls currentOp, Some (Normal tt))).
  { intros c. unfold precancel_calls. destruct currentOp as [op |]; [| reflexivity].
    destruct (negb _); [apply cancelOperation_completes | reflexivity]. }
  rewrite (Hpre c1), (Hpre (x_cancel w)), !bind_Normal.
  destruct (x_run w) as [first | e2]; [| reflexivity].
  rewrite !bind_Normal.
  destruct (existsb _ (userErrors_of first)); [| reflexivity].
  destruct (x_retry_current w) as [retryOp | e3]; [| reflexivity].
  rewrite !bind_Normal.
  assert (Hcan : forall c, (match or_else retryOp None with
                   | Some id => cancelOperation id c
                   | None => ret tt
                   end) = (cancel_calls retryOp, Some (Normal tt))).
  { intros c. unfold cancel_calls. destruct (or_else retryOp None);
      [apply cancelOperation_completes | reflexivity]. }
  rewrite (Hcan c2), (Hcan (x_retry_cancel w)). reflexivity.
Qed.

(** X17. A first submission whose user errors do not mention a job in
    progress is never retried: the action submits once, returns the first
    user error as the failure if there is one, and otherwise returns the id
    of the created operation together with the location id it was given. *)
Theorem X17_submission_without_conflict w locationId currentOp first :
  x_current w = Normal currentOp ->
  x_run w = Normal first ->
  mentions_in_progress first = false ->
  trace (action w locationId)
  = [QCurrentOp] ++ precancel_calls currentOp ++ [MRunQuery]
  /\ (forall message more,
        userErrors_of first = message :: more ->
        outcome_of (action w locationId) = Some (Normal (SubmitFailed message)))
  /\ (forall rq id,
        first = Some rq -> rq_userErrors rq = [] ->
        rq_bulkOperation_id rq = Some id ->
        outcome_of (action w locationId)
        = Some (Normal (SubmitCreated locationId id))).
Proof.
  intros Hcur Hrun Hprog. unfold mentions_in_progress in Hprog.
  assert (Hpre : (match currentOp with
                  | Some op =>
                      if negb (String.eqb (co_status op) "COMPLETED")
                      then cancelOperation (co_id op) (x_cancel w)
                      else ret tt
                  | None => ret tt
                  end) = (precancel_calls currentOp, Some (Normal tt))).
  { unfold precancel_calls. destruct currentOp as [op |]; [| reflexivity].
    destruct (negb _); [apply cancelOperation_completes | reflexivity]. }
  unfold action, trace, outcome_of, request.
  rewrite Hcur, bind_Normal. cbv beta.
  rewrite Hpre, bind_Normal. cbv beta.
  rewrite Hrun, bind_Normal. cbv beta.
  rewrite Hprog, bind_ret. cbn [fst snd].
  split; [| split].
  - destruct (userErrors_of first); [| rewrite app_nil_r; reflexivity].
    destruct first as [rq |]; [| rewrite app_nil_r; reflexivity].
    destruct (rq_bulkOperation_id rq); rewrite app_nil_r; reflexivity.
  - intros message more ->. reflexivity.
  - intros rq id -> Herr Hid. unfold userErrors_of. simpl.
    rewrite Herr, Hid. reflexivity.
Qed.

Lemma X17_submission_without_conflict_witness :
  trace (action remote_idle "L1") = [QCurrentOp; MRunQuery]
  /\ outcome_of (action remote_idle "L1")
     = Some (Normal (SubmitCreated "L1" "gid://shopify/BulkOperation/2")).
Proof.
  pose proof (X17_submission_without_conflict remote_idle "L1" None run_created
                eq_refl eq_refl eq_refl) as (Htr & _ & Hok).
  split; [exact Htr |].
  exact (Hok _ _ eq_refl eq_refl eq_refl).
Defined.

(** *** The tree *)

(** The lines stored in the heap are never rewritten. *)
Lemma alter_h_line (f : hobj -> hobj) i (heap0 : list hobj) r :
  (forall h, h_line (f h) = h_line h) ->
  h_line <$> (alter f i heap0 !! r) = h_line <$> (heap0 !! r).
Proof.
  intros Hf. destruct (decide (i = r)) as [-> | Hne].
  - rewrite list_lookup_alter_eq. destruct (heap0 !! r); simpl; [| reflexivity].
    by rewrite Hf.
  - by rewrite list_lookup_alter_ne.
Qed.

Lemma add_line_heap_lookup st obj r h :
  heap st !! r = Some h ->
  h_line <$> (heap (add_line st obj) !! r) = Some (h_line h).
Proof.
  intros Hr. pose proof (lookup_lt_Some _ _ _ Hr) as Hlt.
  unfold add_line.
  destruct (id_includes obj "Product" && negb (nonempty (j_sku obj))).
  { cbn [heap]. rewrite lookup_app_l by exact Hlt. by rewrite Hr. }
  destruct (id_includes obj "ProductVariant").
  { cbn [heap]. destruct (lookup_parent (productsMap st) obj) as [p |].
    - rewrite lookup_app_l by (rewrite length_alter; exact Hlt).
      rewrite alter_h_line by reflexivity. by rewrite Hr.
    - rewrite lookup_app_l by exact Hlt. by rewrite Hr. }
  destruct (id_includes obj "InventoryLevel" || _); [| by rewrite Hr].
  match goal with |- context [match ?o with Some _ => _ | None => st end] =>
    destruct o as [v |] end; [| by rewrite Hr].
  cbn [heap]. rewrite alter_h_line by reflexivity. by rewrite Hr.
Qed.

Lemma add_line_products st obj :
  products (add_line st obj)
  = products st ++ (if is_product_line obj then [length (heap st)] else [])
  /\ (is_product_line obj = true ->
      heap (add_line st obj) !! length (heap st)
      = Some {| h_line := obj; h_variants := []; h_levels := [] |}).
Proof.
  unfold add_line, is_product_line.
  destruct (id_includes obj "Product" && negb (nonempty (j_sku obj))).
  { cbn [products heap]. split; [reflexivity |]. intros _.
    rewrite lookup_app_r by lia. rewrite Nat.sub_diag. reflexivity. }
  split; [| discriminate]. rewrite app_nil_r.
  destruct (id_includes obj "ProductVariant"); [reflexivity |].
  destruct (id_includes obj "InventoryLevel" || _); [| reflexivity].
  match goal with |- context [match ?o with Some _ => _ | None => st end] =>
    destruct o as [v |] end; reflexivity.
Qed.

Lemma build_products objs : forall st stored_lines,
  Forall2 (fun r obj => h_line <$> (heap st !! r) = Some obj)
          (products st) stored_lines ->
  Forall2 (fun r obj => h_line <$> (heap (fold_left add_line objs st) !! r)
                        = Some obj)
          (products (fold_left add_line objs st))
          (stored_lines ++ List.filter is_product_line objs).
Proof.
  induction objs as [| obj objs IH]; intros st stored_lines Hinv.
  - simpl. rewrite app_nil_r. exact Hinv.
  - cbn [fold_left List.filter].
    destruct (add_line_products st obj) as [Hprod Hfresh].
    replace (stored_lines ++ (if is_product_line obj
                              then obj :: List.filter is_product_line objs
                              else List.filter is_product_line objs))
      with ((stored_lines ++ (if is_product_line obj then [obj] else []))
              ++ List.filter is_product_line objs)
      by (destruct (is_product_line obj); rewrite <- app_assoc; reflexivity).
    apply IH. rewrite Hprod. apply Forall2_app.
    + eapply Forall2_impl; [exact Hinv |]. intros r o Hr. cbv beta in *.
      destruct (heap st !! r) as [h |] eqn:Hh; [| discriminate].
      rewrite (add_line_heap_lookup st obj r h Hh). exact Hr.
    + destruct (is_product_line obj) eqn:Hp; [| constructor].
      constructor; [| constructor]. rewrite (Hfresh eq_refl). reflexivity.
Qed.

(** X18. Every line of the result file that the loader classifies as a
    product becomes a product object of the tree, and the products of the
    tree are exactly these lines, in file order; lines that do not parse
    and lines of other kinds add no product. *)
Theorem X18_products_in_file_order lines :
  h_line <$> products_of (build lines)
  = List.filter is_product_line (omap id lines).
Proof.
  unfold build. rewrite build_drops_malformed.
  pose proof (build_products (omap id lines) empty_state []
                ltac:(constructor)) as H.
  simpl in H. unfold products_of.
  set (st := fold_left add_line (omap id lines) empty_state) in *.
  revert H. generalize (List.filter is_product_line (omap id lines)).
  generalize (products st). intros refs objs H.
  induction H as [| r obj refs objs Hr _ IH]; [reflexivity |].
  cbn [omap list_omap]. fold (@omap list _ _ _ (fun r => heap st !! r) refs).
  destruct (heap st !! r) as [h |]; [| discriminate].
  simpl in Hr. injection Hr as <-. rewrite fmap_cons. f_equal. exact IH.
Qed.

(** *** Variants that come before their product *)

Lemma elem_of_alter (f : hobj -> hobj) i (l : list hobj) h :
  h ∈ alter f i l -> h ∈ l \/ exists y, y ∈ l /\ h = f y.
Proof.
  intros [j Hj]%list_elem_of_lookup.
  destruct (decide (i = j)) as [-> | Hne].
  - rewrite list_lookup_alter_eq in Hj.
    destruct (l !! j) as [y |] eqn:Hy; [| discriminate].
    injection Hj as <-. right. exists y. split; [| reflexivity].
    eapply list_elem_of_lookup_2, Hy.
  - rewrite list_lookup_alter_ne in Hj by exact Hne.
    left. eapply list_elem_of_lookup_2, Hj.
Qed.

(** What one parsed line does to the [variants] arrays: they keep their
    entries, and the only entry ever added is the reference of the object
    being stored. *)
Lemma add_line_variants st obj h x :
  h ∈ heap (add_line st obj) -> x ∈ h_variants h ->
  (exists h0, h0 ∈ heap st /\ x ∈ h_variants h0)
  \/ (x = length (heap st)
      /\ is_variant_line obj = true
      /\ is_Some (lookup_parent (productsMap st) obj)).
Proof.
  unfold add_line, is_variant_line, is_product_line.
  destruct (id_includes obj "Product" && negb (nonempty (j_sku obj))).
  { cbn [heap]. intros [Hh | Hh%list_elem_of_singleton]%elem_of_app Hx.
    - left. eauto.
    - subst h. by apply elem_of_nil in Hx. }
  destruct (id_includes obj "ProductVariant").
  { cbn [heap]. intros [Hh | Hh%list_elem_of_singleton]%elem_of_app Hx.
    - destruct (lookup_parent (productsMap st) obj) as [p |]; [| left; eauto].
      apply elem_of_alter in Hh as [Hh | (y & Hy & ->)]; [left; eauto |].
      cbn [push_variant h_variants] in Hx.
      apply elem_of_app in Hx as [Hx | Hx%list_elem_of_singleton];
        [left; eauto | right; auto].
    - subst h. by apply elem_of_nil in Hx. }
  destruct (id_includes obj "InventoryLevel" || _); [| left; eauto].
  match goal with |- context [match ?o with Some _ => _ | None => st end] =>
    destruct o as [v |] end; [| left; eauto].
  cbn [heap]. intros Hh Hx.
  apply elem_of_alter in Hh as [Hh | (y & Hy & ->)]; left; eauto.
Qed.

Lemma add_line_heap_length st obj :
  (length (heap st) <= length (heap (add_line st obj)))%nat
  /\ (is_variant_line obj = true ->
      length (heap (add_line st obj)) = S (length (heap st))).
Proof.
  unfold add_line, is_variant_line, is_product_line.
  destruct (id_includes obj "Product" && negb (nonempty (j_sku obj))).
  { cbn [heap]. rewrite length_app. simpl. split; [lia | discriminate]. }
  destruct (id_includes obj "ProductVariant").
  { cbn [heap]. rewrite length_app.
    destruct (lookup_parent (productsMap st) obj);
      rewrite ?length_alter; simpl; split; lia. }
  split; [| discriminate].
  destruct (id_includes obj "InventoryLevel" || _); [| lia].
  match goal with |- context [match ?o with Some _ => _ | None => st end] =>
    destruct o as [v |] end; [| lia].
  cbn [heap]. rewrite length_alter. lia.
Qed.

Lemma build_variants_in_heap objs : forall st,
  variants_in_heap st -> variants_in_heap (fold_left add_line objs st).
Proof.
  induction objs as [| obj objs IH]; intros st Hst; [exact Hst |].
  simpl. apply IH. intros h x Hh Hx.
  destruct (add_line_heap_length st obj) as [Hlen Hvar].
  destruct (add_line_variants st obj h x Hh Hx)
    as [(h0 & Hh0 & Hx0) | (-> & Hv & _)].
  - specialize (Hst h0 x Hh0 Hx0). lia.
  - rewrite (Hvar Hv). lia.
Qed.

Lemma build_unattached objs r : forall st,
  (r < length (heap st))%nat -> unattached r st ->
  unattached r (fold_left add_line objs st).
Proof.
  induction objs as [| obj objs IH]; intros st Hlt Hst; [exact Hst |].
  simpl. destruct (add_line_heap_length st obj) as [Hlen _].
  apply IH; [lia |]. intros h Hh Hx.
  destruct (add_line_variants st obj h r Hh Hx)
    as [(h0 & Hh0 & Hx0) | (-> & _)]; [exact (Hst h0 Hh0 Hx0) | lia].
Qed.

(** X19. A variant line is attached to its product only if the product's
    line comes earlier in the file.  A variant line whose parent is not yet
    known when it is read is stored, but its reference never enters the
    [variants] array of any object, whatever lines follow: the projection,
    which walks these arrays, cannot reach it. *)
Theorem X19_variant_before_its_product_is_dropped pre v post :
  is_variant_line v = true ->
  lookup_parent (productsMap (build pre)) v = None ->
  let r := length (heap (build pre)) in
  let st := build (pre ++ Some v :: post) in
  h_line <$> (heap st !! r) = Some v /\ unattached r st.
Proof.
  intros Hv Hparent r st.
  assert (Hst : st = fold_left add_line (omap id post)
                       (add_line (build pre) v)).
  { subst st. unfold build. rewrite fold_left_app. simpl.
    rewrite build_drops_malformed. reflexivity. }
  assert (Hinv : variants_in_heap (build pre)).
  { unfold build. rewrite build_drops_malformed.
    apply build_variants_in_heap. intros h x Hh. by apply elem_of_nil in Hh. }
  destruct (add_line_heap_length (build pre) v) as [_ Hlen].
  specialize (Hlen Hv). fold r in Hlen.
  assert (H1 : unattached r (add_line (build pre) v)).
  { intros h Hh Hx.
    destruct (add_line_variants (build pre) v h r Hh Hx)
      as [(h0 & Hh0 & Hx0) | (_ & _ & Hsome)].
    - specialize (Hinv h0 r Hh0 Hx0). subst r. lia.
    - rewrite Hparent in Hsome. by destruct Hsome. }
  assert (Hun : unattached r st).
  { rewrite Hst. apply build_unattached; [lia | exact H1]. }
  assert (Hline : h_line <$> (heap (add_line (build pre) v) !! r) = Some v).
  { unfold add_line, is_variant_line, is_product_line in *.
    destruct (id_includes v "Product" && negb (nonempty (j_sku v)));
      [discriminate |].
    simpl in Hv. rewrite Hv, Hparent. cbn [heap].
    rewrite lookup_app_r by (subst r; lia).
    subst r. rewrite Nat.sub_diag. reflexivity. }
  split; [| exact Hun].
  rewrite Hst. clear -Hline. revert Hline.
    generalize (add_line (build pre) v) as st0.
    induction (omap id post) as [| obj objs IH]; intros st0 Hl; [exact Hl |].
    simpl. apply IH.
    destruct (heap st0 !! r) as [h |] eqn:Hh; [| discriminate].
  rewrite (add_line_heap_lookup st0 obj r h Hh). exact Hl.
Qed.

Lemma X19_variant_before_its_product_is_dropped_witness :
  unattached 0 (build file_variant_first).
Proof.
  exact (proj2 (X19_variant_before_its_product_is_dropped []
           (variant_line "gid://shopify/ProductVariant/11" "SH-1"
              "gid://shopify/Product/1" "gid://shopify/InventoryItem/21")
           [ Some (product_line "gid://shopify/Product/1" "Shirt");
             Some (level_line "gid://shopify/InventoryLevel/31?inventory_item_id=21"
                     "gid://shopify/ProductVariant/11" "L1" "Main" 4) ]
           eq_refl eq_refl)).
Defined.

End ExportMoreFacts.

(** ** Export: when the projection fails *)
Module ExportFailureFacts.
Import JS Remote RemoteFacts ExportRoute ExportViews ExportMoreViews ClientViews.

Lemma collect_throws {A} (f : A -> completion (list exportRow)) xs :
  throws (collect f xs) = existsb (fun x => throws (f x)) xs.
Proof.
  induction xs as [| x xs IH]; [reflexivity |].
  cbn [collect existsb]. destruct (f x) as [rs | e]; [| reflexivity].
  cbn [throws orb]. rewrite <- IH. destruct (collect f xs); reflexivity.
Qed.

Lemma filter_levels_throws locationId levels :
  throws (filter_levels locationId levels) = existsb no_location levels.
Proof.
  induction levels as [| level levels IH]; [reflexivity |].
  cbn [filter_levels existsb]. unfold no_location at 1.
  destruct (j_location level) as [loc |].
  - rewrite (bool_decide_eq_true_2 (is_Some (Some loc)))
      by (eexists; reflexivity).
    cbn [negb orb]. rewrite <- IH.
    destruct (filter_levels locationId levels); reflexivity.
  - rewrite (bool_decide_eq_false_2 (is_Some None))
      by (intros [? ?]; discriminate).
    reflexivity.
Qed.

Lemma filter_levels_Normal locationId levels kept :
  filter_levels locationId levels = Normal kept ->
  kept = List.filter (at_location locationId) levels.
Proof.
  revert kept. induction levels as [| level levels IH]; intros kept.
  - intros [= <-]. reflexivity.
  - cbn [filter_levels List.filter]. unfold at_location at 1.
    destruct (j_location level) as [loc |]; [| discriminate].
    destruct (filter_levels locationId levels) as [kept' | e]; [| discriminate].
    intros [= <-]. rewrite <- (IH kept' eq_refl). reflexivity.
Qed.

Lemma level_rows_throws product variant levels :
  throws (level_rows product variant levels) = existsb no_quantities levels.
Proof.
  induction levels as [| level levels IH]; [reflexivity |].
  cbn [level_rows existsb]. unfold level_row, no_quantities at 1.
  destruct (j_quantities level) as [qs |].
  - rewrite (bool_decide_eq_true_2 (is_Some (Some qs)))
      by (eexists; reflexivity).
    cbn [negb orb]. rewrite <- IH.
    destruct (level_rows product variant levels); reflexivity.
  - rewrite (bool_decide_eq_false_2 (is_Some None))
      by (intros [? ?]; discriminate).
    reflexivity.
Qed.

Lemma variant_rows_throws locationId product v :
  throws (variant_rows locationId product v) = unprojectable locationId v.
Proof.
  unfold variant_rows, unprojectable.
  destruct (filter_active locationId).
  - pose proof (filter_levels_throws locationId (inventoryLevels v)) as Ht.
    destruct (filter_levels locationId (inventoryLevels v)) as [kept | e] eqn:Hf.
    + cbn [throws] in Ht. rewrite <- Ht. cbn [orb].
      rewrite <- (filter_levels_Normal _ _ _ Hf).
      destruct kept as [| level kept]; [reflexivity |].
      apply level_rows_throws.
    + cbn [throws] in Ht. rewrite <- Ht. reflexivity.
  - destruct (inventoryLevels v) as [| level kept]; [reflexivity |].
    apply level_rows_throws.
Qed.

Lemma existsb_concat_map {A B} (f : A -> list B) (p : B -> bool) xs :
  existsb p (concat (map f xs)) = existsb (fun x => existsb p (f x)) xs.
Proof.
  induction xs as [| x xs IH]; [reflexivity |].
  cbn [map concat existsb]. rewrite existsb_app, IH. reflexivity.
Qed.

Lemma project_throws locationId st :
  throws (project locationId st)
  = existsb (unprojectable locationId) (attached_variants st).
Proof.
  unfold project, attached_variants. rewrite collect_throws.
  rewrite existsb_concat_map. fold (products_of st).
  induction (products_of st) as [| p ps IH]; [reflexivity |].
  cbn [existsb]. rewrite IH, collect_throws. f_equal.
  induction (variants_of st p) as [| v vs IHv]; [reflexivity |].
  cbn [existsb]. rewrite IHv, variant_rows_throws. reflexivity.
Qed.

(** X20. The export of a fetched file fails, with the message [Failed to
    parse bulk data], exactly when some variant attached to a product has a
    level that cannot be projected: with a location filter, any level
    without [location] or a level at the chosen location without
    [quantities]; without a filter, any level without [quantities].  The
    rows collected before that variant are lost with it.  In every other
    case the export completes with at least one row. *)
Theorem X20_export_fails_iff_a_level_is_unprojectable locationId lines :
  let bad := existsb (unprojectable locationId)
                     (attached_variants (build lines)) in
  (bad = true ->
     rows_of_file locationId lines = ExportFailed "Failed to parse bulk data")
  /\ (bad = false ->
        exists first rest,
          rows_of_file locationId lines = ExportCompleted (first :: rest)).
Proof.
  intros bad. subst bad. rewrite <- project_throws. unfold rows_of_file.
  destruct (project locationId (build lines)) as [[| first rest] | e];
    cbn [throws]; split; intros H; try discriminate H; eauto.
Qed.

Lemma X20_export_fails_iff_a_level_is_unprojectable_witness :
  rows_of_file None file_level_without_quantities
  = ExportFailed "Failed to parse bulk data"
  /\ exists first rest,
       rows_of_file (Some "L9") file_level_without_quantities
       = ExportCompleted (first :: rest).
Proof.
  split.
  - exact (proj1 (X20_export_fails_iff_a_level_is_unprojectable
                    None file_level_without_quantities) eq_refl).
  - exact (proj2 (X20_export_fails_iff_a_level_is_unprojectable
                    (Some "L9") file_level_without_quantities) eq_refl).
Defined.

End ExportFailureFacts.

(** ** Export: one round of polling *)
Module ExportPollFacts.
Import JS Remote RemoteFacts ExportRoute ExportViews ExportClient ClientViews.

Lemma rows_of_file_cases locationId lines :
  rows_of_file locationId lines = ExportFailed "Failed to parse bulk data"
  \/ exists first rest,
       rows_of_file locationId lines = ExportCompleted (first :: rest).
Proof.
  unfold rows_of_file.
  destruct (project locationId (build lines)) as [[| first rest] | e]; eauto.
Qed.

Lemma export_loader_cases w locationId opId d :
  outcome_of (loader w locationId opId) = Some (Normal d) ->
  (x_node w = Normal None /\ d = failed "NONE" None opId)
  \/ exists op, x_node w = Normal (Some op)
     /\ ((ImportRoute.bo_status op = "COMPLETED"
          /\ (d = failed "FAILED" (Some "No URL in completed bulk operation") opId
              \/ d = failed "FAILED" (Some "Failed to parse bulk data") opId
              \/ exists first rest, d = completed (first :: rest) opId))
         \/ (ImportRoute.bo_status op <> "COMPLETED"
             /\ running_status (ImportRoute.bo_status op) = true
             /\ d = running (ImportRoute.bo_objectCount op) opId)
         \/ (ImportRoute.bo_status op <> "COMPLETED"
             /\ running_status (ImportRoute.bo_status op) = false
             /\ d = failed (ImportRoute.bo_status op) None opId)).
Proof.
  unfold loader, outcome_of, request.
  destruct (x_node w) as [[op |] | e]; [| | discriminate].
  2:{ rewrite bind_Normal. cbn. intros [= <-]. left. auto. }
  rewrite bind_Normal. cbv beta. intros H. right. exists op.
  split; [reflexivity |].
  destruct (String.eqb_spec (ImportRoute.bo_status op) "COMPLETED") as [Hc | Hc].
  - left. split; [exact Hc |].
    destruct (or_else (ImportRoute.bo_url op) None) as [url |].
    + destruct (x_file w) as [lines | e].
      * cbn in H. injection H as <-.
        destruct (rows_of_file_cases locationId lines)
          as [-> | (first & rest & ->)]; eauto.
      * cbn in H. injection H as <-. auto.
    + cbn in H. injection H as <-. auto.
  - right. fold (running_status (ImportRoute.bo_status op)) in H.
    destruct (running_status (ImportRoute.bo_status op));
      cbn in H; injection H as <-; [left | right]; auto.
Qed.

Lemma running_status_cases s :
  running_status s = true <-> s = "RUNNING" \/ s = "CREATED".
Proof.
  unfold running_status. rewrite orb_true_iff, !String.eqb_eq. reflexivity.
Qed.

(** X21. One round of export polling, from the remote job to the component.
    The component asks again exactly when the job is running or created.
    It does nothing at all, neither asking again nor clearing the running
    export, exactly when the job has a status other than COMPLETED,
    RUNNING, CREATED, FAILED and NONE (a cancelled or expired job).  It
    reports [Unknown error] exactly when the job is missing or its status
    is FAILED or NONE; every other failure message is one of the loader's
    two.  A download always has the header row and at least one row under
    it, and the effect never throws. *)
Theorem X21_export_poll_round w cur d :
  outcome_of (loader w (Some (ce_locationId cur)) (ce_operationId cur))
  = Some (Normal d) ->
  let eff := on_poll (Some cur) (Some d) in
  (eff = Normal (KeepPolling (ce_operationId cur) (ce_locationId cur))
     <-> exists s, remote_status (x_node w) = Some s
                   /\ running_status s = true)
  /\ (eff = Normal NoEffect
        <-> exists s, remote_status (x_node w) = Some s
              /\ s ∉ ["COMPLETED"; "RUNNING"; "CREATED"; "FAILED"; "NONE"])
  /\ (eff = Normal (ExportFailure "Export failed: Unknown error")
        <-> x_node w = Normal None
            \/ remote_status (x_node w) = Some "FAILED"
            \/ remote_status (x_node w) = Some "NONE")
  /\ (forall toast, eff = Normal (ExportFailure toast) ->
        toast ∈ [ "Export failed: Unknown error";
                  "Export failed: No URL in completed bulk operation";
                  "Export failed: Failed to parse bulk data" ])
  /\ (forall sheet, eff = Normal (Download sheet) ->
        remote_status (x_node w) = Some "COMPLETED"
        /\ exists first rest,
             sheet = Keys first :: Values first :: map Values rest)
  /\ throws eff = false.
Proof.
  intros H eff. subst eff. unfold on_poll.
  apply export_loader_cases in H
    as [[Hn ->] | (op & Hn & [(Hs & Hd) | [(Hc & Hr & ->) | (Hc & Hr & ->)]])];
    rewrite Hn; cbn [remote_status].
  - cbn [failed xr_operationId xr_status xr_error]. rewrite String.eqb_refl.
    cbn.
    split; [split; [discriminate | intros (s & [=] & _)] |].
    split; [split; [discriminate | intros (s & [=] & _)] |].
    split; [split; [auto | reflexivity] |].
    split; [intros toast [= <-]; set_solver |].
    split; [intros sheet; discriminate | reflexivity].
  - rewrite Hs.
    destruct Hd as [-> | [-> | (first & rest & ->)]];
      cbn [failed completed xr_operationId xr_status xr_error xr_rows];
      rewrite String.eqb_refl; cbn;
      (split; [split; [discriminate | intros (s & [= <-] & Hrun); discriminate]
              | split; [split; [discriminate | intros (s & [= <-] & Hin); set_solver]
              | split; [split; [discriminate | intros [Hx | [Hx | Hx]]; discriminate]
              | split; [intros toast; try discriminate; intros [= <-]; set_solver
              | split; [intros sheet; try discriminate; intros [= <-]; eauto
              | reflexivity]]]]]).
  - cbn [running xr_operationId xr_status]. rewrite String.eqb_refl. cbn.
    pose proof (proj1 (running_status_cases _) Hr) as Hr'.
    split; [split; [eauto | reflexivity] |].
    split; [split; [discriminate
                   | intros (s & [= <-] & Hin); exfalso; apply Hin;
                     rewrite list_elem_of_In; simpl;
                     destruct Hr' as [E | E]; rewrite E; auto 10] |].
    split; [split; [discriminate
                   | intros [Hx | [Hx | Hx]]; [discriminate | |];
                     injection Hx as Hx; rewrite Hx in Hr;
                     vm_compute in Hr; discriminate] |].
    split; [intros toast; discriminate |].
    split; [intros sheet; discriminate | reflexivity].
  - cbn [failed xr_operationId xr_status xr_error xr_rows].
    rewrite String.eqb_refl.
    unfold running_status in Hr. apply orb_false_iff in Hr as [Hr1 Hr2].
    rewrite Hr1. apply String.eqb_neq in Hc as Hc'. rewrite Hc'.
    apply String.eqb_neq in Hr1, Hr2.
    destruct (String.eqb_spec (ImportRoute.bo_status op) "FAILED") as [Hf | Hf];
      [| destruct (String.eqb_spec (ImportRoute.bo_status op) "NONE")
           as [Hno | Hno]]; cbn.
    + split; [split; [discriminate
                     | intros (s & [= <-] & Hrun);
                       apply running_status_cases in Hrun; tauto] |].
      split; [split; [discriminate | intros (s & [= <-] & Hin); set_solver] |].
      split; [split; [rewrite Hf; auto | reflexivity] |].
      split; [intros toast [= <-]; set_solver |].
      split; [intros sheet; discriminate | reflexivity].
    + split; [split; [discriminate
                     | intros (s & [= <-] & Hrun);
                       apply running_status_cases in Hrun; tauto] |].
      split; [split; [discriminate | intros (s & [= <-] & Hin); set_solver] |].
      split; [split; [rewrite Hno; auto | reflexivity] |].
      split; [intros toast [= <-]; set_solver |].
      split; [intros sheet; discriminate | reflexivity].
    + split; [split; [discriminate
                     | intros (s & [= <-] & Hrun);
                       apply running_status_cases in Hrun; tauto] |].
      split; [split; [intros _; eexists; split;
                        [reflexivity
                        | rewrite list_elem_of_In; simpl; intuition congruence]
                     | reflexivity] |].
      split; [split; [discriminate
                     | intros [Hx | [[= Hx] | [= Hx]]];
                       [discriminate | tauto | tauto]] |].
      split; [intros toast; discriminate |].
      split; [intros sheet; discriminate | reflexivity].
Qed.

Lemma X21_export_poll_round_witness :
  on_poll (Some {| ce_operationId := "op-1"; ce_locationId := "L1" |})
          (Some (failed "CANCELED" None "op-1"))
  = Normal NoEffect.
Proof.
  apply (proj2 (proj1 (proj2 (X21_export_poll_round
           {| x_node := Normal (Some (some_op "CANCELED" None));
              x_file := Throw "unused" |}
           {| ce_operationId := "op-1"; ce_locationId := "L1" |}
           (failed "CANCELED" None "op-1") eq_refl)))).
  exists "CANCELED". split; [reflexivity |].
  rewrite list_elem_of_In. simpl. intuition discriminate.
Defined.

End ExportPollFacts.

(** ** Import: one round of polling *)
Module ImportPollFacts.
Import JS Remote RemoteFacts ImportRoute ImportClient ClientViews.

Lemma import_loader_cases w opId d :
  outcome_of (loader w opId) = Some (Normal d) ->
  (p_node w = Normal None /\ d = PollNone)
  \/ exists op, p_node w = Normal (Some op)
     /\ ((bo_status op = "COMPLETED" /\ exists res, d = PollCompleted res)
         \/ (bo_status op <> "COMPLETED"
             /\ running_status (bo_status op) = true
             /\ d = PollRunning (bo_objectCount op))
         \/ (bo_status op <> "COMPLETED"
             /\ running_status (bo_status op) = false
             /\ d = PollOther (bo_status op))).
Proof.
  unfold loader, outcome_of, request.
  destruct (p_node w) as [[op |] | e]; [| | discriminate].
  2:{ rewrite bind_Normal. cbn. intros [= <-]. left. auto. }
  rewrite bind_Normal. cbv beta. intros H. right. exists op.
  split; [reflexivity |].
  destruct (String.eqb_spec (bo_status op) "COMPLETED") as [Hc | Hc].
  - left. split; [exact Hc |].
    destruct (or_else (bo_url op) None) as [url |].
    + destruct (p_file w) as [lines | e]; cbn in H; injection H as <-; eauto.
    + cbn in H. injection H as <-. eauto.
  - right. fold (running_status (bo_status op)) in H.
    destruct (running_status (bo_status op));
      cbn in H; injection H as <-; [left | right]; auto.
Qed.

Lemma running_status_iff s :
  running_status s = true <-> s = "RUNNING" \/ s = "CREATED".
Proof.
  unfold running_status. rewrite orb_true_iff, !String.eqb_eq. reflexivity.
Qed.

Lemma on_poll_own_response validated opId d :
  bulkOperationId validated = Some opId -> opId <> EmptyString ->
  on_poll (Some validated) (Some (response opId d))
  = let status := pr_status (response opId d) in
    if String.eqb status "RUNNING" || String.eqb status "CREATED"
    then KeepPolling opId
    else if String.eqb status "COMPLETED"
    then Finished (merge validated (pr_bulkResults (response opId d)))
    else if String.eqb status "FAILED" then BackgroundFailed
    else NoEffect.
Proof.
  intros Hid Hne. unfold on_poll. rewrite Hid.
  apply String.eqb_neq in Hne. cbn [or_else]. rewrite Hne.
  assert (Hop : pr_operationId (response opId d) = opId) by (destruct d; reflexivity).
  rewrite Hop. cbn [truthy]. rewrite Hne, String.eqb_refl. reflexivity.
Qed.

(** X22. One round of import polling, from the remote job to the component.
    The component asks again exactly when the job is running or created,
    although the loader never answers with the status CREATED the component
    also tests for.  It merges exactly when the job is completed, and then
    always with the counts of the loader, never with the empty default.  It
    reports a failed background update exactly when the job's status is
    FAILED.  When the job is missing, or has any other status (cancelled,
    expired), it does nothing: no final result is set and polling stops. *)
Theorem X22_import_poll_round w validated opId d :
  bulkOperationId validated = Some opId -> opId <> EmptyString ->
  outcome_of (loader w opId) = Some (Normal d) ->
  let eff := on_poll (Some validated) (Some (response opId d)) in
  (eff = KeepPolling opId
     <-> exists s, remote_status (p_node w) = Some s
                   /\ running_status s = true)
  /\ pr_status (response opId d) <> "CREATED"
  /\ ((exists merged, eff = Finished merged)
        <-> remote_status (p_node w) = Some "COMPLETED")
  /\ (forall merged, eff = Finished merged ->
        exists res, d = PollCompleted res /\ merged = merge validated (Some res))
  /\ (eff = BackgroundFailed <-> remote_status (p_node w) = Some "FAILED")
  /\ (eff = NoEffect
        <-> p_node w = Normal None
            \/ exists s, remote_status (p_node w) = Some s
                 /\ s ∉ ["COMPLETED"; "RUNNING"; "CREATED"; "FAILED"]).
Proof.
  intros Hid Hne H eff. subst eff. rewrite (on_poll_own_response _ _ _ Hid Hne).
  apply import_loader_cases in H
    as [[Hn ->] | (op & Hn & [(Hs & res & ->) | [(Hc & Hr & ->) | (Hc & Hr & ->)]])];
    rewrite Hn; cbn [remote_status response pr_status pr_bulkResults].
  - cbn.
    split; [split; [discriminate | intros (s & [=] & _)] |].
    split; [discriminate |].
    split; [split; [intros (m & [=]) | discriminate] |].
    split; [intros merged; discriminate |].
    split; [split; discriminate | split; auto].
  - rewrite Hs. cbn.
    split; [split; [discriminate | intros (s & [= <-] & Hrun); discriminate] |].
    split; [discriminate |].
    split; [split; eauto |].
    split; [intros merged [= <-]; eauto |].
    split; [split; discriminate |].
    split; [discriminate |].
    intros [Hx | (s & [= <-] & Hin)]; [discriminate |].
    exfalso. apply Hin. rewrite list_elem_of_In. simpl. auto.
  - cbn.
    pose proof (proj1 (running_status_iff _) Hr) as Hr'.
    split; [split; eauto |].
    split; [discriminate |].
    split; [split; [intros (m & [=]) | intros [= Hx]; congruence] |].
    split; [intros merged; discriminate |].
    split; [split; [discriminate
                   | intros [= Hx]; rewrite Hx in Hr; vm_compute in Hr;
                     discriminate] |].
    split; [discriminate |].
    intros [Hx | (s & [= <-] & Hin)]; [discriminate |].
    exfalso. apply Hin. rewrite list_elem_of_In. simpl.
    destruct Hr' as [E | E]; rewrite E; auto 10.
  - unfold running_status in Hr. rewrite Hr.
    apply orb_false_iff in Hr as [Hr1 Hr2].
    apply String.eqb_neq in Hc as Hc'. rewrite Hc'.
    apply String.eqb_neq in Hr1, Hr2.
    assert (Hnot : ~ (exists s, Some (bo_status op) = Some s
                        /\ running_status s = true)).
    { intros (s & [= <-] & Hrun). apply running_status_iff in Hrun. tauto. }
    destruct (String.eqb_spec (bo_status op) "FAILED") as [Hf | Hf].
    + split; [split; [discriminate | intros Hx; destruct (Hnot Hx)] |].
      split; [exact Hr2 |].
      split; [split; [intros (m & [=]) | intros [= Hx]; congruence] |].
      split; [intros merged; discriminate |].
      split; [split; [rewrite Hf; reflexivity | reflexivity] |].
      split; [discriminate |].
      intros [Hx | (s & [= <-] & Hin)]; [discriminate |].
      exfalso. apply Hin. rewrite list_elem_of_In, Hf. simpl. auto 10.
    + split; [split; [discriminate | intros Hx; destruct (Hnot Hx)] |].
      split; [exact Hr2 |].
      split; [split; [intros (m & [=]) | intros [= Hx]; congruence] |].
      split; [intros merged; discriminate |].
      split; [split; [discriminate | intros [= Hx]; congruence] |].
      split; [| reflexivity].
      intros _. right. eexists. split; [reflexivity |].
      rewrite list_elem_of_In. simpl. intuition congruence.
Qed.

Lemma X22_import_poll_round_witness :
  on_poll (Some (waiting_for "op-1"))
          (Some (response "op-1" (PollOther "CANCELED")))
  = NoEffect.
Proof.
  apply (proj2 (proj2 (proj2 (proj2 (proj2 (proj2 (X22_import_poll_round
           {| p_node := Normal (Some (some_op "CANCELED" None));
              p_file := Throw "unused" |}
           (waiting_for "op-1") "op-1" (PollOther "CANCELED")
           eq_refl ltac:(discriminate) eq_refl))))))).
  right. exists "CANCELED". split; [reflexivity |].
  rewrite list_elem_of_In. simpl. intuition discriminate.
Defined.

End ImportPollFacts.

(** ** Import: the tables of failed and skipped rows *)
Module PagingFacts.
Import ImportClient.

Lemma page_rows_eq {A} page (xs : list A) :
  (1 <= page)%nat ->
  page_rows page xs = take 10 (drop ((page - 1) * 10) xs).
Proof.
  intros Hp. unfold page_rows, slice, failedRowsPerPage. f_equal. lia.
Qed.

Lemma pages_take {A} (xs : list A) k :
  concat (map (fun page => page_rows page xs) (seq 1 k)) = take (k * 10) xs.
Proof.
  induction k as [| k IH]; [reflexivity |].
  rewrite seq_S, map_app, concat_app, IH. cbn [map concat].
  rewrite app_nil_r, page_rows_eq by lia.
  replace (1 + k - 1)%nat with k by lia.
  rewrite take_take_drop. f_equal. lia.
Qed.

Lemma page_count_spec n :
  (n <= page_count n * 10 < n + 10)%nat.
Proof.
  unfold page_count, failedRowsPerPage. cbn [Nat.sub].
  pose proof (Nat.div_mod_eq (n + 9) 10) as Hd.
  pose proof (Nat.mod_upper_bound (n + 9) 10 ltac:(lia)) as Hm.
  set (q := ((n + 9) / 10)%nat) in *. set (r := ((n + 9) mod 10)%nat) in *.
  clearbody q r. lia.
Qed.

Lemma length_page_rows {A} page (xs : list A) :
  (1 <= page)%nat ->
  length (page_rows page xs) = Nat.min 10 (length xs - (page - 1) * 10).
Proof.
  intros Hp. rewrite page_rows_eq by exact Hp.
  rewrite length_take, length_drop. reflexivity.
Qed.

(** X23. The pages of a table partition its rows: shown one after the other,
    pages 1 to [Math.ceil(n / 10)] give every row exactly once and in order;
    each of these pages shows between one and ten rows, and any later page
    would be empty. *)
Theorem X23_pages_partition_the_rows {A} (xs : list A) :
  concat (map (fun page => page_rows page xs)
              (seq 1 (page_count (length xs)))) = xs
  /\ (forall page, (1 <= page <= page_count (length xs))%nat ->
        (1 <= length (page_rows page xs) <= 10)%nat)
  /\ (forall page, (page_count (length xs) < page)%nat ->
        page_rows page xs = []).
Proof.
  pose proof (page_count_spec (length xs)) as Hc.
  split; [| split].
  - rewrite pages_take. apply take_ge. lia.
  - intros page Hp. rewrite length_page_rows by lia. lia.
  - intros page Hp. rewrite page_rows_eq by lia.
    rewrite drop_ge by lia. reflexivity.
Qed.

Lemma X23_pages_partition_the_rows_witness :
  (1 <= length (page_rows 3 (seq 0 23)) <= 10)%nat.
Proof.
  apply (proj1 (proj2 (X23_pages_partition_the_rows (seq 0 23)))).
  vm_compute. split; repeat constructor.
Defined.

(** X24. On a page between 1 and the last, the label [a-b of n] counts
    exactly the rows shown; the next button is enabled exactly when the
    following page has a row to show, and the previous one exactly when the
    page is not the first; following an enabled button leads to a page
    between 1 and the last again. *)
Theorem X24_label_and_buttons_match_the_rows {A} (xs : list A) page :
  (1 <= page <= page_count (length xs))%nat ->
  (label_last page (length xs) + 1 - label_first page
   = length (page_rows page xs))%nat
  /\ (hasNext page (length xs) = true <-> page_rows (page + 1) xs <> [])
  /\ (hasNext page (length xs) = true ->
        (1 <= page + 1 <= page_count (length xs))%nat)
  /\ (hasPrevious page = true <->
        (1 <= page - 1 <= page_count (length xs))%nat).
Proof.
  intros Hp. pose proof (page_count_spec (length xs)) as Hc.
  unfold label_last, label_first, hasNext, hasPrevious, failedRowsPerPage.
  rewrite length_page_rows by lia.
  split; [lia |]. split; [| split].
  - rewrite Nat.ltb_lt. split.
    + intros Hlt Hnil. apply (f_equal length) in Hnil.
      rewrite length_page_rows in Hnil by lia. cbn [length] in Hnil. lia.
    + intros Hne. destruct (Nat.lt_ge_cases page (page_count (length xs)))
        as [Hlt | Hge]; [exact Hlt |].
      exfalso. apply Hne. rewrite page_rows_eq by lia.
      rewrite drop_ge by lia. reflexivity.
  - rewrite Nat.ltb_lt. lia.
  - rewrite Nat.ltb_lt. lia.
Qed.

Lemma X24_label_and_buttons_match_the_rows_witness :
  (label_last 3 23 + 1 - label_first 3 = 3)%nat
  /\ hasNext 3 23 = false /\ hasPrevious 3 = true.
Proof.
  pose proof (X24_label_and_buttons_match_the_rows (seq 0 23) 3
                ltac:(vm_compute; split; repeat constructor)) as (Hl & _).
  split; [exact Hl | split; reflexivity].
Defined.

End PagingFacts.

(** ** Import: from the sheet to the first answer *)
Module SubmitFacts.
Import JS Remote RemoteFacts ImportRoute ValidatorViews ImportViews Samples.
Import ImportMoreViews ImportClient ValidatorFacts ImportRunFacts.

Lemma strict_eq_true v w : strict_eq v w = true <-> v = w.
Proof. unfold strict_eq. apply bool_decide_eq_true. Qed.

(** X25. A row the component submits is never dropped by the first guard of
    the row loop unless its SKU cell is the text [SKU] itself, and the SKU
    under which the loop reports it is never empty. *)
Theorem X25_submitted_rows_reach_the_checks e seen rowData :
  submits rowData = true ->
  (fst (classify e seen rowData) = Ignored <-> get rowData "SKU" = JStr "SKU")
  /\ sku_of rowData <> EmptyString.
Proof.
  unfold submits. intros [Ht Hn]%andb_prop. split.
  - rewrite classify_Ignored_iff. unfold ignored.
    rewrite Ht. cbn [negb orb]. apply strict_eq_true.
  - unfold sku_of. apply negb_true_iff, String.eqb_neq in Hn. exact Hn.
Qed.

Lemma X25_submitted_rows_reach_the_checks_witness :
  sku_of row_a1_9 <> EmptyString.
Proof.
  exact (proj2 (X25_submitted_rows_reach_the_checks
                  env_two_mains ∅ row_a1_9 eq_refl)).
Defined.

Lemma action_report_updated w locationId rows report :
  report_of (action w locationId rows) = Some report -> updated report = 0.
Proof.
  unfold report_of, action.
  destruct (prepare w locationId) as [tr [[e | err] |]] eqn:Hprep;
    try discriminate.
  rewrite bind_Normal. cbn [snd].
  destruct (snd (execute w _ _)) as [[rep | ?] |] eqn:Hex; try discriminate.
  intros [= ->].
  destruct (ImportMoreFacts.run_in_step e rows (initial_state rows) eq_refl)
    as [_ Hupd].
  fold (validate e rows) in Hupd. simpl in Hupd.
  apply ImportMoreFacts.execute_report_cases in Hex
    as [-> | [[msg ->] | [opId ->]]]; simpl; exact Hupd.
Qed.

(** X26. When the action returned a report without a bulk operation id,
    the component takes that report as final and announces [Import
    complete. 0 updated.]: no row is ever counted as updated without a
    poll.  When the report carries an id, the component starts polling for
    that id instead and announces nothing yet. *)
Theorem X26_completion_without_job_reports_zero w locationId rows report :
  report_of (action w locationId rows) = Some report ->
  (or_else (bulkOperationId report) None = None ->
     on_action report = Completed report "Import complete. 0 updated.")
  /\ (forall opId, or_else (bulkOperationId report) None = Some opId ->
        on_action report = StartPolling opId).
Proof.
  intros Hrep. unfold on_action.
  rewrite (action_report_updated _ _ _ _ Hrep).
  split; [intros -> | intros opId ->]; reflexivity.
Qed.

Lemma X26_completion_without_job_reports_zero_witness :
  exists report,
    report_of (action remote_upload_refused "L1" [row_q_bad; row_a1_9])
    = Some report
    /\ on_action report = Completed report "Import complete. 0 updated.".
Proof.
  destruct (report_of (action remote_upload_refused "L1" [row_q_bad; row_a1_9]))
    as [report |] eqn:H; [| vm_compute in H; discriminate H].
  exists report. split; [reflexivity |].
  apply (proj1 (X26_completion_without_job_reports_zero _ _ _ _ H)).
  vm_compute in H. injection H as <-. reflexivity.
Defined.

End SubmitFacts.

(** ** The progress bars *)
Module ProgressFacts.
Import ImportClient ExportClient.

Lemma progress_tick_iter n :
  (n <= 18)%nat -> Nat.iter n progress_tick 0 = 5 * Z.of_nat n.
Proof.
  induction n as [| n IH]; [reflexivity |].
  intros Hn. rewrite Nat.iter_succ, IH by lia. unfold progress_tick.
  destruct (Z.ltb_spec (5 * Z.of_nat n) 90); lia.
Qed.

(** X27. The progress bars never reach 100 by ticking.  In the import
    component, whatever mix of analysis and background ticks follows a
    value of at most 90, the value never decreases and stays at most 90.
    In the export component the bar shows [5 n] after [n] ticks from 0
    until it stops at 90. *)
Theorem X27_progress_stops_short_of_100 :
  (forall ticks p,
      Forall (fun tick => tick = analysis_tick \/ tick = background_tick) ticks ->
      p <= 90 ->
      p <= fold_left (fun prev tick => tick prev) ticks p <= 90)
  /\ (forall n, Nat.iter n progress_tick 0 = Z.min (5 * Z.of_nat n) 90).
Proof.
  split.
  - intros ticks p Hticks. revert p.
    induction Hticks as [| tick ticks [-> | ->] _ IH]; intros p Hp;
      cbn [fold_left]; [lia | |].
    + unfold analysis_tick.
      destruct (Z.ltb_spec p 60); [specialize (IH (p + 5)) | specialize (IH p)];
        lia.
    + unfold background_tick.
      destruct (Z.ltb_spec p 90); [specialize (IH (p + 1)) | specialize (IH p)];
        lia.
  - intros n. destruct (Nat.le_gt_cases n 18) as [Hle | Hgt].
    + rewrite progress_tick_iter by exact Hle. lia.
    + replace (Z.min (5 * Z.of_nat n) 90) with 90 by lia.
      assert (Hk : forall k, Nat.iter (k + 18) progress_tick 0 = 90).
      { induction k as [| k IH]; [apply (progress_tick_iter 18); lia |].
        cbn [Nat.add]. rewrite Nat.iter_succ, IH. reflexivity. }
      replace n with ((n - 18) + 18)%nat by lia. apply Hk.
Qed.

Lemma X27_progress_stops_short_of_100_witness :
  10 <= fold_left (fun prev tick => tick prev)
          [analysis_tick; analysis_tick; background_tick] 10 <= 90.
Proof.
  apply (proj1 X27_progress_stops_short_of_100).
  - repeat (constructor; [first [left; reflexivity | right; reflexivity] |]).
    constructor.
  - lia.
Defined.

End ProgressFacts.

(** ** Webhooks *)
Module WebhookFacts.
Import JS Remote Webhooks.

Section Verify.
Variable hmac_sha256_base64 : string -> string -> string.

Lemma or_else_Some a s :
  or_else a None = Some s <-> a = Some s /\ s <> EmptyString.
Proof.
  unfold or_else. destruct a as [t |]; [| split; [discriminate | intros [[=] _]]].
  destruct (String.eqb_spec t EmptyString) as [-> | Hne].
  - split; [discriminate | intros [[= <-] Hs]; congruence].
  - split; [intros [= <-]; auto | intros [[= <-] _]; reflexivity].
Qed.

(** X28. A webhook request is accepted as signed exactly when it carries a
    non-empty signature header, a non-empty secret is configured, the body
    can be read, and the header is the base64 HMAC of the raw body under the
    secret.  The length test before the comparison never changes the
    answer. *)
Theorem X28_verifyWebhook_accepts_exactly_the_signed secret request :
  verifyWebhook hmac_sha256_base64 secret request = true
  <-> exists header key text,
        hmacHeader request = Some header /\ header <> EmptyString
        /\ secret = Some key /\ key <> EmptyString
        /\ body request = Normal text
        /\ header = hmac_sha256_base64 key text.
Proof.
  unfold verifyWebhook. split.
  - destruct (or_else (hmacHeader request) None) as [header |] eqn:Hh;
      [| discriminate].
    destruct (or_else secret None) as [key |] eqn:Hk; [| discriminate].
    destruct (body request) as [text | e]; [| discriminate].
    apply or_else_Some in Hh as [Hh Hhne]. apply or_else_Some in Hk as [Hk Hkne].
    destruct (negb _); [discriminate |].
    intros Heq%String.eqb_eq. exists header, key, text. auto 10.
  - intros (header & key & text & Hh & Hhne & Hk & Hkne & Hb & Heq).
    rewrite (proj2 (or_else_Some _ _) (conj Hh Hhne)).
    rewrite (proj2 (or_else_Some _ _) (conj Hk Hkne)).
    rewrite Hb. cbv zeta. rewrite <- Heq, Nat.eqb_refl. cbn [negb].
    apply String.eqb_refl.
Qed.

(** X29. The [action] of the webhook route answers 200 exactly to a POST
    request whose signature was accepted, that [authenticate.webhook]
    accepts too, and whose topic is one of the three compliance topics.  A
    request with any other method that reaches the action is answered 405
    whatever its signature; a POST without an accepted signature is answered
    401 whatever [authenticate.webhook] would say; and the action sends no
    other status than 200, 400, 401 and 405.  The [loader] checks nothing:
    it answers 200 to every request it is given. *)
Theorem X29_webhook_action_status secret request authenticated :
  let answer := action hmac_sha256_base64 secret request authenticated in
  (r_status answer = 200
     <-> method request = "POST"
         /\ verifyWebhook hmac_sha256_base64 secret request = true
         /\ exists context, authenticated = Normal context
              /\ handled_topic (topic context) = true)
  /\ (method request <> "POST" -> r_status answer = 405)
  /\ (method request = "POST" ->
      verifyWebhook hmac_sha256_base64 secret request = false ->
      answer = {| r_status := 401; r_text := "Unauthorized" |})
  /\ r_status answer ∈ [200; 400; 401; 405]
  /\ r_status (loader request) = 200.
Proof.
  intros answer. subst answer. unfold action.
  destruct (String.eqb_spec (method request) "POST") as [Hm | Hm]; cbn [negb].
  - destruct (verifyWebhook hmac_sha256_base64 secret request) eqn:Hv;
      cbn [negb].
    + destruct authenticated as [context | e].
      * destruct (handled_topic (topic context)) eqn:Ht; cbn [r_status].
        -- split; [split; eauto |].
           split; [congruence |]. split; [discriminate |].
           split; [| reflexivity].
           rewrite list_elem_of_In. simpl. auto.
        -- split; [split; [discriminate
                          | intros (_ & _ & c & [= <-] & Hc); congruence] |].
           split; [congruence |]. split; [discriminate |].
           split; [| reflexivity].
           rewrite list_elem_of_In. simpl. auto.
      * cbn [r_status].
        split; [split; [discriminate | intros (_ & _ & c & [=] & _)] |].
        split; [congruence |]. split; [discriminate |].
        split; [| reflexivity].
        rewrite list_elem_of_In. simpl. auto.
    + cbn [r_status].
      split; [split; [discriminate | intros (_ & [=] & _)] |].
      split; [congruence |]. split; [reflexivity |].
      split; [| reflexivity].
      rewrite list_elem_of_In. simpl. auto.
  - cbn [r_status].
    split; [split; [discriminate | intros (Hp & _); congruence] |].
    split; [reflexivity |]. split; [congruence |].
    split; [| reflexivity].
    rewrite list_elem_of_In. simpl. auto 10.
Qed.

End Verify.

Lemma X29_webhook_action_status_witness :
  r_status (action (fun key text => key +:+ text) (Some "k")
              signed_shop_redact
              (Normal {| shop := "s"; topic := "SHOP_REDACT" |})) = 200
  /\ action (fun key text => key +:+ text) (Some "k")
       forged_shop_redact
       (Normal {| shop := "s"; topic := "SHOP_REDACT" |})
     = {| r_status := 401; r_text := "Unauthorized" |}.
Proof.
  split.
  - apply (proj1 (X29_webhook_action_status (fun key text => key +:+ text)
             (Some "k") signed_shop_redact
             (Normal {| shop := "s"; topic := "SHOP_REDACT" |}))).
    split; [reflexivity | split; [reflexivity |]].
    eexists. split; reflexivity.
  - apply (proj1 (proj2 (proj2 (X29_webhook_action_status
             (fun key text => key +:+ text) (Some "k") forged_shop_redact
             (Normal {| shop := "s"; topic := "SHOP_REDACT" |})))));
      reflexivity.
Defined.

End WebhookFacts.
